(** * comfy_trt: registry of compiled engines and refit alignment

    A shallow embedding of [comfy_trt/model_manager.py] and of
    [comfy_trt/utilities.py] (the dtype tables, [change_trt_layer_name],
    the three refit methods, the first step of [build],
    [allocate_buffers] and [infer]), followed by the properties of the
    matcher, the registry and the alignment that the specification
    states, and by further properties of the code.

    Conventions of the embedding.
    - Python values that travel through the JSON registry file are values
      of type [json]; Python [int] is [Z]. The fields of a [ModelConfig]
      are such values: the dataclass checks no types.
    - A Python [dict] whose iteration order is observable (the registry,
      a request, a JSON object) is an insertion-ordered association list;
      a [dict] used only through lookup and store ([name_map],
      [refit_dict]) is a [gmap].
    - A raised exception is the outcome [Raise e]; [assert] statements
      are executed. [Unmodelled] marks what lies outside the development:
      [torch.Tensor] applied to something else than a flat list of
      integers, and registry files whose entries are not of the shape the
      code writes.
    - Python computes the distances in binary floating point: [float]
      (binary64) in [is_compatible], float32 tensors in
      [is_compatible_from_dict]. Every value of these computations is an
      integer, a half or a quarter, so it is held as an integer count of
      its unit, and an operation gives its exact result rounded to the
      nearest number of 53 or 24 significant bits, ties to the even
      significand ([round_to]). A returned distance is the rational the
      floating-point number stands for. The sum of a tensor is followed
      where the order of the additions cannot matter.
    - Output on the console ([print]) is left out; what [logging.error]
      receives in [refit] is kept.
    - What belongs to TensorRT, torch and numpy (arrays, the execution
      context, the engine's verdict on a refit, the copy into a buffer)
      is a parameter of the section that uses it. *)

From Stdlib Require Import ZArith QArith List String Ascii Bool Lia Lqa.
From stdpp Require Import base option list strings gmap.
Import ListNotations.

Local Open Scope string_scope.
Local Open Scope Z_scope.

(** ** Python values and outcomes *)

#[local] Set Warnings "-register-all".

(** The values of a JSON document, as [json.load] returns them. Numbers
    are integers: the code writes no others into the registry. *)
Inductive json : Type :=
| JNull
| JBool (b : bool)
| JInt (z : Z)
| JStr (s : string)
| JList (l : list json)
| JDict (d : list (string * json)).

Inductive exn : Type :=
| KeyError | TypeError | ValueError | IndexError
| AttributeError | AssertionError | RuntimeError | FileNotFoundError
| OverflowError.

Inductive result (A : Type) : Type :=
| Ok (a : A)
| Raise (e : exn)
| Unmodelled.

Arguments Ok {A} a.
Arguments Raise {A} e.
Arguments Unmodelled {A}.

(** Sequencing: an exception ends the computation. The notation
    [x ← m; k] is the one of stdpp's [MBind]. *)
#[global] Instance result_bind : MBind result := fun A B k m =>
  match m with
  | Ok a => k a
  | Raise e => Raise e
  | Unmodelled => Unmodelled
  end.

(** Short-circuit [or] of two conditions that may raise. *)
Definition por (a b : result bool) : result bool :=
  x ← a; if (x : bool) then Ok true else b.
Infix "|||" := por (at level 50, left associativity).

(** *** Insertion-ordered dictionaries *)

Section Dict.
Context {V : Type}.

Fixpoint dict_get (d : list (string * V)) (k : string) : option V :=
  match d with
  | [] => None
  | (k', v) :: d' => if String.eqb k' k then Some v else dict_get d' k
  end.

(** [d[k] = v]: an existing key keeps its position, a new one goes last. *)
Fixpoint dict_set (d : list (string * V)) (k : string) (v : V) : list (string * V) :=
  match d with
  | [] => [(k, v)]
  | (k', v') :: d' =>
      if String.eqb k' k then (k', v) :: d' else (k', v') :: dict_set d' k v
  end.

Fixpoint dict_pop (d : list (string * V)) (k : string) : list (string * V) :=
  match d with
  | [] => []
  | (k', v') :: d' => if String.eqb k' k then d' else (k', v') :: dict_pop d' k
  end.

Definition dict_keys (d : list (string * V)) : list string := map fst d.
End Dict.

(** *** The few operations on Python values that the matcher uses *)

(** [x[k]] with a string [k]. *)
Definition getitem_str (x : json) (k : string) : result json :=
  match x with
  | JDict d => match dict_get d k with Some v => Ok v | None => Raise KeyError end
  | _ => Raise TypeError
  end.

Definition chars (s : string) : list json :=
  map (fun c => JStr (String c EmptyString)) (list_ascii_of_string s).

(** [x[i]] with a non-negative integer literal [i]. *)
Definition getitem_int (x : json) (i : nat) : result json :=
  match x with
  | JList l => match nth_error l i with Some v => Ok v | None => Raise IndexError end
  | JStr s => match nth_error (chars s) i with Some v => Ok v | None => Raise IndexError end
  | JDict _ => Raise KeyError
  | _ => Raise TypeError
  end.

(** [a, b, c = x] *)
Definition unpack3 (x : json) : result (json * json * json) :=
  let of_list (l : list json) :=
    match l with
    | [a; b; c] => Ok (a, b, c)
    | _ => Raise ValueError
    end in
  match x with
  | JList l => of_list l
  | JStr s => of_list (chars s)
  | JDict d => of_list (map JStr (dict_keys d))
  | _ => Raise TypeError
  end.

(** The integer a value stands for in a comparison or a subtraction with
    an [int]; [bool] is a subclass of [int]. *)
Definition as_int (x : json) : result Z :=
  match x with
  | JInt z => Ok z
  | JBool b => Ok (if b then 1 else 0)
  | _ => Raise TypeError
  end.

Definition truthy (x : json) : bool :=
  match x with
  | JNull => false
  | JBool b => b
  | JInt z => negb (z =? 0)
  | JStr s => negb (String.eqb s EmptyString)
  | JList l => match l with [] => false | _ => true end
  | JDict d => match d with [] => false | _ => true end
  end.

(** *** Floating point *)

(** [n] rounded to [p] significant bits, ties to the even significand.
    The integer [n] counts a unit that is a power of two (1, 1/2 or
    1/4), and the values are far from the ends of the exponent range, so
    this is the rounding of binary floating point: of float32 for
    [p = 24], of binary64 for [p = 53]. Below [2 ^ p] every count is
    exact; above, the [k] low bits are dropped. *)
Definition round_to (p n : Z) : Z :=
  let a := Z.abs n in
  if a <? 2 ^ p then n
  else
    let k := Z.log2 a + 1 - p in
    let m := a / 2 ^ k in
    let r := a mod 2 ^ k in
    let half := 2 ^ (k - 1) in
    let m := if (half <? r) || ((r =? half) && Z.odd m) then m + 1 else m in
    Z.sgn n * (m * 2 ^ k).

(** The first power of two beyond the largest [float]. *)
Definition float_max : Z := 2 ^ 1024.

(** The [float] an [int] becomes in an operation with a [float]. *)
Definition float_of_int (n : Z) : result Z :=
  let r := round_to 53 n in
  if float_max <=? Z.abs r then Raise OverflowError else Ok r.

(** *** One-dimensional tensors *)

(** A flat list of integers. *)
Fixpoint int_list (l : list json) : option (list Z) :=
  match l with
  | [] => Some []
  | JInt z :: l' => match int_list l' with Some zs => Some (z :: zs) | None => None end
  | _ => None
  end.

Definition flat_ints (x : json) : result (list Z) :=
  match x with
  | JList l => match int_list l with Some zs => Ok zs | None => Unmodelled end
  | _ => Unmodelled
  end.

(** [torch.Tensor(x)] for a flat list of integers: a float32 tensor,
    each entry the integer rounded. An integer of 2^53 or more is
    rounded twice on its way (to a double first) and is not followed. *)
Definition Tensor (x : json) : result (list Z) :=
  zs ← flat_ints x;
  if forallb (fun z => Z.abs z <? 2 ^ 53) zs then Ok (map (round_to 24) zs)
  else Unmodelled.

Fixpoint zip_with_Z (f : Z -> Z -> Z) (a b : list Z) : list Z :=
  match a, b with
  | x :: a', y :: b' => f x y :: zip_with_Z f a' b'
  | _, _ => []
  end.

(** The difference of two float32 numbers. *)
Definition sub32 (x y : Z) : Z := round_to 24 (x - y).

(** [a - b] with the broadcasting rule for two 1-d tensors. *)
Definition tsub (a b : list Z) : result (list Z) :=
  if (length a =? length b)%nat then Ok (zip_with_Z sub32 a b)
  else match a, b with
       | [x], _ => Ok (map (fun y => sub32 x y) b)
       | _, [y] => Ok (map (fun x => sub32 x y) a)
       | _, _ => Raise RuntimeError
       end.

Definition tabs (a : list Z) : list Z := map Z.abs a.
Definition tsum (a : list Z) : Z := fold_right Z.add 0 a.
(** [torch.any(a < 0)] *)
Definition any_neg (a : list Z) : bool := existsb (fun x => x <? 0) a.

(** [a.sum()] of a float32 tensor with integer entries. The order in
    which torch adds the entries is not fixed; when their magnitudes add
    up to at most 2^24, every partial sum is an integer of at most that
    size, hence exact, whatever the order. Other sums are not
    followed. *)
Definition tensor_sum (a : list Z) : result Z :=
  if tsum (tabs a) <=? 2 ^ 24 then Ok (tsum a) else Unmodelled.

(** The rational that a count of quarters, or of halves, stands for. *)
Definition quarters (n : Z) : Q := n # 4.
Definition halves (n : Z) : Q := n # 2.

(** ** model_manager.py *)

Module model_manager.

Record ModelConfig : Type := {
  profile : json;
  static_shapes : json;
  fp32 : json;
  baseline_model : json;
  inpaint : json;
  refit : json;
  lora : json;
  vram : json;
  unet_hidden_dim : json
}.

(** A request by concrete tensors: input name and the tensor's shape, in
    the iteration order of [feed_dict]. *)
Definition feed := list (string * list Z).

(** The loop of [is_compatible_from_dict]. The distance so far is the
    [int] 0 or a float32 that is a multiple of 1/4: [distance] is its
    count of quarters. In
    [r_opt.sum() + 0.5 * (r_max.sum() + 0.5 * r_min.sum())] the two
    products by 0.5 are exact, so that the inner sum is rounded as a
    count of halves and the outer one as a count of quarters. *)
Fixpoint is_compatible_from_dict_loop
    (self : ModelConfig) (items : feed) (distance : Z) : result (bool * Q) :=
  match items with
  | [] => Ok (true, quarters distance)
  | (k, v) :: items' =>
      entry ← getitem_str (profile self) k;
      '(_min, _opt, _max) ← unpack3 entry;
      v_tensor ← Tensor (JList (map JInt v));
      t_max ← Tensor _max;
      r_min ← tsub t_max v_tensor;
      t_opt ← Tensor _opt;
      d_opt ← tsub t_opt v_tensor;
      let r_opt := tabs d_opt in
      t_min ← Tensor _min;
      r_max ← tsub v_tensor t_min;
      if any_neg r_min || any_neg r_max then Ok (false, quarters distance)
      else
        s_opt ← tensor_sum r_opt;
        s_max ← tensor_sum r_max;
        s_min ← tensor_sum r_min;
        let inner := round_to 24 (2 * s_max + s_min) in
        let term := round_to 24 (4 * s_opt + inner) in
        is_compatible_from_dict_loop self items' (round_to 24 (distance + term))
  end.

Definition is_compatible_from_dict (self : ModelConfig) (feed_dict : feed)
  : result (bool * Q) :=
  is_compatible_from_dict_loop self feed_dict 0.

Definition gt_int (x : result json) (n : Z) : result bool :=
  j ← x; z ← as_int j; Ok (n <? z).
Definition lt_int (x : result json) (n : Z) : result bool :=
  j ← x; z ← as_int j; Ok (z <? n).
(** [abs(x - n)] *)
Definition abs_diff (x : result json) (n : Z) : result Z :=
  j ← x; z ← as_int j; Ok (Z.abs (z - n)).

(** [is_compatible]. The three differences to opt add up as [int]s,
    and so do the two differences to max; the product by 0.5 makes the
    second sum a [float] and is exact, the last addition makes the first
    sum a [float] and is rounded, as a count of halves. A sum beyond the
    largest [float] is [inf], which is not followed. *)
Definition is_compatible (self : ModelConfig)
    (width height batch_size max_embedding : Z) : result (bool * Q) :=
  let distance := 0%Q in
  sample ← getitem_str (profile self) "sample";
  embedding ← getitem_str (profile self) "encoder_hidden_states";
  let batch_size := batch_size * 2 in
  let width := width / 8 in
  let height := height / 8 in
  '(_min, _opt, _max) ← unpack3 sample;
  '(_min_em, _opt_em, _max_em) ← unpack3 embedding;
  rejected ←
    (gt_int (getitem_int _min 0) batch_size ||| lt_int (getitem_int _max 0) batch_size
     ||| gt_int (getitem_int _min 2) height ||| lt_int (getitem_int _max 2) height
     ||| gt_int (getitem_int _min 3) width ||| lt_int (getitem_int _max 3) width
     ||| gt_int (getitem_int _min_em 1) max_embedding
     ||| lt_int (getitem_int _max_em 1) max_embedding);
  if (rejected : bool) then Ok (false, distance)
  else
    d0 ← abs_diff (getitem_int _opt 0) batch_size;
    d2 ← abs_diff (getitem_int _opt 2) height;
    d3 ← abs_diff (getitem_int _opt 3) width;
    m2 ← abs_diff (getitem_int _max 2) height;
    m3 ← abs_diff (getitem_int _max 3) width;
    m ← float_of_int (m2 + m3);
    i ← float_of_int (d0 + d2 + d3);
    let d := round_to 53 (2 * i + m) in
    if 2 * float_max <=? d then Unmodelled
    else Ok (true, halves d).

(** *** The registry *)

(** A registry entry: the dictionary literal
    [{"filepath": ..., "config": ...}] of [add_entry], with the extra
    ["base_model"] key of [add_lora_entry]. *)
Record entry : Type := {
  filepath : string;
  base_model : option string;
  config : ModelConfig
}.

(** compute-capability tag -> base-model name -> entries *)
Definition registry := list (string * list (string * list entry)).

(** What the operations see of the file system: the JSON documents stored
    by path, and the names [os.listdir(TRT_MODEL_DIR)] returns. *)
Record FS : Type := {
  files : list (string * json);
  listdir_trt : list string
}.

Record ModelManager : Type := {
  all_models : registry;
  model_file : string;
  cc : string
}.

Definition set_all_models (self : ModelManager) (r : registry) : ModelManager :=
  {| all_models := r; model_file := model_file self; cc := cc self |}.

(** The outcome of a method: the object and the file system after it,
    and whether it returned or raised. *)
Definition outcome := (ModelManager * FS * result unit)%type.

Definition endswith (s suffix : string) : bool :=
  let n := String.length s in
  let m := String.length suffix in
  (m <=? n)%nat && String.eqb (substring (n - m) m s) suffix.

(** [os.path.join(a, b)] on a POSIX system. *)
Definition os_path_join (a b : string) : string :=
  if String.prefix "/" b then b
  else if String.eqb a EmptyString || endswith a "/" then a ++ b
  else a ++ "/" ++ b.

(** [for x in v] needs an iterable. *)
Definition iter_check (v : json) : result unit :=
  match v with
  | JList _ | JStr _ | JDict _ => Ok ()
  | _ => Raise TypeError
  end.

Fixpoint dim_hash_loop (v : json) (range : list nat) : result unit :=
  match range with
  | [] => Ok ()
  | i :: range' =>
      vi ← getitem_int v i;
      _ ← iter_check vi;
      dim_hash_loop v range'
  end.

Fixpoint profile_hash_loop (items : list (string * json)) (n_profiles : nat)
  : result unit :=
  match items with
  | [] => Ok ()
  | (k, v) :: items' =>
      _ ← dim_hash_loop v (seq 0 n_profiles);
      profile_hash_loop items' n_profiles
  end.

(** [get_trt_path]. The list [profile_hash] the loop builds is not used
    by the file name (the line that joined it is commented out in the
    source), so the loop is kept for the exceptions it can raise only. *)
Definition get_trt_path (TRT_MODEL_DIR : string) (self : ModelManager)
    (model_name : string) (profile : json) (static_shape : json)
  : result (string * string) :=
  let n_profiles := if truthy static_shape then 1%nat else 3%nat in
  items ← match profile with
          | JDict d => Ok d
          | _ => Raise AttributeError
          end;
  _ ← profile_hash_loop items n_profiles;
  let trt_filename := model_name ++ "_" ++ cc self ++ ".trt" in
  let trt_path := os_path_join TRT_MODEL_DIR trt_filename in
  Ok (trt_filename, trt_path).

(** [ModelConfigEncoder.default]: a config is written as its [__dict__]. *)
Definition config_dict (o : ModelConfig) : json :=
  JDict [("profile", profile o); ("static_shapes", static_shapes o);
         ("fp32", fp32 o); ("baseline_model", baseline_model o);
         ("inpaint", inpaint o); ("refit", refit o); ("lora", lora o);
         ("vram", vram o); ("unet_hidden_dim", unet_hidden_dim o)].

Definition entry_json (e : entry) : json :=
  JDict ([("filepath", JStr (filepath e))]
         ++ match base_model e with
            | Some b => [("base_model", JStr b)]
            | None => []
            end
         ++ [("config", config_dict (config e))]).

(** The document [json.dump(self.all_models, f, cls=ModelConfigEncoder)]
    writes. The file is held as this document: the text layer of the
    [json] library is not part of the development. *)
Definition registry_json (r : registry) : json :=
  JDict (map (fun '(cc, base_models) =>
    (cc, JDict (map (fun '(base_model, models) =>
      (base_model, JList (map entry_json models))) base_models))) r).

Definition write_json (self : ModelManager) (fs : FS) : FS :=
  {| files := dict_set (files fs) (model_file self)
                (registry_json (all_models self));
     listdir_trt := listdir_trt fs |}.

Definition field_names : list string :=
  ["profile"; "static_shapes"; "fp32"; "baseline_model"; "inpaint";
   "refit"; "lora"; "vram"; "unet_hidden_dim"].

(** [ModelConfig] called with the keyword arguments [d]: every key must
    be a field, every field without a default must be given; the values
    are not checked. *)
Definition ModelConfig_kwargs (d : list (string * json)) : result ModelConfig :=
  if forallb (fun k => existsb (String.eqb k) field_names) (dict_keys d) then
    match dict_get d "profile", dict_get d "static_shapes", dict_get d "fp32",
          dict_get d "baseline_model", dict_get d "inpaint", dict_get d "refit",
          dict_get d "lora", dict_get d "vram" with
    | Some p, Some s, Some f, Some b, Some i, Some r, Some l, Some v =>
        Ok {| profile := p; static_shapes := s; fp32 := f; baseline_model := b;
              inpaint := i; refit := r; lora := l; vram := v;
              unet_hidden_dim := match dict_get d "unet_hidden_dim" with
                                 | Some u => u
                                 | None => JInt 4
                                 end |}
    | _, _, _, _, _, _, _, _ => Raise TypeError
    end
  else Raise TypeError.

(** One step of the innermost loop of [read_json]:
    the ["config"] value of [configs[i]] is replaced by the [ModelConfig]
    built from it as keyword arguments. The other keys of the entry are left as loaded; an entry that is not of
    the shape [entry] describes is outside the typed registry. *)
Definition read_entry (e : json) : result entry :=
  raw ← getitem_str e "config";
  c ← match raw with
      | JDict d => ModelConfig_kwargs d
      | _ => Raise TypeError
      end;
  match e with
  | JDict d =>
      if forallb (fun k => existsb (String.eqb k) ["filepath"; "base_model"; "config"])
                 (dict_keys d)
      then
        match dict_get d "filepath", dict_get d "base_model" with
        | Some (JStr f), None =>
            Ok {| filepath := f; base_model := None; config := c |}
        | Some (JStr f), Some (JStr b) =>
            Ok {| filepath := f; base_model := Some b; config := c |}
        | _, _ => Unmodelled
        end
      else Unmodelled
  | _ => Unmodelled
  end.

Fixpoint read_entries (configs : list json) : result (list entry) :=
  match configs with
  | [] => Ok []
  | e :: configs' =>
      e' ← read_entry e;
      rest ← read_entries configs';
      Ok (e' :: rest)
  end.

Fixpoint read_base_models (items : list (string * json))
  : result (list (string * list entry)) :=
  match items with
  | [] => Ok []
  | (base_model, configs) :: items' =>
      es ← match configs with
           | JList l => read_entries l
           | JNull | JBool _ | JInt _ => Raise TypeError
           | _ => Unmodelled
           end;
      rest ← read_base_models items';
      Ok ((base_model, es) :: rest)
  end.

Fixpoint read_ccs (items : list (string * json)) : result registry :=
  match items with
  | [] => Ok []
  | (cc, models) :: items' =>
      bs ← match models with
           | JDict d => read_base_models d
           | _ => Raise AttributeError
           end;
      rest ← read_ccs items';
      Ok ((cc, bs) :: rest)
  end.

(** [read_json(encode_config=True)] *)
Definition read_json (self : ModelManager) (fs : FS) : result registry :=
  match dict_get (files fs) (model_file self) with
  | None => Raise FileNotFoundError
  | Some out =>
      match out with
      | JDict d => read_ccs d
      | _ => Raise AttributeError
      end
  end.

(** The innermost loop of [update]: the entries whose file is on disk,
    collected in a dictionary keyed by file name. *)
Fixpoint update_filter (trt_engines : list string) (models : list entry)
    (tmp_config_list : list (string * entry)) : list (string * entry) :=
  match models with
  | [] => tmp_config_list
  | model_config :: models' =>
      if negb (existsb (String.eqb (filepath model_config)) trt_engines)
      then update_filter trt_engines models' tmp_config_list
      else update_filter trt_engines models'
             (dict_set tmp_config_list (filepath model_config) model_config)
  end.

(** The loop over [base_models.items()]. [tmp_all_models] is a shallow
    copy, so [base_models] is the very dictionary [self.all_models[cc]]
    that the body updates: [live] is that dictionary and [items] what is
    left of its iteration. Storing under an existing key leaves the
    iteration alone; after a [pop] the dictionary has changed size and
    the next step of the iteration raises [RuntimeError]. *)
Fixpoint update_base_models (trt_engines : list string)
    (items : list (string * list entry)) (live : list (string * list entry))
  : list (string * list entry) * result unit :=
  match items with
  | [] => (live, Ok ())
  | (base_model, models) :: items' =>
      let tmp_config_list := update_filter trt_engines models [] in
      let tmp_config_list := map snd tmp_config_list in
      if (length tmp_config_list =? 0)%nat
      then (dict_pop live base_model, Raise RuntimeError)
      else update_base_models trt_engines items' (dict_set live base_model models)
  end.

(** The loop over [tmp_all_models.items()]. *)
Fixpoint update_ccs (trt_engines : list string)
    (items : registry) (all : registry) : registry * result unit :=
  match items with
  | [] => (all, Ok ())
  | (cc, base_models) :: items' =>
      let '(live, r) := update_base_models trt_engines base_models base_models in
      let all := dict_set all cc live in
      match r with
      | Ok _ => update_ccs trt_engines items' all
      | _ => (all, r)
      end
  end.

Definition update (self : ModelManager) (fs : FS) : outcome :=
  let trt_engines := List.filter (fun trt_file => endswith trt_file ".trt") (listdir_trt fs) in
  let tmp_all_models := all_models self in
  let '(all, r) := update_ccs trt_engines tmp_all_models (all_models self) in
  let self := set_all_models self all in
  match r with
  | Ok _ => (self, write_json self fs, Ok ())
  | _ => (self, fs, r)
  end.

(** [ModelManager(model_file)], with the tag [cc] the device reports. *)
Definition init (model_file : string) (cc : string) (fs : FS) : outcome :=
  let self := {| all_models := []; model_file := model_file; cc := cc |} in
  match dict_get (files fs) model_file with
  | None => update self fs
  | Some _ =>
      match read_json self fs with
      | Ok r => update (set_all_models self r) fs
      | Raise e => (self, fs, Raise e)
      | Unmodelled => (self, fs, Unmodelled)
      end
  end.

Definition add_entry (TRT_MODEL_DIR : string) (self : ModelManager) (fs : FS)
    (model_name : string)
    (profile static_shapes fp32 baseline_model inpaint refit vram
       unet_hidden_dim lora : json) : outcome :=
  let config :=
    Build_ModelConfig profile static_shapes fp32 baseline_model inpaint refit
      lora vram unet_hidden_dim in
  match get_trt_path TRT_MODEL_DIR self model_name profile static_shapes with
  | Ok (trt_name, trt_path) =>
      let base_model_name := model_name in
      let all := all_models self in
      let all := match dict_get all (cc self) with
                 | None => dict_set all (cc self) []
                 | Some _ => all
                 end in
      let under_cc := default [] (dict_get all (cc self)) in
      let under_cc := match dict_get under_cc base_model_name with
                      | None => dict_set under_cc base_model_name []
                      | Some _ => under_cc
                      end in
      let models := default [] (dict_get under_cc base_model_name) in
      let models :=
        (models ++ [Build_entry trt_name None config])%list in
      let all := dict_set all (cc self) (dict_set under_cc base_model_name models) in
      let self := set_all_models self all in
      (self, write_json self fs, Ok ())
  | Raise e => (self, fs, Raise e)
  | Unmodelled => (self, fs, Unmodelled)
  end.

Definition add_lora_entry (self : ModelManager) (fs : FS)
    (base_model lora_name trt_lora_path : string)
    (fp32 baseline_model inpaint vram unet_hidden_dim : json) : outcome :=
  let config :=
    Build_ModelConfig (JList [JList []; JList []; JList []]) (JBool false) fp32
      baseline_model inpaint (JBool true) (JBool true) vram unet_hidden_dim in
  match dict_get (all_models self) (cc self) with
  | None => (self, fs, Raise KeyError)
  | Some under_cc =>
      let under_cc :=
        dict_set under_cc lora_name
          [Build_entry trt_lora_path (Some base_model) config] in
      let self := set_all_models self (dict_set (all_models self) (cc self) under_cc) in
      (self, write_json self fs, Ok ())
  end.

(** [self.all_models.get(self.cc, {})] *)
Definition available_models (self : ModelManager) : list (string * list entry) :=
  default [] (dict_get (all_models self) (cc self)).




(** [get_onnx_path], with the directory [ONNX_MODEL_DIR] of the module. *)
Definition get_onnx_path (ONNX_MODEL_DIR : string) (model_name : string)
  : string * string :=
  let onnx_filename := model_name ++ ".onnx" in
  let onnx_path := os_path_join ONNX_MODEL_DIR onnx_filename in
  (onnx_filename, onnx_path).

End model_manager.

(** ** utilities.py *)

Module utilities.

(** [trt.WeightsRole] *)
Inductive WeightsRole : Type := KERNEL | BIAS | SHIFT | SCALE | CONSTANT | ANY.

Definition change_trt_layer_name (layer_name : string) (role : WeightsRole) : string :=
  match role with
  | KERNEL => layer_name ++ "_TRTKERNEL"
  | BIAS => layer_name ++ "_TRTBIAS"
  | _ => layer_name
  end.

Section Refit.
(** numpy arrays, with the two things [add_to_map] asks of them:
    whether the array is a 0-dimensional [int64], and [np.int32]. *)
Context {ndarray : Type}.
Context (is_int64_scalar : ndarray -> bool) (np_int32 : ndarray -> ndarray).

(** A graph tensor: [gs.Constant] has values, [gs.Variable] has none. *)
Inductive tensor : Type :=
| gs_Constant (name : string) (values : ndarray)
| gs_Variable (name : string).

Definition tensor_name (t : tensor) : string :=
  match t with
  | gs_Constant n _ => n
  | gs_Variable n => n
  end.

Definition is_Constant (t : tensor) : bool :=
  match t with
  | gs_Constant _ _ => true
  | gs_Variable _ => false
  end.

(** [t.values] *)
Definition tensor_values (t : tensor) : result ndarray :=
  match t with
  | gs_Constant _ v => Ok v
  | gs_Variable _ => Raise AttributeError
  end.

Record node : Type := {
  op : string;
  name : string;
  inputs : list tensor;
  outputs : list tensor
}.

(** [l[i]] on a Python list. *)
Definition index {A : Type} (l : list A) (i : nat) : result A :=
  match l !! i with
  | Some x => Ok x
  | None => Raise IndexError
  end.

(** *** Alignment: the construction of [name_map] *)

(** The loop of the last branch, over [enumerate(node.inputs)]. *)
Fixpoint name_map_inputs (refit_node : node) (i : nat) (inps : list tensor)
    (name_map : gmap string string) : gmap string string * result unit :=
  match inps with
  | [] => (name_map, Ok ())
  | inp :: inps' =>
      if is_Constant inp then
        match index (inputs refit_node) i with
        | Ok r => name_map_inputs refit_node (S i) inps'
                    (<[tensor_name r := tensor_name inp]> name_map)
        | Raise e => (name_map, Raise e)
        | Unmodelled => (name_map, Unmodelled)
        end
      else name_map_inputs refit_node (S i) inps' name_map
  end.

(** The body of the loop for one aligned pair, after the assertion. *)
Definition name_map_node (nd refit_node : node) (name_map : gmap string string)
  : gmap string string * result unit :=
  if String.eqb (op nd) "Constant" then
    match index (outputs nd) 0, index (outputs refit_node) 0 with
    | Ok o, Ok r => (<[tensor_name r := tensor_name o]> name_map, Ok ())
    | Ok _, Raise e => (name_map, Raise e)
    | Raise e, _ => (name_map, Raise e)
    | _, _ => (name_map, Unmodelled)
    end
  else if String.eqb (op nd) "Conv" then
    match index (inputs nd) 1 with
    | Ok k =>
        let name_map :=
          if is_Constant k
          then <[name refit_node ++ "_TRTKERNEL" := name nd ++ "_TRTKERNEL"]> name_map
          else name_map in
        match index (inputs nd) 2 with
        | Ok b =>
            (if is_Constant b
             then <[name refit_node ++ "_TRTBIAS" := name nd ++ "_TRTBIAS"]> name_map
             else name_map, Ok ())
        | Raise e => (name_map, Raise e)
        | Unmodelled => (name_map, Unmodelled)
        end
    | Raise e => (name_map, Raise e)
    | Unmodelled => (name_map, Unmodelled)
    end
  else name_map_inputs refit_node 0 (inputs nd) name_map.

(** The loop over [enumerate(nodes)] of the original graph; the result
    holds [name_map] as it is when the loop ends or is left. *)
Fixpoint name_map_loop (refit_nodes : list node) (n : nat) (nodes : list node)
    (name_map : gmap string string) : gmap string string * result unit :=
  match nodes with
  | [] => (name_map, Ok ())
  | nd :: nodes' =>
      match index refit_nodes n with
      | Ok refit_node =>
          if negb (String.eqb (op nd) (op refit_node))
          then (name_map, Raise AssertionError)
          else
            match name_map_node nd refit_node name_map with
            | (name_map, Ok _) => name_map_loop refit_nodes (S n) nodes' name_map
            | stopped => stopped
            end
      | Raise e => (name_map, Raise e)
      | Unmodelled => (name_map, Unmodelled)
      end
  end.

Definition map_name (name_map : gmap string string) (name : string) : string :=
  match name_map !! name with
  | Some n => n
  | None => name
  end.

(** *** The weight-update set *)

(** The first loop over [zip(all_weights[0], all_weights[1])]. *)
Fixpoint refit_dict_init (all_weights : list (string * WeightsRole))
    (refit_dict : gmap string (option ndarray))
  : result (gmap string (option ndarray)) :=
  match all_weights with
  | [] => Ok refit_dict
  | (layer_name, role) :: rest =>
      let name := change_trt_layer_name layer_name role in
      match refit_dict !! name with
      | Some _ => Raise AssertionError
      | None => refit_dict_init rest (<[name := None]> refit_dict)
      end
  end.

Definition add_to_map (name : string) (values : ndarray)
    (refit_dict : gmap string (option ndarray))
  : result (gmap string (option ndarray)) :=
  match refit_dict !! name with
  | Some old =>
      match old with
      | Some _ => Raise AssertionError
      | None =>
          let values := if is_int64_scalar values then np_int32 values else values in
          Ok (<[name := Some values]> refit_dict)
      end
  | None => Ok refit_dict
  end.

(** The state of the walk: the dictionary and what [logging.error]
    was given so far. *)
Definition walk_state := (gmap string (option ndarray) * list string)%type.

Definition newline : string := String (ascii_of_nat 10) EmptyString.

(** [try: add_to_map(name, t.values)  except: logging.error(msg)] *)
Definition try_add (name : string) (t : tensor) (msg : string) (st : walk_state)
  : walk_state :=
  match (values ← tensor_values t; add_to_map name values (fst st)) with
  | Ok d => (d, snd st)
  | _ => (fst st, (snd st ++ [msg])%list)
  end.

(** The loop of the last branch, over [n.inputs]; nothing is caught. *)
Fixpoint walk_inputs (name_map : gmap string string) (inps : list tensor)
    (st : walk_state) : result walk_state :=
  match inps with
  | [] => Ok st
  | inp :: inps' =>
      let name := map_name name_map (tensor_name inp) in
      match inp with
      | gs_Constant _ values =>
          d ← add_to_map name values (fst st);
          walk_inputs name_map inps' (d, snd st)
      | gs_Variable _ => walk_inputs name_map inps' st
      end
  end.

Definition walk_node (name_map : gmap string string) (n : node) (st : walk_state)
  : result walk_state :=
  if String.eqb (op n) "Constant" then
    o ← index (outputs n) 0;
    let name := map_name name_map (tensor_name o) in
    Ok (try_add name o ("Failed to add Constant " ++ name ++ newline) st)
  else if String.eqb (op n) "Conv" then
    k ← index (inputs n) 1;
    let st :=
      if is_Constant k then
        let name := map_name name_map (name n ++ "_TRTKERNEL") in
        try_add name k ("Failed to add Conv " ++ name ++ newline) st
      else st in
    b ← index (inputs n) 2;
    let st :=
      if is_Constant b then
        let name := map_name name_map (name n ++ "_TRTBIAS") in
        try_add name b ("Failed to add Conv " ++ name ++ newline) st
      else st in
    Ok st
  else walk_inputs name_map (inputs n) st.

Fixpoint walk_nodes (name_map : gmap string string) (refit_nodes : list node)
    (st : walk_state) : result walk_state :=
  match refit_nodes with
  | [] => Ok st
  | n :: rest =>
      st' ← walk_node name_map n st;
      walk_nodes name_map rest st'
  end.

(** [Engine.refit] up to the point where [refit_dict] is complete:
    [nodes] and [refit_nodes] are the sorted node lists of the two
    graphs, [all_weights] the (layer, role) pairs of the engine. What
    follows in the source when no dump path is given, handing the
    dictionary to the engine's refitter, is [refit_apply] below; dumping
    it to disk is not part of the development. *)
Definition refit (all_weights : list (string * WeightsRole))
    (nodes refit_nodes : list node) : result walk_state :=
  match name_map_loop refit_nodes 0 nodes ∅ with
  | (name_map, Ok _) =>
      refit_dict ← refit_dict_init all_weights ∅;
      walk_nodes name_map refit_nodes (refit_dict, [])
  | (_, Raise e) => Raise e
  | (_, Unmodelled) => Unmodelled
  end.

End Refit.

Arguments gs_Variable {ndarray} name.

(** *** Applying a weight-update set *)

Section Apply.
Context {ndarray : Type}.

(** One call [refitter.set_weights(layer_name, weights_role, values)]. *)
Definition set_weights_call : Type := (string * WeightsRole * ndarray)%type.

(** How a refit method ends: it returns, it leaves the process by
    [exit(code)], or it raises. *)
Inductive refit_end : Type :=
| Returned
| Exited (code : Z)
| Raised (e : exn).

(** [refitter.refit_cuda_engine()]: the verdict of the engine on the
    weights it was given. *)
Context (refit_cuda_engine : list set_weights_call -> bool).

(** The loop over the (layer, role) pairs that ends [refit] and makes up
    [refit_from_dump] (the source has it twice): [calls] are the
    [set_weights] calls made so far; a missing key ends it with
    [KeyError]. *)
Fixpoint set_weights_loop (refit_dict : gmap string (option ndarray))
    (all_weights : list (string * WeightsRole)) (calls : list set_weights_call)
  : list set_weights_call * option exn :=
  match all_weights with
  | [] => (calls, None)
  | (layer_name, weights_role) :: rest =>
      let custom_name := change_trt_layer_name layer_name weights_role in
      if String.prefix "onnx::Trilu" layer_name
      then set_weights_loop refit_dict rest calls
      else
        match refit_dict !! custom_name with
        | None => (calls, Some KeyError)
        | Some (Some values) =>
            set_weights_loop refit_dict rest
              (calls ++ [(layer_name, weights_role, values)])%list
        | Some None => set_weights_loop refit_dict rest calls
        end
  end.

(** [if not refitter.refit_cuda_engine(): exit(0)] *)
Definition commit (calls : list set_weights_call) : refit_end :=
  if refit_cuda_engine calls then Returned else Exited 0.

(** The end of [refit] when no dump path is given. *)
Definition refit_apply (refit_dict : gmap string (option ndarray))
    (all_weights : list (string * WeightsRole)) : list set_weights_call * refit_end :=
  match set_weights_loop refit_dict all_weights [] with
  | (calls, None) => (calls, commit calls)
  | (calls, Some e) => (calls, Raised e)
  end.

(** [refit_from_dump]; [refit_dict] is what [st_load_file] returned. *)
Definition refit_from_dump (refit_dict : gmap string (option ndarray))
    (all_weights : list (string * WeightsRole)) : list set_weights_call * refit_end :=
  match set_weights_loop refit_dict all_weights [] with
  | (calls, None) => (calls, commit calls)
  | (calls, Some e) => (calls, Raised e)
  end.

(** The loop of [refit_from_dict]: a name the dictionary lacks is
    passed over. *)
Fixpoint set_weights_loop_dict (refit_dict : gmap string ndarray)
    (all_weights : list (string * WeightsRole)) (calls : list set_weights_call)
  : list set_weights_call :=
  match all_weights with
  | [] => calls
  | (layer_name, weights_role) :: rest =>
      let custom_name := change_trt_layer_name layer_name weights_role in
      if String.prefix "onnx::Trilu" layer_name
      then set_weights_loop_dict refit_dict rest calls
      else
        match refit_dict !! custom_name with
        | Some values =>
            set_weights_loop_dict refit_dict rest
              (calls ++ [(layer_name, weights_role, values)])%list
        | None => set_weights_loop_dict refit_dict rest calls
        end
  end.

Definition refit_from_dict (refit_dict : gmap string ndarray)
    (all_weights : list (string * WeightsRole)) : list set_weights_call * refit_end :=
  let calls := set_weights_loop_dict refit_dict all_weights [] in
  (calls, commit calls).

End Apply.

(** *** The dtype tables *)

(** The type objects that are keys of the table or are looked up in
    it: the scalar types of numpy, Python's own [bool], and any other
    object, known by its name. *)
Inductive np_dtype : Type :=
| np_uint8 | np_int8 | np_int16 | np_int32 | np_int64
| np_float16 | np_float32 | np_float64 | np_complex64 | np_complex128
| np_bool_ | builtins_bool | other_type (name : string).

Inductive torch_dtype : Type :=
| torch_uint8 | torch_int8 | torch_int16 | torch_int32 | torch_int64
| torch_float16 | torch_float32 | torch_float64 | torch_complex64
| torch_complex128 | torch_bool.

#[global] Instance np_dtype_eq_dec : EqDecision np_dtype.
Proof. solve_decision. Defined.

#[global] Instance torch_dtype_eq_dec : EqDecision torch_dtype.
Proof. solve_decision. Defined.

(** Dictionaries with other keys than strings. *)
Fixpoint item_get {K V : Type} `{EqDecision K} (d : list (K * V)) (k : K) : option V :=
  match d with
  | [] => None
  | (k', v) :: d' => if decide (k' = k) then Some v else item_get d' k
  end.

Fixpoint item_set {K V : Type} `{EqDecision K} (d : list (K * V)) (k : K) (v : V)
  : list (K * V) :=
  match d with
  | [] => [(k, v)]
  | (k', v') :: d' =>
      if decide (k' = k) then (k', v) :: d' else (k', v') :: item_set d' k v
  end.

(** [numpy_to_torch_dtype_dict], for the numpy version string
    [full_version]; strings compare as in Python, character by
    character. The name [np.bool] is read in the second branch only,
    that is with a numpy before 1.24, where it denotes Python's [bool]
    (from numpy 2.0 on it denotes [np.bool_]). *)
Definition numpy_to_torch_dtype_dict (full_version : string)
  : list (np_dtype * torch_dtype) :=
  let d :=
    [(np_uint8, torch_uint8); (np_int8, torch_int8); (np_int16, torch_int16);
     (np_int32, torch_int32); (np_int64, torch_int64);
     (np_float16, torch_float16); (np_float32, torch_float32);
     (np_float64, torch_float64); (np_complex64, torch_complex64);
     (np_complex128, torch_complex128)] in
  if String.leb "1.24.0" full_version
  then item_set d np_bool_ torch_bool
  else item_set d builtins_bool torch_bool.

(** The comprehension [{value: key for (key, value) in d.items()}] *)
Definition invert_dict {K V : Type} `{EqDecision V} (d : list (K * V)) : list (V * K) :=
  fold_left (fun acc kv => item_set acc kv.2 kv.1) d [].


Definition torch_to_numpy_dtype_dict (full_version : string)
  : list (torch_dtype * np_dtype) :=
  invert_dict (numpy_to_torch_dtype_dict full_version).

(** *** Buffers and inference *)

(** A tensor, known by its shape and its dtype; its contents are not
    part of the development. *)
Record buffer : Type := {
  buf_shape : list Z;
  buf_dtype : torch_dtype
}.

(** What the engine tells of a binding: its name, the numpy type of its
    dtype ([trt.nptype(engine.get_binding_dtype(binding))]) and whether
    it is an input. *)
Record binding_info : Type := {
  binding_name : string;
  binding_nptype : np_dtype;
  binding_is_input : bool
}.

Section Runtime.
(** The execution context is TensorRT's: its type, the two shape
    methods and the outcome of an execution are parameters. *)
Context {context : Type}.
Context (get_binding_shape : context -> nat -> list Z).
Context (set_binding_shape : context -> nat -> list Z -> context).
Context (execute_async_v3 : context -> list (string * buffer) -> bool).
(** The numpy version the module was loaded with. *)
Context (full_version : string).
(** [tensor.copy_(buf)] is torch's: whether it takes a tensor of shape
    [buf] into the buffer [tensor]; it raises [RuntimeError] when not. *)
Context (copy_ : buffer -> list Z -> bool).

(** The fields of an [Engine] that the two methods use. *)
Record Engine : Type := {
  engine_bindings : list binding_info;
  engine_context : context;
  tensors : list (string * buffer)
}.

(** [torch.empty(shape, dtype=...)] *)
Definition torch_empty (shape : list Z) (dtype : torch_dtype) : result buffer :=
  if existsb (fun x => x <? 0) shape then Raise RuntimeError
  else Ok {| buf_shape := shape; buf_dtype := dtype |}.

(** The body of the loop of [allocate_buffers] for binding [idx]. *)
Definition allocate_buffer (shape_dict : option (list (string * list Z)))
    (idx : nat) (b : binding_info) (self : Engine) : Engine * result unit :=
  let binding := binding_name b in
  let override :=
    match shape_dict with
    | Some (item :: items) => dict_get (item :: items) binding
    | _ => None
    end in
  let shape :=
    match override with
    | Some shape => shape
    | None => map Z.abs (get_binding_shape (engine_context self) idx)
    end in
  let dtype := binding_nptype b in
  let ctx :=
    if binding_is_input b
    then set_binding_shape (engine_context self) idx shape
    else engine_context self in
  let self :=
    {| engine_bindings := engine_bindings self; engine_context := ctx;
       tensors := tensors self |} in
  match item_get (numpy_to_torch_dtype_dict full_version) dtype with
  | None => (self, Raise KeyError)
  | Some t =>
      match torch_empty shape t with
      | Ok tensor =>
          ({| engine_bindings := engine_bindings self; engine_context := ctx;
              tensors := dict_set (tensors self) binding tensor |}, Ok ())
      | Raise e => (self, Raise e)
      | Unmodelled => (self, Unmodelled)
      end
  end.

Fixpoint allocate_buffers_loop (shape_dict : option (list (string * list Z)))
    (idx : nat) (bs : list binding_info) (self : Engine) : Engine * result unit :=
  match bs with
  | [] => (self, Ok ())
  | b :: bs' =>
      match allocate_buffer shape_dict idx b self with
      | (self, Ok _) => allocate_buffers_loop shape_dict (S idx) bs' self
      | stopped => stopped
      end
  end.

Definition allocate_buffers (self : Engine)
    (shape_dict : option (list (string * list Z))) : Engine * result unit :=
  allocate_buffers_loop shape_dict 0 (engine_bindings self) self.

(** [self.tensors[name].copy_(buf)] for each item of [feed_dict]; a
    buffer keeps its shape and dtype. *)
Fixpoint copy_inputs (tensors : list (string * buffer))
    (feed_dict : list (string * list Z)) : result unit :=
  match feed_dict with
  | [] => Ok ()
  | (name, buf) :: rest =>
      match dict_get tensors name with
      | None => Raise KeyError
      | Some tensor =>
          if copy_ tensor buf
          then copy_inputs tensors rest
          else Raise RuntimeError
      end
  end.

Definition infer (self : Engine) (feed_dict : list (string * list Z))
  : result (list (string * buffer)) :=
  _ ← copy_inputs (tensors self) feed_dict;
  let noerror := execute_async_v3 (engine_context self) (tensors self) in
  if negb noerror then Raise ValueError
  else Ok (tensors self).

End Runtime.

(** *** The optimization profiles of a build *)

(** [len(x)] *)
Definition len (x : json) : result nat :=
  match x with
  | JList l => Ok (length l)
  | JStr s => Ok (String.length s)
  | JDict d => Ok (length d)
  | _ => Raise TypeError
  end.

(** A [Profile]: for each input added, its min, opt and max; adding a
    name again replaces what it had. *)
Definition Profile : Type := list (string * (json * json * json)).

Fixpoint build_profile (items : list (string * json)) (_p : Profile) : result Profile :=
  match items with
  | [] => Ok _p
  | (name, dims) :: items' =>
      n ← len dims;
      if negb (n =? 3)%nat then Raise AssertionError
      else
        mn ← getitem_int dims 0;
        op ← getitem_int dims 1;
        mx ← getitem_int dims 2;
        build_profile items' (dict_set _p name (mn, op, mx))
  end.

Fixpoint build_profiles_loop (input_profile : list (list (string * json)))
    (p : list Profile) : result (list Profile) :=
  match input_profile with
  | [] => Ok p
  | i_p :: rest =>
      _p ← build_profile i_p [];
      build_profiles_loop rest (p ++ [_p])%list
  end.

(** The first step of [build]: the list of profiles handed on to the
    builder. The rest of the method drives TensorRT and is not part of
    the development. *)
Definition build_profiles (input_profile : option (list (list (string * json))))
  : result (list Profile) :=
  match input_profile with
  | None => Ok [[]]
  | Some l => build_profiles_loop l []
  end.

End utilities.

(** ** Vocabulary of the statements *)

Import model_manager.

(** *** Profiles as the matcher reads them *)

(** The three shapes the dictionary form reads for input [k], in the
    order min, opt, max, as the lists of integers the profile holds. *)
Definition shape_profile (self : ModelConfig) (k : string)
  : result (list Z * list Z * list Z) :=
  entry ← getitem_str (profile self) k;
  '(_min, _opt, _max) ← unpack3 entry;
  mx ← flat_ints _max;
  op ← flat_ints _opt;
  mn ← flat_ints _min;
  Ok (mn, op, mx).

(** A request is well ranked when every input it names has a profile of
    three shapes of the rank of the requested tensor. *)
Definition same_rank (self : ModelConfig) (kv : string * list Z) : Prop :=
  match shape_profile self kv.1 with
  | Ok (mn, op, mx) =>
      length mn = length kv.2 /\ length op = length kv.2 /\ length mx = length kv.2
  | _ => False
  end.

Definition well_ranked (self : ModelConfig) (feed_dict : feed) : Prop :=
  Forall (same_rank self) feed_dict.

(** Some requested dimension is above max or below min. *)
Definition dim_violation (mn mx v : list Z) : Prop :=
  exists (i : nat) (x m : Z),
    v !! i = Some x /\
    ((mx !! i = Some m /\ m < x) \/ (mn !! i = Some m /\ x < m)).

Definition out_of_range (self : ModelConfig) (feed_dict : feed) : Prop :=
  Exists (fun kv => match shape_profile self kv.1 with
                    | Ok (mn, _, mx) => dim_violation mn mx kv.2
                    | _ => False
                    end) feed_dict.

(** A sum over all dimensions of one input, and over all inputs. *)
Fixpoint sum_dims (term : Z -> Z -> Z -> Z -> Q) (mn op mx v : list Z) : Q :=
  match mn, op, mx, v with
  | a :: mn', o :: op', b :: mx', x :: v' =>
      (term a o b x + sum_dims term mn' op' mx' v')%Q
  | _, _, _, _ => 0%Q
  end.

Fixpoint sum_inputs (term : Z -> Z -> Z -> Z -> Q) (self : ModelConfig)
    (feed_dict : feed) : Q :=
  match feed_dict with
  | [] => 0%Q
  | (k, v) :: rest =>
      (match shape_profile self k with
       | Ok (mn, op, mx) => sum_dims term mn op mx v
       | _ => 0
       end + sum_inputs term self rest)%Q
  end.

(** The summand as the specification writes it:
    |opt - v| + 0.5 ((max - v) + 0.5 (v - min)). *)
Definition stated_term (mn op mx v : Z) : Q :=
  (inject_Z (Z.abs (op - v))
   + (1 # 2) * (inject_Z (mx - v) + (1 # 2) * inject_Z (v - mn)))%Q.

(** The summand of the code: the half weight is on [v - min], the
    quarter weight on [max - v]. *)
Definition code_term (mn op mx v : Z) : Q :=
  (inject_Z (Z.abs (op - v))
   + (1 # 2) * (inject_Z (v - mn) + (1 # 2) * inject_Z (mx - v)))%Q.

(** What the dictionary form computes for one well-ranked input when
    no operation rounds: whether it rejects, and the count of quarters it
    adds to the distance. *)
Definition input_rejected (mn mx v : list Z) : bool :=
  any_neg (zip_with_Z Z.sub mx v) || any_neg (zip_with_Z Z.sub v mn).

Definition input_quarters (mn op mx v : list Z) : Z :=
  4 * tsum (tabs (zip_with_Z Z.sub op v))
  + (2 * tsum (zip_with_Z Z.sub v mn) + tsum (zip_with_Z Z.sub mx v)).

(** *** The range in which float32 is exact *)

(** How far a requested shape is from the three shapes of its profile,
    all dimensions added up. *)
Definition spread_dims (mn op mx v : list Z) : Z :=
  tsum (tabs (zip_with_Z Z.sub op v))
  + tsum (tabs (zip_with_Z Z.sub v mn))
  + tsum (tabs (zip_with_Z Z.sub mx v)).

Fixpoint spread (self : ModelConfig) (feed_dict : feed) : Z :=
  match feed_dict with
  | [] => 0
  | (k, v) :: rest =>
      match shape_profile self k with
      | Ok (mn, op, mx) => spread_dims mn op mx v
      | _ => 0
      end + spread self rest
  end.

(** A request in whose matching no float32 operation rounds: every
    requested dimension is of magnitude at most 2^22, and the requested
    shapes are, all inputs together, at most 2^20 away from the shapes
    of the profile. *)
Definition in_float32_range (self : ModelConfig) (feed_dict : feed) : Prop :=
  Forall (fun kv => Forall (fun x => Z.abs x <= 2 ^ 22) kv.2) feed_dict /\
  spread self feed_dict <= 2 ^ 20.

(** The request equals the profile in every dimension of every input. *)
Definition pinned (self : ModelConfig) (feed_dict : feed) : Prop :=
  Forall (fun kv => exists mn op mx,
            shape_profile self kv.1 = Ok (mn, op, mx) /\
            kv.2 = op /\ kv.2 = mn /\ kv.2 = mx) feed_dict.

Inductive slot : Type := Min | Opt | Max.

(** Dimension [i] of the min, opt or max shape of a named input, as the
    scalar form reads it. *)
Definition dim_of (shape : json) (i : nat) : result Z :=
  j ← getitem_int shape i; as_int j.

Definition profile_dim (self : ModelConfig) (input : string) (s : slot) (i : nat)
  : result Z :=
  entry ← getitem_str (profile self) input;
  '(_min, _opt, _max) ← unpack3 entry;
  dim_of (match s with Min => _min | Opt => _opt | Max => _max end) i.

(** [x2] is strictly farther from [o] than [x1], on the same side. *)
Definition farther (o x1 x2 : Z) : Prop :=
  (o <= x1 /\ x1 < x2) \/ (x2 < x1 /\ x1 <= o).

(** *** The profile of end-to-end scenario 1 *)

Definition shape_json (l : list Z) : json := JList (map JInt l).

Definition scenario_sample : json :=
  JList [shape_json [1; 4; 64; 64]; shape_json [2; 4; 64; 64];
         shape_json [4; 4; 96; 96]].

Definition config_of_profile (p : json) : ModelConfig :=
  {| profile := p; static_shapes := JBool false; fp32 := JBool false;
     baseline_model := JStr "SD15"; inpaint := JBool false;
     refit := JBool true; lora := JBool false; vram := JInt 0;
     unet_hidden_dim := JInt 4 |}.

(** The profile exactly as the scenario gives it. *)
Definition scenario_config : ModelConfig :=
  config_of_profile (JDict [("sample", scenario_sample)]).

(** The same with a profile for the second canonical input. *)
Definition scenario_config_full : ModelConfig :=
  config_of_profile
    (JDict [("sample", scenario_sample);
            ("encoder_hidden_states",
             JList [shape_json [2; 77; 768]; shape_json [2; 77; 768];
                    shape_json [8; 154; 768]])]).

(** A request for the scenario's sample input at its opt shape. *)
Definition scenario_feed : feed := [("sample", [2; 4; 64; 64])].

(** The profile [add_lora_entry] stores. *)
Definition lora_profile : json := JList [JList []; JList []; JList []].

(** *** Keys, lookups and file references *)

Import utilities.

(** [p] is a mapping that has the key [k]. *)
Definition has_key (p : json) (k : string) : Prop :=
  exists d, p = JDict d /\ is_Some (dict_get d k).



(** [es] is the entry list under some (tag, base-model) key of [r]. *)
Definition stored (r : registry) (es : list entry) : Prop :=
  exists cc bms bm, In (cc, bms) r /\ In (bm, es) bms.

(** No entry list holds the same file reference twice. *)
Definition no_dup_paths (r : registry) : Prop :=
  forall es, stored r es -> List.NoDup (map filepath es).

(** The keys of a Python dictionary are distinct; a registry read as an
    association list has to say so. *)
Definition unique_keys (r : registry) : Prop :=
  List.NoDup (dict_keys r) /\
  forall c bms, In (c, bms) r -> List.NoDup (dict_keys bms).

(** The canonical names of the engine's (layer, role) pairs. *)
Definition canonical_names (all_weights : list (string * WeightsRole)) : list string :=
  map (fun p => change_trt_layer_name p.1 p.2) all_weights.

(** *** Sample registries *)

(** A request whose first input is above the scenario's max batch and
    whose second input the profile of [scenario_config] does not name. *)
Definition rejected_feed : feed :=
  [("sample", [8; 4; 64; 64]); ("encoder_hidden_states", [2; 77; 768])].

(** A request whose first input is accepted and whose second input is
    above the max embedding length; a third input follows. *)
Definition late_rejected_feed : feed :=
  [("sample", [2; 4; 64; 64]); ("encoder_hidden_states", [2; 200; 768]);
   ("timesteps", [2])].

Definition empty_fs : FS := {| files := []; listdir_trt := [] |}.

Definition empty_manager : ModelManager :=
  {| all_models := []; model_file := "model.json"; cc := "cc86" |}.

(** The current tag is registered, without any base model. *)
Definition manager_cc86 : ModelManager :=
  {| all_models := [("cc86", [])]; model_file := "model.json"; cc := "cc86" |}.

Definition scenario_entry (path : string) : entry :=
  {| filepath := path; base_model := None; config := scenario_config_full |}.

Definition scenario_manager : ModelManager :=
  {| all_models := [("cc86", [("sd15", [scenario_entry "sd15_cc86.trt"])])];
     model_file := "model.json"; cc := "cc86" |}.

(** [add_entry] for the model sd15 with the scenario's profile. *)
Definition add_scenario_entry (self : ModelManager) (fs : FS) : outcome :=
  add_entry "/Unet-trt" self fs "sd15" (profile scenario_config_full)
    (JBool false) (JBool false) (JStr "SD15") (JBool false) (JBool true)
    (JInt 0) (JInt 4) (JBool false).

(** An engine of the model sd15 that was built under another file
    name. *)
Definition older_manager : ModelManager :=
  {| all_models := [("cc86", [("sd15", [scenario_entry "sd15_old_cc86.trt"])])];
     model_file := "model.json"; cc := "cc86" |}.

(** Another object on the same registry file, for another device. *)
Definition reader_cc75 : ModelManager :=
  {| all_models := []; model_file := "model.json"; cc := "cc75" |}.

Definition stale_registry : registry :=
  [("cc86", [("sd15", [scenario_entry "sd15_cc86.trt";
                       scenario_entry "sd15_old_cc86.trt"])])].

(** A registry file naming two engines, of which one is on disk. *)
Definition stale_fs : FS :=
  {| files := [("model.json", registry_json stale_registry)];
     listdir_trt := ["model.json"; "sd15_cc86.trt"] |}.

Definition gone_registry : registry :=
  [("cc86", [("gone", [scenario_entry "gone_cc86.trt"]);
             ("sd15", [scenario_entry "sd15_cc86.trt";
                       scenario_entry "sd15_old_cc86.trt"])])].

(** A registry file with a base model none of whose engines is on disk. *)
Definition gone_fs : FS :=
  {| files := [("model.json", registry_json gone_registry)];
     listdir_trt := ["model.json"; "sd15_cc86.trt"] |}.

(** *** Sample graphs, with integers for arrays *)

Definition const_node (out : string) (v : Z) : @node Z :=
  {| op := "Constant"; name := out ++ "_node"; inputs := [];
     outputs := [gs_Constant out v] |}.

Definition relu_node : @node Z :=
  {| op := "Relu"; name := "relu"; inputs := [gs_Variable "x"];
     outputs := [gs_Variable "y"] |}.

Definition conv_node (v : Z) : @node Z :=
  {| op := "Conv"; name := "conv";
     inputs := [gs_Variable "x"; gs_Constant "kernel" v; gs_Variable "bias"];
     outputs := [gs_Variable "y"] |}.

(** A convolution whose bias is an initializer. *)
Definition conv_bias_node (v : Z) : @node Z :=
  {| op := "Conv"; name := "conv";
     inputs := [gs_Variable "x"; gs_Variable "kernel"; gs_Constant "bias" v];
     outputs := [gs_Variable "y"] |}.

(** A node that reads the initializer w twice. *)
Definition add_node : @node Z :=
  {| op := "Add"; name := "add";
     inputs := [gs_Constant "w" 1; gs_Constant "w" 2];
     outputs := [gs_Variable "y"] |}.

Definition two_constants : list (@node Z) := [const_node "a" 1; const_node "b" 1].

Definition constant_then_relu : list (@node Z) := [const_node "w" 1; relu_node].

(** The walk before and after a first write of w. *)
Definition unset_w : @walk_state Z := ({["w" := None]}, []).

Definition wrote_w : @walk_state Z := ({["w" := Some 1]}, []).

(** The walk after the kernel, and after the bias, of the layer conv
    was written. *)
Definition wrote_kernel : @walk_state Z := ({["conv_TRTKERNEL" := Some 1]}, []).

Definition wrote_bias : @walk_state Z := ({["conv_TRTBIAS" := Some 1]}, []).

(** *** Bounds of the scalar form *)

(** The dimensions of the profile that the scalar form compares: batch,
    height and width of the sample input (min, opt, max) and the length
    of the embedding (min, max). *)
Record scalar_bounds : Type := {
  min_batch : Z; opt_batch : Z; max_batch : Z;
  min_height : Z; opt_height : Z; max_height : Z;
  min_width : Z; opt_width : Z; max_width : Z;
  min_embedding : Z; max_embedding : Z
}.

(** The profile of [self] has these dimensions. *)
Definition reads_bounds (self : ModelConfig) (r : scalar_bounds) : Prop :=
  profile_dim self "sample" Min 0 = Ok (min_batch r) /\
  profile_dim self "sample" Opt 0 = Ok (opt_batch r) /\
  profile_dim self "sample" Max 0 = Ok (max_batch r) /\
  profile_dim self "sample" Min 2 = Ok (min_height r) /\
  profile_dim self "sample" Opt 2 = Ok (opt_height r) /\
  profile_dim self "sample" Max 2 = Ok (max_height r) /\
  profile_dim self "sample" Min 3 = Ok (min_width r) /\
  profile_dim self "sample" Opt 3 = Ok (opt_width r) /\
  profile_dim self "sample" Max 3 = Ok (max_width r) /\
  profile_dim self "encoder_hidden_states" Min 1 = Ok (min_embedding r) /\
  profile_dim self "encoder_hidden_states" Max 1 = Ok (max_embedding r).

(** The derived values of a scalar request lie within the bounds, the
    bounds included. *)
Definition within (r : scalar_bounds) (w h b e : Z) : bool :=
  (min_batch r <=? b * 2) && (b * 2 <=? max_batch r)
  && (min_height r <=? h / 8) && (h / 8 <=? max_height r)
  && (min_width r <=? w / 8) && (w / 8 <=? max_width r)
  && (min_embedding r <=? e) && (e <=? max_embedding r).

(** The distance of the scalar form, as a count of halves. *)
Definition scalar_halves (r : scalar_bounds) (w h b e : Z) : Z :=
  2 * (Z.abs (opt_batch r - b * 2) + Z.abs (opt_height r - h / 8)
       + Z.abs (opt_width r - w / 8))
  + (Z.abs (max_height r - h / 8) + Z.abs (max_width r - w / 8)).



(** *** Engines on disk *)

(** The names [update] takes for engine files. *)
Definition trt_engines (fs : FS) : list string :=
  List.filter (fun trt_file => endswith trt_file ".trt") (listdir_trt fs).

Definition on_disk (fs : FS) (e : entry) : bool :=
  existsb (String.eqb (filepath e)) (trt_engines fs).

(** Some entry of the list has its engine on disk. *)
Definition has_engine (fs : FS) (es : list entry) : bool :=
  existsb (on_disk fs) es.

(** A profile given by the shapes of each input. *)
Definition profile_json (items : list (string * list (list Z))) : json :=
  JDict (map (fun kv => (kv.1, JList (map shape_json kv.2))) items).

(** *** Weight-update sets *)

(** [d'] has the names of [d] and no other, and every value that [d]
    has set. *)
Definition keeps_weights {ndarray : Type} (d d' : gmap string (option ndarray)) : Prop :=
  forall k : string,
    match d !! k with
    | None => d' !! k = None
    | Some None => is_Some (d' !! k)
    | Some (Some x) => d' !! k = Some (Some x)
    end.

(** The walk went from [st] to [st']: the set kept its names and its
    values, the log what it held. *)
Definition walk_extends {ndarray : Type} (st st' : @walk_state ndarray) : Prop :=
  keeps_weights st.1 st'.1 /\ exists l : list string, st'.2 = (st.2 ++ l)%list.

(** Some pair that the apply loops do not pass over has no value in [d]. *)
Definition lacks_weight {ndarray : Type} (d : gmap string ndarray)
    (all_weights : list (string * WeightsRole)) : bool :=
  existsb (fun p => negb (String.prefix "onnx::Trilu" p.1)
                    && bool_decide (d !! change_trt_layer_name p.1 p.2 = None))
    all_weights.

(** *** Engines *)



(** An engine with an input and an output, and a context that reports a
    dimension of the input as -1. *)
Definition sample_engine : @Engine unit :=
  {| engine_bindings :=
       [{| binding_name := "sample"; binding_nptype := np_float32;
           binding_is_input := true |};
        {| binding_name := "latent"; binding_nptype := np_float16;
           binding_is_input := false |}];
     engine_context := tt;
     tensors := [] |}.

Definition sample_binding_shape (ctx : unit) (idx : nat) : list Z := [-1; 4; 64; 64].

(** An input profile whose dimensions are given as lists. *)
Definition input_profile_json (l : list (list (string * list json)))
  : list (list (string * json)) :=
  map (map (fun kv => (kv.1, JList kv.2))) l.

(** *** Registry files of other writers *)

(** An entry whose config is the dictionary [cfg]. *)
Definition raw_entry (path : string) (cfg : list (string * json)) : json :=
  JDict [("filepath", JStr path); ("config", JDict cfg)].

(** A registry file with one tag and one base model, whose list holds
    the entries [pre], then [e], then [post]. *)
Definition file_with_entry (model_file cc base : string) (listing : list string)
    (pre : list entry) (e : json) (post : list json) : FS :=
  {| files :=
       [(model_file,
         JDict [(cc, JDict [(base, JList (map entry_json pre ++ e :: post)%list)])])];
     listdir_trt := listing |}.

(** A config as written before the field unet_hidden_dim was there. *)
Definition legacy_config (o : ModelConfig) : list (string * json) :=
  [("profile", profile o); ("static_shapes", static_shapes o);
   ("fp32", fp32 o); ("baseline_model", baseline_model o);
   ("inpaint", inpaint o); ("refit", model_manager.refit o); ("lora", lora o);
   ("vram", vram o)].

(** The config that [ModelConfig] builds from [legacy_config o]. *)
Definition with_default_hidden_dim (o : ModelConfig) : ModelConfig :=
  Build_ModelConfig (profile o) (static_shapes o) (fp32 o) (baseline_model o)
    (inpaint o) (model_manager.refit o) (lora o) (vram o) (JInt 4).

(** * Properties *)

(** Reduce the sequencing of outcomes once the head outcome is known. *)
Ltac bind_step := cbn [mbind result_bind] in *.
Ltac bind_step_in H := cbn [mbind result_bind] in H.

(** ** Rounding *)

Lemma round_to_small (p n : Z) : Z.abs n < 2 ^ p -> round_to p n = n.
Proof.
  intros H. unfold round_to. rewrite (proj2 (Z.ltb_lt _ _) H). reflexivity.
Qed.

Lemma round_to_large (p n : Z) : 0 < p -> 2 ^ p <= n -> 2 ^ p <= round_to p n.
Proof.
  intros Hp Hn.
  assert (Hpow : 0 < 2 ^ p) by (apply Z.pow_pos_nonneg; lia).
  assert (Hn0 : 0 < n) by lia.
  unfold round_to. rewrite (Z.abs_eq n) by lia.
  rewrite (proj2 (Z.ltb_ge _ _) Hn).
  destruct (Z.log2_spec n Hn0) as [Hlo _].
  assert (HL : p <= Z.log2 n) by (apply Z.log2_le_pow2; [exact Hn0 | exact Hn]).
  set (k := Z.log2 n + 1 - p).
  assert (Hk : 0 < k) by (unfold k; lia).
  assert (Hk2 : 0 < 2 ^ k) by (apply Z.pow_pos_nonneg; lia).
  assert (Hsplit : 2 ^ Z.log2 n = 2 ^ k * 2 ^ (p - 1)).
  { rewrite <- Z.pow_add_r by lia. f_equal. unfold k. lia. }
  assert (Hm : 2 ^ (p - 1) <= n / 2 ^ k).
  { apply Z.div_le_lower_bound; [exact Hk2 | lia]. }
  assert (HpL : 2 ^ p <= 2 ^ Z.log2 n) by (apply Z.pow_le_mono_r; lia).
  rewrite (Z.sgn_pos n Hn0), Z.mul_1_l.
  assert (Hmk : 2 ^ k * 2 ^ (p - 1) <= (n / 2 ^ k) * 2 ^ k) by nia.
  destruct ((2 ^ (k - 1) <? n mod 2 ^ k)
            || ((n mod 2 ^ k =? 2 ^ (k - 1)) && Z.odd (n / 2 ^ k))); nia.
Qed.

Lemma round_to_cases (p n : Z) :
  0 < p -> 0 <= n ->
  (n < 2 ^ p /\ round_to p n = n) \/ (2 ^ p <= n /\ 2 ^ p <= round_to p n).
Proof.
  intros Hp Hn. destruct (Z.lt_ge_cases n (2 ^ p)) as [H | H].
  - left. split; [exact H | apply round_to_small; lia].
  - right. split; [exact H | apply round_to_large; assumption].
Qed.

Lemma round_to_nonneg (p n : Z) : 0 < p -> 0 <= n -> 0 <= round_to p n.
Proof.
  intros Hp Hn.
  assert (0 < 2 ^ p) by (apply Z.pow_pos_nonneg; lia).
  destruct (round_to_cases p n Hp Hn) as [[_ ->] | [_ H']]; lia.
Qed.

Lemma round_to_zero (p n : Z) : 0 < p -> 0 <= n -> round_to p n = 0 -> n = 0.
Proof.
  intros Hp Hn H.
  assert (0 < 2 ^ p) by (apply Z.pow_pos_nonneg; lia).
  destruct (round_to_cases p n Hp Hn) as [[_ E] | [_ H']]; lia.
Qed.

Lemma round_to_below (p n : Z) :
  0 < p -> 0 <= n -> round_to p n < 2 ^ p -> round_to p n = n /\ n < 2 ^ p.
Proof.
  intros Hp Hn H.
  destruct (round_to_cases p n Hp Hn) as [[H1 E] | [_ H']]; [auto | lia].
Qed.

(** ** Tensors *)

Lemma flat_ints_shape (v : list Z) : flat_ints (JList (map JInt v)) = Ok v.
Proof.
  unfold flat_ints.
  assert (H : int_list (map JInt v) = Some v).
  { induction v as [|x v IH]; simpl; [reflexivity | rewrite IH; reflexivity]. }
  rewrite H. reflexivity.
Qed.

Lemma Tensor_exact (x : json) (zs : list Z) :
  flat_ints x = Ok zs -> Forall (fun z => Z.abs z < 2 ^ 24) zs -> Tensor x = Ok zs.
Proof.
  intros Hx Hs. unfold Tensor. rewrite Hx. bind_step.
  assert (H53 : forallb (fun z => Z.abs z <? 2 ^ 53) zs = true).
  { apply forallb_forall. intros z Hz. rewrite List.Forall_forall in Hs.
    specialize (Hs z Hz). apply Z.ltb_lt.
    assert (2 ^ 24 < 2 ^ 53) by (apply Z.pow_lt_mono_r; lia). lia. }
  assert (Hid : map (round_to 24) zs = zs).
  { clear Hx H53. induction Hs as [|z zs Hz _ IH]; simpl; [reflexivity |].
    rewrite (round_to_small 24 z Hz), IH. reflexivity. }
  rewrite H53, Hid. reflexivity.
Qed.

Lemma zip_sub32_exact (a b : list Z) :
  Forall (fun z => Z.abs z < 2 ^ 24) (zip_with_Z Z.sub a b) ->
  zip_with_Z sub32 a b = zip_with_Z Z.sub a b.
Proof.
  revert b. induction a as [|x a IH]; intros [|y b] H; simpl in *; try reflexivity.
  inversion H; subst. unfold sub32 at 1. rewrite round_to_small by assumption.
  f_equal. apply IH. assumption.
Qed.

Lemma tsub_exact (a b : list Z) :
  length a = length b ->
  Forall (fun z => Z.abs z < 2 ^ 24) (zip_with_Z Z.sub a b) ->
  tsub a b = Ok (zip_with_Z Z.sub a b).
Proof.
  intros H Hs. unfold tsub. rewrite H, Nat.eqb_refl.
  rewrite (zip_sub32_exact a b Hs). reflexivity.
Qed.

Lemma tsum_tabs_nonneg (l : list Z) : 0 <= tsum (tabs l).
Proof.
  induction l; simpl; lia.
Qed.

Lemma tsum_tabs_bound (l : list Z) (S : Z) :
  tsum (tabs l) <= S -> Forall (fun z => Z.abs z <= S) l.
Proof.
  induction l as [|x l IH]; simpl; intros H; constructor.
  - pose proof (tsum_tabs_nonneg l). lia.
  - apply IH. lia.
Qed.

Lemma tabs_tabs (l : list Z) : tabs (tabs l) = tabs l.
Proof.
  induction l as [|x l IH]; simpl; [reflexivity |].
  rewrite Z.abs_idemp. f_equal. exact IH.
Qed.

Lemma any_neg_false (l : list Z) :
  any_neg l = false -> 0 <= tsum l /\ tabs l = l.
Proof.
  unfold any_neg. induction l as [|x l IH]; simpl; [auto with zarith |].
  rewrite orb_false_iff, Z.ltb_ge. intros [Hx Hl]. destruct (IH Hl) as [H0 E].
  split; [lia |]. rewrite E, Z.abs_eq by exact Hx. reflexivity.
Qed.

Lemma tensor_sum_exact (l : list Z) :
  tsum (tabs l) <= 2 ^ 24 -> tensor_sum l = Ok (tsum l).
Proof.
  intros H. unfold tensor_sum. rewrite (proj2 (Z.leb_le _ _) H). reflexivity.
Qed.

Lemma any_neg_sub (a b : list Z) :
  any_neg (zip_with_Z Z.sub a b) = true <->
  exists (i : nat) (x y : Z), a !! i = Some x /\ b !! i = Some y /\ x < y.
Proof.
  revert b. induction a as [|x a IH]; intros [|y b]; simpl.
  - split; [discriminate | intros (i & ? & ? & H & _); destruct i; discriminate].
  - split; [discriminate | intros (i & ? & ? & H & _); destruct i; discriminate].
  - split; [discriminate | intros (i & ? & ? & _ & H & _); destruct i; discriminate].
  - unfold any_neg in *. simpl. rewrite orb_true_iff, IH, Z.ltb_lt. split.
    + intros [H | (i & x' & y' & Ha & Hb & Hlt)].
      * exists 0%nat, x, y. repeat split; [lia].
      * exists (S i), x', y'. auto.
    + intros (i & x' & y' & Ha & Hb & Hlt). destruct i as [|i]; simpl in *.
      * left. inversion Ha; inversion Hb; subst. lia.
      * right. eauto 6.
Qed.

(** The entries of [a] when those of [b] and of [a - b] are bounded,
    and the other way round. *)
Lemma zip_sub_bound_l (a b : list Z) (A S : Z) :
  length a = length b ->
  Forall (fun y => Z.abs y <= A) b ->
  Forall (fun z => Z.abs z <= S) (zip_with_Z Z.sub a b) ->
  Forall (fun x => Z.abs x <= A + S) a.
Proof.
  revert b. induction a as [|x a IH]; intros [|y b] Hl Hb Hs; simpl in *;
    try discriminate; constructor.
  - inversion Hb; inversion Hs; subst. lia.
  - inversion Hb; inversion Hs; subst. apply (IH b); auto.
Qed.

Lemma zip_sub_bound_r (a b : list Z) (A S : Z) :
  length a = length b ->
  Forall (fun x => Z.abs x <= A) a ->
  Forall (fun z => Z.abs z <= S) (zip_with_Z Z.sub a b) ->
  Forall (fun y => Z.abs y <= A + S) b.
Proof.
  revert b. induction a as [|x a IH]; intros [|y b] Hl Ha Hs; simpl in *;
    try discriminate; constructor.
  - inversion Ha; inversion Hs; subst. lia.
  - inversion Ha; inversion Hs; subst. apply (IH b); auto.
Qed.

Lemma Forall_abs_lt (l : list Z) (A B : Z) :
  A < B -> Forall (fun x => Z.abs x <= A) l -> Forall (fun x => Z.abs x < B) l.
Proof.
  intros H Hl. induction Hl as [|x l Hx _ IH]; constructor; [lia | exact IH].
Qed.

(** ** The dictionary form, one input at a time *)

Lemma spread_dims_nonneg (mn op mx v : list Z) : 0 <= spread_dims mn op mx v.
Proof.
  unfold spread_dims.
  pose proof (tsum_tabs_nonneg (zip_with_Z Z.sub op v)).
  pose proof (tsum_tabs_nonneg (zip_with_Z Z.sub v mn)).
  pose proof (tsum_tabs_nonneg (zip_with_Z Z.sub mx v)). lia.
Qed.

Lemma spread_nonneg (self : ModelConfig) (feed_dict : feed) :
  0 <= spread self feed_dict.
Proof.
  induction feed_dict as [|[k v] rest IH]; simpl; [lia |].
  destruct (shape_profile self k) as [[[mn op] mx]| |]; try lia.
  pose proof (spread_dims_nonneg mn op mx v). lia.
Qed.

(** One step of the loop on an input in whose matching nothing rounds. *)
Lemma loop_cons (self : ModelConfig) (k : string) (v : list Z) (items : feed)
    (d : Z) (mn op mx : list Z) :
  shape_profile self k = Ok (mn, op, mx) ->
  length mn = length v -> length op = length v -> length mx = length v ->
  Forall (fun x => Z.abs x <= 2 ^ 22) v ->
  0 <= d -> d + 4 * spread_dims mn op mx v <= 2 ^ 22 ->
  is_compatible_from_dict_loop self ((k, v) :: items) d
  = if input_rejected mn mx v then Ok (false, quarters d)
    else is_compatible_from_dict_loop self items (d + input_quarters mn op mx v).
Proof.
  intros Hp Hmn Hop Hmx Hv Hd Hs. unfold shape_profile in Hp.
  cbn [is_compatible_from_dict_loop].
  destruct (getitem_str (profile self) k) as [entry| |]; try discriminate Hp.
  bind_step.
  destruct (unpack3 entry) as [[[a b] c]| |]; try discriminate Hp.
  bind_step.
  destruct (flat_ints c) as [tc| |] eqn:Ec; try discriminate Hp. bind_step.
  destruct (flat_ints b) as [tb| |] eqn:Eb; try discriminate Hp. bind_step.
  destruct (flat_ints a) as [ta| |] eqn:Ea; try discriminate Hp. bind_step.
  inversion Hp; subst ta tb tc. clear Hp.
  unfold spread_dims in Hs.
  pose proof (tsum_tabs_nonneg (zip_with_Z Z.sub op v)) as No.
  pose proof (tsum_tabs_nonneg (zip_with_Z Z.sub v mn)) as Nn.
  pose proof (tsum_tabs_nonneg (zip_with_Z Z.sub mx v)) as Nx.
  assert (P20 : 2 ^ 20 = 1048576) by reflexivity.
  assert (P22 : 2 ^ 22 = 4194304) by reflexivity.
  assert (P24 : 2 ^ 24 = 16777216) by reflexivity.
  assert (Bo : Forall (fun z => Z.abs z <= 2 ^ 20) (zip_with_Z Z.sub op v))
    by (apply tsum_tabs_bound; lia).
  assert (Bn : Forall (fun z => Z.abs z <= 2 ^ 20) (zip_with_Z Z.sub v mn))
    by (apply tsum_tabs_bound; lia).
  assert (Bx : Forall (fun z => Z.abs z <= 2 ^ 20) (zip_with_Z Z.sub mx v))
    by (apply tsum_tabs_bound; lia).
  assert (Lt : 2 ^ 22 + 2 ^ 20 < 2 ^ 24) by lia.
  assert (Lt' : 2 ^ 20 < 2 ^ 24) by lia.
  assert (Lt'' : 2 ^ 22 < 2 ^ 24) by lia.
  rewrite (Tensor_exact _ v (flat_ints_shape v) (Forall_abs_lt _ _ _ Lt'' Hv)).
  bind_step.
  rewrite (Tensor_exact c mx Ec)
    by (apply (Forall_abs_lt _ _ _ Lt), (zip_sub_bound_l mx v); auto).
  bind_step.
  rewrite (tsub_exact mx v Hmx (Forall_abs_lt _ _ _ Lt' Bx)). bind_step.
  rewrite (Tensor_exact b op Eb)
    by (apply (Forall_abs_lt _ _ _ Lt), (zip_sub_bound_l op v); auto).
  bind_step.
  rewrite (tsub_exact op v Hop (Forall_abs_lt _ _ _ Lt' Bo)). bind_step.
  rewrite (Tensor_exact a mn Ea)
    by (apply (Forall_abs_lt _ _ _ Lt), (zip_sub_bound_r v mn); auto).
  bind_step.
  rewrite (tsub_exact v mn (eq_sym Hmn) (Forall_abs_lt _ _ _ Lt' Bn)). bind_step.
  unfold input_rejected.
  destruct (any_neg (zip_with_Z Z.sub mx v)) eqn:E1; [reflexivity |].
  destruct (any_neg (zip_with_Z Z.sub v mn)) eqn:E2; [reflexivity |].
  cbn [orb].
  destruct (any_neg_false _ E1) as [Px Ax].
  destruct (any_neg_false _ E2) as [Pn An].
  rewrite Ax in Nx, Hs. rewrite An in Nn, Hs.
  rewrite (tensor_sum_exact (tabs (zip_with_Z Z.sub op v)))
    by (rewrite tabs_tabs; lia).
  bind_step.
  rewrite (tensor_sum_exact (zip_with_Z Z.sub v mn)) by (rewrite An; lia).
  bind_step.
  rewrite (tensor_sum_exact (zip_with_Z Z.sub mx v)) by (rewrite Ax; lia).
  bind_step.
  rewrite (round_to_small 24 (2 * _ + _)) by lia.
  rewrite (round_to_small 24 (4 * _ + _)) by lia.
  rewrite (round_to_small 24 (d + _)) by lia.
  reflexivity.
Qed.

Lemma input_rejected_spec (mn mx v : list Z) :
  input_rejected mn mx v = true <-> dim_violation mn mx v.
Proof.
  unfold input_rejected, dim_violation.
  rewrite orb_true_iff, !any_neg_sub. split.
  - intros [(i & m & x & Hm & Hx & Hlt) | (i & x & m & Hx & Hm & Hlt)];
      exists i, x, m; auto.
  - intros (i & x & m & Hx & [[Hm Hlt] | [Hm Hlt]]); [left | right]; eauto 7.
Qed.

Lemma quarters_plus (a b : Z) : (quarters (a + b) == quarters a + quarters b)%Q.
Proof.
  unfold quarters, Qeq, Qplus. simpl. lia.
Qed.

Lemma input_quarters_sum (mn op mx v : list Z) :
  length mn = length v -> length op = length v -> length mx = length v ->
  (quarters (input_quarters mn op mx v) == sum_dims code_term mn op mx v)%Q.
Proof.
  unfold input_quarters. revert mn op mx.
  induction v as [|x v IH]; intros [|a mn] [|o op] [|b mx]; simpl;
    intros H1 H2 H3; try discriminate; [reflexivity |].
  injection H1 as H1. injection H2 as H2. injection H3 as H3.
  rewrite <- (IH mn op mx H1 H2 H3). unfold code_term.
  set (so := tsum (tabs (zip_with_Z Z.sub op v))).
  set (sn := tsum (zip_with_Z Z.sub v mn)).
  set (sx := tsum (zip_with_Z Z.sub mx v)).
  replace (4 * (Z.abs (o - x) + so) + (2 * (x - a + sn) + (b - x + sx)))
    with ((4 * Z.abs (o - x) + (2 * (x - a) + (b - x))) + (4 * so + (2 * sn + sx)))
    by lia.
  rewrite quarters_plus.
  assert (E : (quarters (4 * Z.abs (o - x) + (2 * (x - a) + (b - x)))
               == inject_Z (Z.abs (o - x))
                  + (1 # 2) * (inject_Z (x - a) + (1 # 2) * inject_Z (b - x)))%Q).
  { unfold quarters, Qeq, Qplus, Qmult, inject_Z. simpl. lia. }
  rewrite E. reflexivity.
Qed.

Lemma input_quarters_bounds (mn op mx v : list Z) :
  input_rejected mn mx v = false ->
  0 <= input_quarters mn op mx v <= 4 * spread_dims mn op mx v.
Proof.
  unfold input_rejected, input_quarters, spread_dims.
  rewrite orb_false_iff. intros [E1 E2].
  destruct (any_neg_false _ E1) as [Px Ax].
  destruct (any_neg_false _ E2) as [Pn An].
  rewrite Ax, An.
  pose proof (tsum_tabs_nonneg (zip_with_Z Z.sub op v)). lia.
Qed.

(** On a well-ranked request within the range the dictionary form
    returns. *)
Lemma from_dict_loop_total (self : ModelConfig) (feed_dict : feed) (d0 : Z) :
  well_ranked self feed_dict ->
  Forall (fun kv => Forall (fun x => Z.abs x <= 2 ^ 22) kv.2) feed_dict ->
  0 <= d0 -> d0 + 4 * spread self feed_dict <= 2 ^ 22 ->
  (out_of_range self feed_dict /\
   exists d, is_compatible_from_dict_loop self feed_dict d0 = Ok (false, d))
  \/
  (~ out_of_range self feed_dict /\
   exists d, is_compatible_from_dict_loop self feed_dict d0 = Ok (true, d) /\
             (d == quarters d0 + sum_inputs code_term self feed_dict)%Q).
Proof.
  intros Hwf. revert d0.
  induction Hwf as [|[k v] items Hkv _ IH]; intros d0 Hsm H0 Hs.
  - right. split.
    + intros H. inversion H.
    + exists (quarters d0). split; [reflexivity | simpl; ring].
  - unfold same_rank in Hkv. simpl in Hkv. simpl in Hs.
    destruct (shape_profile self k) as [[[mn op] mx]| |] eqn:Hp; try contradiction.
    destruct Hkv as (H1 & H2 & H3).
    inversion Hsm as [|? ? Hv Hsm']; subst. simpl in Hv.
    pose proof (spread_dims_nonneg mn op mx v) as Nd.
    pose proof (spread_nonneg self items) as Ni.
    rewrite (loop_cons self k v items d0 mn op mx Hp H1 H2 H3 Hv H0) by lia.
    destruct (input_rejected mn mx v) eqn:Hr.
    + left. split.
      * apply Exists_cons_hd. simpl. rewrite Hp. apply input_rejected_spec, Hr.
      * eauto.
    + assert (Hnv : ~ dim_violation mn mx v).
      { rewrite <- input_rejected_spec, Hr. discriminate. }
      pose proof (input_quarters_bounds mn op mx v Hr) as Bq.
      destruct (IH (d0 + input_quarters mn op mx v) Hsm' ltac:(lia) ltac:(lia))
        as [[Hout [d Hd]] | [Hin (d & Hd & Heq)]].
      * left. split; [apply Exists_cons_tl, Hout | eauto].
      * right. split.
        -- intros H. inversion H as [? ? Hh | ? ? Ht]; subst.
           ++ simpl in Hh. rewrite Hp in Hh. contradiction.
           ++ contradiction.
        -- exists d. split; [exact Hd |].
           rewrite Heq. simpl. rewrite Hp.
           rewrite quarters_plus, (input_quarters_sum mn op mx v H1 H2 H3). ring.
Qed.

Lemma from_dict_total (self : ModelConfig) (feed_dict : feed) :
  well_ranked self feed_dict -> in_float32_range self feed_dict ->
  (out_of_range self feed_dict /\
   exists d, is_compatible_from_dict self feed_dict = Ok (false, d))
  \/
  (~ out_of_range self feed_dict /\
   exists d, is_compatible_from_dict self feed_dict = Ok (true, d) /\
             (d == sum_inputs code_term self feed_dict)%Q).
Proof.
  intros Hwf [Hsm Hs]. unfold is_compatible_from_dict.
  assert (P20 : 2 ^ 20 = 1048576) by reflexivity.
  assert (P22 : 2 ^ 22 = 4194304) by reflexivity.
  destruct (from_dict_loop_total self feed_dict 0 Hwf Hsm ltac:(lia) ltac:(lia))
    as [H | [Hin (d & Hd & Heq)]]; [left; exact H | right].
  split; [exact Hin |]. exists d. split; [exact Hd |].
  rewrite Heq. unfold quarters. ring_simplify. reflexivity.
Qed.

(** C1 (as amended): on a well-ranked request within the range in which
    float32 is exact, [is_compatible_from_dict] rejects exactly when
    some requested dimension is above max or below min, and otherwise
    accepts with the distance that sums, over all inputs and dimensions,
    |opt - v| + 0.5 ((v - min) + 0.5 (max - v)). *)
Theorem is_compatible_from_dict_distance (self : ModelConfig) (feed_dict : feed) :
  well_ranked self feed_dict ->
  in_float32_range self feed_dict ->
  ((exists d, is_compatible_from_dict self feed_dict = Ok (false, d))
   <-> out_of_range self feed_dict)
  /\ (~ out_of_range self feed_dict ->
      exists d, is_compatible_from_dict self feed_dict = Ok (true, d) /\
                (d == sum_inputs code_term self feed_dict)%Q).
Proof.
  intros Hwf Hr.
  destruct (from_dict_total self feed_dict Hwf Hr)
    as [[Hout [d Hd]] | [Hin (d & Hd & Heq)]].
  - split; [split; eauto | contradiction].
  - split.
    + split; [intros [d' Hd'] | contradiction]. congruence.
    + intros _. exists d. split; [exact Hd | exact Heq].
Qed.

Lemma scenario_feed_well_ranked : well_ranked scenario_config_full scenario_feed.
Proof.
  repeat constructor.
Qed.

Lemma scenario_feed_in_range : in_float32_range scenario_config_full scenario_feed.
Proof.
  split.
  - repeat constructor; vm_compute; discriminate.
  - vm_compute. discriminate.
Qed.

(** The theorem at the scenario's profile and opt shape. *)
Lemma is_compatible_from_dict_distance_witness :
  well_ranked scenario_config_full scenario_feed /\
  in_float32_range scenario_config_full scenario_feed /\
  ((exists d, is_compatible_from_dict scenario_config_full scenario_feed = Ok (false, d))
   <-> out_of_range scenario_config_full scenario_feed)
  /\ (~ out_of_range scenario_config_full scenario_feed ->
      exists d, is_compatible_from_dict scenario_config_full scenario_feed = Ok (true, d) /\
                (d == sum_inputs code_term scenario_config_full scenario_feed)%Q).
Proof.
  split; [| split].
  - repeat constructor.
  - split; [repeat constructor; vm_compute; discriminate | vm_compute; discriminate].
  - apply (is_compatible_from_dict_distance scenario_config_full scenario_feed).
    + repeat constructor.
    + split; [repeat constructor; vm_compute; discriminate | vm_compute; discriminate].
Defined.

(** C1, counterexample: the request of the scenario's opt shape is well
    ranked and in range, and is accepted with distance 17, while the sum
    the claim states, with the half weight on [max - v], is 133/4. *)
Lemma stated_distance_counterexample :
  well_ranked scenario_config_full scenario_feed /\
  ~ out_of_range scenario_config_full scenario_feed /\
  exists d, is_compatible_from_dict scenario_config_full scenario_feed = Ok (true, d) /\
            (d == 17)%Q /\
            (sum_inputs stated_term scenario_config_full scenario_feed == 133 # 4)%Q /\
            ~ (d == sum_inputs stated_term scenario_config_full scenario_feed)%Q.
Proof.
  split; [exact scenario_feed_well_ranked |].
  split.
  - destruct (from_dict_total _ _ scenario_feed_well_ranked scenario_feed_in_range)
      as [[_ [d Hd]] | [Hin _]]; [| exact Hin].
    vm_compute in Hd. discriminate Hd.
  - eexists. split; [vm_compute; reflexivity |].
    split; [reflexivity |]. split; [reflexivity |].
    intros H. vm_compute in H. discriminate H.
Qed.

(** Outside the range the comparison is made on rounded numbers: with
    max 16777216 the dimension 16777217 becomes 16777216 as a float32,
    and the request is accepted, with distance 25165824. *)
Lemma rounded_request_accepted :
  let self := config_of_profile
                (JDict [("x", JList [shape_json [0]; shape_json [0];
                                     shape_json [16777216]])]) in
  well_ranked self [("x", [16777217])] /\
  out_of_range self [("x", [16777217])] /\
  is_compatible_from_dict self [("x", [16777217])] = Ok (true, quarters (4 * 25165824)).
Proof.
  cbv zeta. split; [repeat constructor |]. split.
  - apply Exists_cons_hd. exists 0%nat, 16777217, 16777216. simpl.
    split; [reflexivity | left; split; [reflexivity | lia]].
  - vm_compute. reflexivity.
Qed.

(** ** The scalar form *)

Lemma por_false (a b : result bool) :
  por a b = Ok false <-> a = Ok false /\ b = Ok false.
Proof.
  unfold por. destruct a as [[|]| |]; cbn; split; intros H;
    try discriminate H; try tauto; destruct H as [H1 H2]; congruence.
Qed.

Lemma gt_int_false (shape : json) (i : nat) (n : Z) :
  gt_int (getitem_int shape i) n = Ok false <->
  exists z, dim_of shape i = Ok z /\ z <= n.
Proof.
  unfold gt_int, dim_of. destruct (getitem_int shape i) as [j| |]; cbn.
  2,3: split; [discriminate | intros (? & H & _); discriminate H].
  destruct (as_int j) as [z| |]; cbn.
  2,3: split; [discriminate | intros (? & H & _); discriminate H].
  split.
  - intros H. exists z. split; [reflexivity |]. apply Z.ltb_ge. congruence.
  - intros (z' & H & Hle). inversion H; subst. f_equal. apply Z.ltb_ge, Hle.
Qed.

Lemma lt_int_false (shape : json) (i : nat) (n : Z) :
  lt_int (getitem_int shape i) n = Ok false <->
  exists z, dim_of shape i = Ok z /\ n <= z.
Proof.
  unfold lt_int, dim_of. destruct (getitem_int shape i) as [j| |]; cbn.
  2,3: split; [discriminate | intros (? & H & _); discriminate H].
  destruct (as_int j) as [z| |]; cbn.
  2,3: split; [discriminate | intros (? & H & _); discriminate H].
  split.
  - intros H. exists z. split; [reflexivity |]. apply Z.ltb_ge. congruence.
  - intros (z' & H & Hle). inversion H; subst. f_equal. apply Z.ltb_ge, Hle.
Qed.

Lemma abs_diff_ok (shape : json) (i : nat) (n r : Z) :
  abs_diff (getitem_int shape i) n = Ok r <->
  exists z, dim_of shape i = Ok z /\ r = Z.abs (z - n).
Proof.
  unfold abs_diff, dim_of. destruct (getitem_int shape i) as [j| |]; cbn.
  2,3: split; [discriminate | intros (? & H & _); discriminate H].
  destruct (as_int j) as [z| |]; cbn.
  2,3: split; [discriminate | intros (? & H & _); discriminate H].
  split.
  - intros H. exists z. split; [reflexivity | congruence].
  - intros (z' & H & ->). congruence.
Qed.

Lemma float_max_large : 2 ^ 54 <= float_max.
Proof.
  vm_compute. discriminate.
Qed.

Lemma float_of_int_exact (n : Z) : Z.abs n < 2 ^ 53 -> float_of_int n = Ok n.
Proof.
  intros H. unfold float_of_int. rewrite (round_to_small 53 n H).
  pose proof float_max_large.
  assert (2 ^ 53 < 2 ^ 54) by (apply Z.pow_lt_mono_r; lia).
  rewrite (proj2 (Z.leb_gt _ _)) by lia. reflexivity.
Qed.

Lemma float_of_int_ok (n r : Z) : float_of_int n = Ok r -> r = round_to 53 n.
Proof.
  unfold float_of_int. destruct (float_max <=? _); [discriminate |].
  intros H. inversion H. reflexivity.
Qed.

(** What an acceptance by the scalar form says about the profile. *)
Lemma is_compatible_accepted (self : ModelConfig) (w h b e : Z) (d : Q) :
  is_compatible self w h b e = Ok (true, d) ->
  exists o0 o2 o3 m2 m3 : Z,
    profile_dim self "sample" Opt 0 = Ok o0 /\
    profile_dim self "sample" Opt 2 = Ok o2 /\
    profile_dim self "sample" Opt 3 = Ok o3 /\
    profile_dim self "sample" Max 2 = Ok m2 /\
    profile_dim self "sample" Max 3 = Ok m3 /\
    h / 8 <= m2 /\ w / 8 <= m3 /\
    d = halves
          (round_to 53
             (2 * round_to 53 (Z.abs (o0 - b * 2) + Z.abs (o2 - h / 8)
                               + Z.abs (o3 - w / 8))
              + round_to 53 (Z.abs (m2 - h / 8) + Z.abs (m3 - w / 8)))).
Proof.
  unfold is_compatible, profile_dim. intros H.
  destruct (getitem_str (profile self) "sample") as [sample| |];
    try discriminate H. bind_step.
  destruct (getitem_str (profile self) "encoder_hidden_states") as [emb| |];
    try discriminate H. bind_step.
  destruct (unpack3 sample) as [[[_min _opt] _max]| |];
    try discriminate H. bind_step.
  destruct (unpack3 emb) as [[[_min_em _opt_em] _max_em]| |];
    try discriminate H. bind_step.
  match type of H with
  | context [mbind _ ?c] => destruct c as [[|]| |] eqn:Hrej
  end; try discriminate H. bind_step.
  repeat (apply por_false in Hrej; destruct Hrej as [Hrej ?]).
  repeat match goal with
         | H : lt_int _ _ = Ok false |- _ =>
             apply lt_int_false in H; destruct H as (? & ? & ?)
         end.
  repeat match type of H with
         | context [abs_diff ?x ?n] =>
             let E := fresh "E" in
             destruct (abs_diff x n) eqn:E; try discriminate H;
             cbn [mbind result_bind] in H;
             apply abs_diff_ok in E; destruct E as (? & ? & ->)
         end.
  repeat match type of H with
         | context [float_of_int ?n] =>
             let E := fresh "E" in
             destruct (float_of_int n) eqn:E; try discriminate H;
             cbn [mbind result_bind] in H;
             apply float_of_int_ok in E; subst
         end.
  destruct (2 * float_max <=? _); [discriminate H |].
  inversion H; subst d.
  repeat match goal with
         | H1 : ?t = Ok ?x, H2 : ?t = Ok ?y |- _ =>
             assert (x = y) by congruence; subst y; clear H2
         end.
  do 5 eexists. do 5 (split; [eassumption |]).
  do 2 (split; [assumption |]). reflexivity.
Qed.

(** The last addition of the scalar form, where nothing rounded. *)
Lemma scalar_sum_exact (i m : Z) :
  0 <= i -> 0 <= m ->
  round_to 53 (2 * round_to 53 i + round_to 53 m) < 2 ^ 53 ->
  round_to 53 (2 * round_to 53 i + round_to 53 m) = 2 * i + m.
Proof.
  intros Hi Hm H.
  pose proof (round_to_nonneg 53 i ltac:(lia) Hi) as Ni.
  pose proof (round_to_nonneg 53 m ltac:(lia) Hm) as Nm.
  assert (P : 0 < 53) by lia.
  assert (N : 0 <= 2 * round_to 53 i + round_to 53 m) by lia.
  destruct (round_to_below 53 _ P N H) as [E Hlt].
  rewrite E.
  assert (Hi' : round_to 53 i < 2 ^ 53) by lia.
  assert (Hm' : round_to 53 m < 2 ^ 53) by lia.
  destruct (round_to_below 53 i P Hi Hi') as [-> _].
  destruct (round_to_below 53 m P Hm Hm') as [-> _].
  reflexivity.
Qed.

Lemma scalar_sum_zero (i m : Z) :
  0 <= i -> 0 <= m ->
  (round_to 53 (2 * round_to 53 i + round_to 53 m) = 0 <-> i = 0 /\ m = 0).
Proof.
  intros Hi Hm.
  pose proof (round_to_nonneg 53 i ltac:(lia) Hi) as Ni.
  pose proof (round_to_nonneg 53 m ltac:(lia) Hm) as Nm.
  split.
  - intros H. apply round_to_zero in H; [| lia | lia].
    assert (Ei : round_to 53 i = 0) by lia.
    assert (Em : round_to 53 m = 0) by lia.
    apply round_to_zero in Ei; [| lia | exact Hi].
    apply round_to_zero in Em; [| lia | exact Hm]. auto.
  - intros [-> ->]. reflexivity.
Qed.

Lemma halves_zero (n : Z) : (halves n == 0)%Q <-> n = 0.
Proof.
  unfold halves, Qeq. simpl. lia.
Qed.

Lemma halves_lt (n N : Z) : (halves n < inject_Z N)%Q <-> n < 2 * N.
Proof.
  unfold halves, Qlt. simpl. lia.
Qed.

Lemma halves_le (n n' : Z) : (halves n <= halves n')%Q <-> n <= n'.
Proof.
  unfold halves, Qle. simpl. lia.
Qed.

Lemma inject_Z_nonneg (z : Z) : 0 <= z -> (0 <= inject_Z z)%Q.
Proof.
  intros H. change 0%Q with (inject_Z 0). rewrite <- Zle_Qle. exact H.
Qed.

Lemma three_parts_zero (a b c : Z) :
  0 <= a -> 0 <= b -> 0 <= c ->
  ((inject_Z a + (1 # 2) * (inject_Z b + (1 # 2) * inject_Z c) == 0)%Q
   <-> a = 0 /\ b = 0 /\ c = 0).
Proof.
  intros Ha Hb Hc.
  pose proof (inject_Z_nonneg a Ha) as Qa.
  pose proof (inject_Z_nonneg b Hb) as Qb.
  pose proof (inject_Z_nonneg c Hc) as Qc.
  split.
  - intros H.
    assert (Ea : (inject_Z a == inject_Z 0)%Q) by (change (inject_Z 0) with 0%Q; lra).
    assert (Eb : (inject_Z b == inject_Z 0)%Q) by (change (inject_Z 0) with 0%Q; lra).
    assert (Ec : (inject_Z c == inject_Z 0)%Q) by (change (inject_Z 0) with 0%Q; lra).
    rewrite inject_Z_injective in Ea, Eb, Ec. auto.
  - intros (-> & -> & ->). reflexivity.
Qed.

(** ** When the distance is zero *)

Lemma dim_violation_cons (a b x : Z) (mn mx v : list Z) :
  dim_violation (a :: mn) (b :: mx) (x :: v)
  <-> (b < x \/ x < a) \/ dim_violation mn mx v.
Proof.
  unfold dim_violation. split.
  - intros (i & y & m & Hv & H). destruct i as [|i]; simpl in *.
    + left. destruct H as [[Hm Hlt] | [Hm Hlt]];
        inversion Hv; inversion Hm; subst; lia.
    + right. eauto 8.
  - intros [[H | H] | (i & y & m & Hv & H)].
    + exists 0%nat, x, b. simpl. auto.
    + exists 0%nat, x, a. simpl. auto.
    + exists (S i), y, m. simpl. auto.
Qed.

Lemma code_term_zero (a o b x : Z) :
  a <= x <= b ->
  (0 <= code_term a o b x)%Q /\
  ((code_term a o b x == 0)%Q <-> x = o /\ x = a /\ x = b).
Proof.
  intros Hr. unfold code_term.
  assert (H1 : 0 <= Z.abs (o - x)) by lia.
  assert (H2 : 0 <= x - a) by lia.
  assert (H3 : 0 <= b - x) by lia.
  split.
  - pose proof (inject_Z_nonneg _ H1). pose proof (inject_Z_nonneg _ H2).
    pose proof (inject_Z_nonneg _ H3). lra.
  - rewrite (three_parts_zero _ _ _ H1 H2 H3). lia.
Qed.

Lemma sum_dims_code_zero (mn op mx v : list Z) :
  length mn = length v -> length op = length v -> length mx = length v ->
  ~ dim_violation mn mx v ->
  (0 <= sum_dims code_term mn op mx v)%Q /\
  ((sum_dims code_term mn op mx v == 0)%Q <-> v = op /\ v = mn /\ v = mx).
Proof.
  revert mn op mx.
  induction v as [|x v IH]; intros [|a mn] [|o op] [|b mx]; simpl;
    intros H1 H2 H3 Hnv; try discriminate.
  - split; [lra | split; [auto | reflexivity]].
  - injection H1 as H1. injection H2 as H2. injection H3 as H3.
    rewrite dim_violation_cons in Hnv.
    assert (Hr : a <= x <= b) by lia.
    destruct (code_term_zero a o b x Hr) as [Hh0 Hhz].
    destruct (IH mn op mx H1 H2 H3 ltac:(tauto)) as [Ht0 Htz].
    split; [lra |]. split.
    + intros Hz.
      assert (Zh : (code_term a o b x == 0)%Q) by lra.
      assert (Zt : (sum_dims code_term mn op mx v == 0)%Q) by lra.
      apply Hhz in Zh. apply Htz in Zt.
      destruct Zh as (-> & <- & <-). destruct Zt as (<- & <- & <-). auto.
    + intros (E1 & E2 & E3).
      injection E1 as -> ->. injection E2 as -> ->. injection E3 as -> ->.
      assert (Zh : (code_term b b b b == 0)%Q) by (apply Hhz; auto).
      assert (Zt : (sum_dims code_term mx mx mx mx == 0)%Q) by (apply Htz; auto).
      lra.
Qed.

Lemma sum_inputs_code_zero (self : ModelConfig) (feed_dict : feed) :
  well_ranked self feed_dict -> ~ out_of_range self feed_dict ->
  (0 <= sum_inputs code_term self feed_dict)%Q /\
  ((sum_inputs code_term self feed_dict == 0)%Q <-> pinned self feed_dict).
Proof.
  intros Hwf. induction Hwf as [|[k v] items Hkv _ IH]; intros Hin; simpl.
  - split; [lra | split; [constructor | reflexivity]].
  - unfold same_rank in Hkv. simpl in Hkv.
    destruct (shape_profile self k) as [[[mn op] mx]| |] eqn:Hp; try contradiction.
    destruct Hkv as (H1 & H2 & H3).
    assert (Hnv : ~ dim_violation mn mx v).
    { intros Hv. apply Hin, Exists_cons_hd. simpl. rewrite Hp. exact Hv. }
    assert (Hin' : ~ out_of_range self items).
    { intros Ho. apply Hin, Exists_cons_tl, Ho. }
    destruct (sum_dims_code_zero mn op mx v H1 H2 H3 Hnv) as [Hh0 Hhz].
    destruct (IH Hin') as [Ht0 Htz].
    split; [lra |]. unfold pinned. rewrite Forall_cons. simpl. split.
    + intros Hz.
      assert (Zh : (sum_dims code_term mn op mx v == 0)%Q) by lra.
      assert (Zt : (sum_inputs code_term self items == 0)%Q) by lra.
      split; [| apply Htz, Zt].
      exists mn, op, mx. split; [exact Hp | apply Hhz, Zh].
    + intros [(mn' & op' & mx' & Hp' & Hv) Hrest].
      rewrite Hp in Hp'. inversion Hp'; subst mn' op' mx'.
      apply Hhz in Hv. apply Htz in Hrest. lra.
Qed.

(** C3 (as amended): an accepted request has distance 0 exactly when it
    equals opt on the compared dimensions and, besides, lies on the
    bounds that the weighted terms measure: height and width equal to
    max in the scalar form, every dimension equal to min and max in the
    dictionary form, there for a request within the range in which
    float32 is exact. The query of scenario 1 (width 512, height 512,
    batch 1, embedding 77), on a profile that also describes
    encoder_hidden_states, is accepted with distance 32. *)
Theorem distance_zero_iff :
  (forall (self : ModelConfig) (w h b e : Z) (d : Q),
     is_compatible self w h b e = Ok (true, d) ->
     exists o0 o2 o3 m2 m3 : Z,
       profile_dim self "sample" Opt 0 = Ok o0 /\
       profile_dim self "sample" Opt 2 = Ok o2 /\
       profile_dim self "sample" Opt 3 = Ok o3 /\
       profile_dim self "sample" Max 2 = Ok m2 /\
       profile_dim self "sample" Max 3 = Ok m3 /\
       ((d == 0)%Q <->
        b * 2 = o0 /\ h / 8 = o2 /\ w / 8 = o3 /\ h / 8 = m2 /\ w / 8 = m3))
  /\ (forall (self : ModelConfig) (feed_dict : feed) (d : Q),
        well_ranked self feed_dict ->
        in_float32_range self feed_dict ->
        is_compatible_from_dict self feed_dict = Ok (true, d) ->
        ((d == 0)%Q <-> pinned self feed_dict))
  /\ (exists d, is_compatible scenario_config_full 512 512 1 77 = Ok (true, d)
                /\ (d == 32)%Q).
Proof.
  split; [| split].
  - intros self w h b e d H.
    destruct (is_compatible_accepted self w h b e d H)
      as (o0 & o2 & o3 & m2 & m3 & P0 & P2 & P3 & Q2 & Q3 & Hh & Hw & ->).
    exists o0, o2, o3, m2, m3. do 5 (split; [assumption |]).
    rewrite halves_zero, scalar_sum_zero by lia. lia.
  - intros self feed_dict d Hwf Hr H.
    destruct (from_dict_total self feed_dict Hwf Hr)
      as [[_ [d' Hd']] | [Hin (d' & Hd' & Heq)]]; [congruence |].
    assert (d' = d) by congruence. subst d'.
    rewrite <- (proj2 (sum_inputs_code_zero self feed_dict Hwf Hin)).
    rewrite Heq. reflexivity.
  - eexists. split; [vm_compute; reflexivity | reflexivity].
Qed.

(** The two general parts of the theorem at the scenario's profile. *)
Lemma distance_zero_iff_witness :
  is_compatible scenario_config_full 512 512 1 77 = Ok (true, 64 # 2) /\
  well_ranked scenario_config_full scenario_feed /\
  in_float32_range scenario_config_full scenario_feed /\
  is_compatible_from_dict scenario_config_full scenario_feed = Ok (true, 68 # 4) /\
  (exists o0 o2 o3 m2 m3 : Z,
     profile_dim scenario_config_full "sample" Opt 0 = Ok o0 /\
     profile_dim scenario_config_full "sample" Opt 2 = Ok o2 /\
     profile_dim scenario_config_full "sample" Opt 3 = Ok o3 /\
     profile_dim scenario_config_full "sample" Max 2 = Ok m2 /\
     profile_dim scenario_config_full "sample" Max 3 = Ok m3 /\
     ((64 # 2 == 0)%Q <->
      1 * 2 = o0 /\ 512 / 8 = o2 /\ 512 / 8 = o3 /\ 512 / 8 = m2 /\ 512 / 8 = m3))
  /\ ((68 # 4 == 0)%Q <-> pinned scenario_config_full scenario_feed).
Proof.
  split; [vm_compute; reflexivity |].
  split; [repeat constructor |].
  split; [split; [repeat constructor; vm_compute; discriminate
                 | vm_compute; discriminate] |].
  split; [vm_compute; reflexivity |].
  split.
  - apply (proj1 distance_zero_iff scenario_config_full 512 512 1 77).
    vm_compute. reflexivity.
  - apply (proj1 (proj2 distance_zero_iff) scenario_config_full scenario_feed).
    + repeat constructor.
    + split; [repeat constructor; vm_compute; discriminate | vm_compute; discriminate].
    + vm_compute. reflexivity.
Defined.

(** C3, counterexample: the query of scenario 1 equals opt on the three
    compared dimensions of the sample input; on the profile as the
    scenario gives it the scalar form raises [KeyError], and on a
    profile that also has encoder_hidden_states it accepts with
    distance 32, not 0. *)
Lemma scenario_distance_counterexample :
  profile_dim scenario_config_full "sample" Opt 0 = Ok (1 * 2) /\
  profile_dim scenario_config_full "sample" Opt 2 = Ok (512 / 8) /\
  profile_dim scenario_config_full "sample" Opt 3 = Ok (512 / 8) /\
  is_compatible scenario_config 512 512 1 77 = Raise KeyError /\
  exists d, is_compatible scenario_config_full 512 512 1 77 = Ok (true, d) /\
            (d == 32)%Q /\ ~ (d == 0)%Q.
Proof.
  do 4 (split; [vm_compute; reflexivity |]).
  eexists. split; [vm_compute; reflexivity |].
  split; [reflexivity | intros H; vm_compute in H; discriminate H].
Qed.

(** Outside the range a request that is not pinned can have distance 0:
    with min, opt and max 16777216, the dimension 16777217 is the float32
    16777216. *)
Lemma rounded_request_distance_zero :
  let self := config_of_profile
                (JDict [("x", JList [shape_json [16777216]; shape_json [16777216];
                                     shape_json [16777216]])]) in
  well_ranked self [("x", [16777217])] /\
  ~ pinned self [("x", [16777217])] /\
  is_compatible_from_dict self [("x", [16777217])] = Ok (true, quarters 0).
Proof.
  cbv zeta. split; [repeat constructor |]. split.
  - intros H. apply Forall_cons in H as [(mn & op & mx & Hp & Hv & _) _].
    simpl in Hv. vm_compute in Hp. congruence.
  - vm_compute. reflexivity.
Qed.

(** ** Monotonicity *)

Lemma weighted_le (p1 q1 r1 p2 q2 r2 : Z) :
  4 * p1 + 2 * q1 + r1 <= 4 * p2 + 2 * q2 + r2 ->
  (inject_Z p1 + (1 # 2) * (inject_Z q1 + (1 # 2) * inject_Z r1)
   <= inject_Z p2 + (1 # 2) * (inject_Z q2 + (1 # 2) * inject_Z r2))%Q.
Proof.
  intros H. rewrite Zle_Qle in H.
  rewrite !inject_Z_plus, !inject_Z_mult in H.
  change (inject_Z 4) with 4%Q in H. change (inject_Z 2) with 2%Q in H. lra.
Qed.

Lemma code_term_farther (a o b x1 x2 : Z) :
  farther o x1 x2 -> (code_term a o b x1 <= code_term a o b x2)%Q.
Proof.
  intros H. unfold code_term. apply weighted_le. unfold farther in H. lia.
Qed.

Lemma sum_dims_farther (a b mn op mx : list Z) (o x1 x2 : Z) :
  op !! length a = Some o -> farther o x1 x2 ->
  (sum_dims code_term mn op mx (a ++ x1 :: b)
   <= sum_dims code_term mn op mx (a ++ x2 :: b))%Q.
Proof.
  intros Ho Hf. revert mn op mx Ho.
  induction a as [|y a IH]; intros [|m mn] [|o' op] [|m' mx] Ho; simpl;
    try apply Qle_refl; simpl in Ho.
  - inversion Ho; subst o'. pose proof (code_term_farther m o m' x1 x2 Hf). lra.
  - pose proof (IH mn op mx Ho). lra.
Qed.

Lemma sum_inputs_app (term : Z -> Z -> Z -> Z -> Q) (self : ModelConfig)
    (l1 l2 : feed) :
  (sum_inputs term self (l1 ++ l2)%list
   == sum_inputs term self l1 + sum_inputs term self l2)%Q.
Proof.
  induction l1 as [|[k v] l1 IH]; simpl; [ring | rewrite IH; ring].
Qed.

Lemma well_ranked_replace (self : ModelConfig) (pre post : feed) (k : string)
    (v1 v2 : list Z) :
  length v1 = length v2 ->
  well_ranked self (pre ++ (k, v1) :: post)%list ->
  well_ranked self (pre ++ (k, v2) :: post)%list.
Proof.
  unfold well_ranked. intros Hl. rewrite !Forall_app, !Forall_cons.
  intros (Hpre & Hk & Hpost). repeat split; try assumption.
  unfold same_rank in *. simpl in *. rewrite <- Hl. exact Hk.
Qed.

Lemma from_dict_accepted (self : ModelConfig) (feed_dict : feed) (d : Q) :
  well_ranked self feed_dict ->
  in_float32_range self feed_dict ->
  is_compatible_from_dict self feed_dict = Ok (true, d) ->
  ~ out_of_range self feed_dict /\ (d == sum_inputs code_term self feed_dict)%Q.
Proof.
  intros Hwf Hr H.
  destruct (from_dict_total self feed_dict Hwf Hr)
    as [[_ [d' Hd']] | [Hin (d' & Hd' & Heq)]]; [congruence |].
  assert (d' = d) by congruence. subst d'. auto.
Qed.

(** C4 (as amended): moving one compared dimension of an accepted
    request strictly farther from opt, on the same side, all else equal
    and still accepted, does not decrease the distance: in the scalar
    form when the two distances are below 2^52, in the dictionary form
    when the two requests are within the range in which float32 is
    exact. *)
Theorem distance_monotone :
  (forall (self : ModelConfig) (w1 h1 b1 e1 w2 h2 b2 e2 : Z) (d1 d2 : Q)
          (o0 o2 o3 : Z),
     is_compatible self w1 h1 b1 e1 = Ok (true, d1) ->
     is_compatible self w2 h2 b2 e2 = Ok (true, d2) ->
     (d1 < inject_Z (2 ^ 52))%Q -> (d2 < inject_Z (2 ^ 52))%Q ->
     profile_dim self "sample" Opt 0 = Ok o0 ->
     profile_dim self "sample" Opt 2 = Ok o2 ->
     profile_dim self "sample" Opt 3 = Ok o3 ->
     (farther o0 (b1 * 2) (b2 * 2) /\ h1 / 8 = h2 / 8 /\ w1 / 8 = w2 / 8 /\ e1 = e2)
     \/ (b1 * 2 = b2 * 2 /\ farther o2 (h1 / 8) (h2 / 8) /\ w1 / 8 = w2 / 8 /\ e1 = e2)
     \/ (b1 * 2 = b2 * 2 /\ h1 / 8 = h2 / 8 /\ farther o3 (w1 / 8) (w2 / 8) /\ e1 = e2)
     \/ (b1 * 2 = b2 * 2 /\ h1 / 8 = h2 / 8 /\ w1 / 8 = w2 / 8 /\ e1 <> e2) ->
     (d1 <= d2)%Q)
  /\ (forall (self : ModelConfig) (pre post : feed) (k : string)
             (a b : list Z) (x1 x2 : Z) (d1 d2 : Q) (mn op mx : list Z) (o : Z),
        well_ranked self (pre ++ (k, a ++ x1 :: b) :: post)%list ->
        in_float32_range self (pre ++ (k, a ++ x1 :: b) :: post)%list ->
        in_float32_range self (pre ++ (k, a ++ x2 :: b) :: post)%list ->
        is_compatible_from_dict self (pre ++ (k, a ++ x1 :: b) :: post)%list = Ok (true, d1) ->
        is_compatible_from_dict self (pre ++ (k, a ++ x2 :: b) :: post)%list = Ok (true, d2) ->
        shape_profile self k = Ok (mn, op, mx) ->
        op !! length a = Some o ->
        farther o x1 x2 ->
        (d1 <= d2)%Q).
Proof.
  split.
  - intros self w1 h1 b1 e1 w2 h2 b2 e2 d1 d2 o0 o2 o3 H1 H2 S1 S2 P0 P2 P3 Hcase.
    destruct (is_compatible_accepted _ _ _ _ _ _ H1)
      as (p0 & p2 & p3 & m2 & m3 & A0 & A2 & A3 & M2 & M3 & Hh1 & Hw1 & ->).
    destruct (is_compatible_accepted _ _ _ _ _ _ H2)
      as (q0 & q2 & q3 & n2 & n3 & B0 & B2 & B3 & N2 & N3 & Hh2 & Hw2 & ->).
    assert (p0 = o0) by congruence. assert (p2 = o2) by congruence.
    assert (p3 = o3) by congruence. assert (q0 = o0) by congruence.
    assert (q2 = o2) by congruence. assert (q3 = o3) by congruence.
    assert (n2 = m2) by congruence. assert (n3 = m3) by congruence.
    subst p0 p2 p3 q0 q2 q3 n2 n3.
    apply halves_lt in S1, S2.
    change (2 * 2 ^ 52) with (2 ^ 53) in S1, S2.
    apply scalar_sum_exact in S1 as E1; [| lia | lia].
    apply scalar_sum_exact in S2 as E2; [| lia | lia].
    rewrite E1, E2.
    apply halves_le. unfold farther in Hcase. lia.
  - intros self pre post k a b x1 x2 d1 d2 mn op mx o Hwf R1 R2 H1 H2 Hp Ho Hf.
    assert (Hwf2 : well_ranked self (pre ++ (k, a ++ x2 :: b) :: post)%list).
    { apply (well_ranked_replace self pre post k (a ++ x1 :: b)); [| exact Hwf].
      rewrite !length_app. reflexivity. }
    rewrite (proj2 (from_dict_accepted _ _ _ Hwf R1 H1)),
      (proj2 (from_dict_accepted _ _ _ Hwf2 R2 H2)).
    rewrite !sum_inputs_app. simpl. rewrite Hp.
    pose proof (sum_dims_farther a b mn op mx o x1 x2 Ho Hf). lra.
Qed.

(** The theorem at the scenario's profile: width 512 against 576, and
    the third sample dimension 64 against 70. *)
Lemma distance_monotone_witness :
  exists d1 d2 d3 d4 : Q,
    is_compatible scenario_config_full 512 512 1 77 = Ok (true, d1) /\
    is_compatible scenario_config_full 576 512 1 77 = Ok (true, d2) /\
    is_compatible_from_dict scenario_config_full [("sample", [2; 4; 64; 64])]
      = Ok (true, d3) /\
    is_compatible_from_dict scenario_config_full [("sample", [2; 4; 70; 64])]
      = Ok (true, d4) /\
    (d1 <= d2)%Q /\ (d3 <= d4)%Q.
Proof.
  do 4 eexists.
  split; [vm_compute; reflexivity |].
  split; [vm_compute; reflexivity |].
  split; [vm_compute; reflexivity |].
  split; [vm_compute; reflexivity |].
  split.
  - apply (proj1 distance_monotone scenario_config_full
             512 512 1 77 576 512 1 77 _ _ 2 64 64);
      try (vm_compute; reflexivity).
    right. right. left. unfold farther. vm_compute. intuition discriminate.
  - apply (proj2 distance_monotone scenario_config_full [] [] "sample"
             [2; 4] [64] 64 70 _ _ [1; 4; 64; 64] [2; 4; 64; 64] [4; 4; 96; 96] 64).
    + repeat constructor.
    + split; [repeat constructor; vm_compute; discriminate | vm_compute; discriminate].
    + split; [repeat constructor; vm_compute; discriminate | vm_compute; discriminate].
    + vm_compute. reflexivity.
    + vm_compute. reflexivity.
    + vm_compute. reflexivity.
    + reflexivity.
    + unfold farther. lia.
Defined.

(** C4, counterexample: above 2^53 the last addition of the scalar form
    rounds. On a profile with opt 0 and max 9007199254740995 for the
    width, the width 9007199254740992 gives the distance
    9007199254740994 and the width 9007199254740993, farther from opt on
    the same side, the distance 9007199254740992. *)
Lemma distance_rounding_counterexample :
  let p := JDict [("sample",
                   JList [shape_json [0; 0; 0; 0]; shape_json [0; 0; 0; 0];
                          shape_json [0; 0; 0; 9007199254740995]]);
                  ("encoder_hidden_states",
                   JList [shape_json [0; 0; 0]; shape_json [0; 0; 0];
                          shape_json [0; 0; 0]])] in
  let self := config_of_profile p in
  profile_dim self "sample" Opt 3 = Ok 0 /\
  farther 0 (9007199254740992 * 8 / 8) (9007199254740993 * 8 / 8) /\
  exists d1 d2 : Q,
    is_compatible self (9007199254740992 * 8) 0 0 0 = Ok (true, d1) /\
    is_compatible self (9007199254740993 * 8) 0 0 0 = Ok (true, d2) /\
    (d1 == 9007199254740994)%Q /\ (d2 == 9007199254740992)%Q /\ ~ (d1 <= d2)%Q.
Proof.
  cbv zeta. split; [vm_compute; reflexivity |]. split.
  - left. vm_compute. split; [discriminate | reflexivity].
  - do 2 eexists.
    split; [vm_compute; reflexivity |].
    split; [vm_compute; reflexivity |].
    split; [reflexivity |]. split; [reflexivity |].
    intros H. vm_compute in H. apply H. reflexivity.
Qed.

(** ** Adapter entries and the matcher *)

Lemma dict_get_set_eq {V : Type} (d : list (string * V)) (k : string) (v : V) :
  dict_get (dict_set d k v) k = Some v.
Proof.
  induction d as [|[k' v'] d IH]; simpl.
  - rewrite String.eqb_refl. reflexivity.
  - destruct (String.eqb k' k) eqn:E; simpl; rewrite E; [reflexivity | exact IH].
Qed.

Lemma dict_get_In {V : Type} (d : list (string * V)) (k : string) (v : V) :
  dict_get d k = Some v -> In (k, v) d.
Proof.
  induction d as [|[k' v'] d IH]; simpl; [discriminate |].
  destruct (String.eqb_spec k' k) as [-> |].
  - intros H. inversion H. auto.
  - auto.
Qed.

Lemma In_dict_set {V : Type} (d : list (string * V)) (k : string) (v : V)
    (kv : string * V) :
  In kv (dict_set d k v) -> In kv d \/ kv = (k, v).
Proof.
  induction d as [|[k' v'] d IH]; simpl.
  - intros [<- | []]. auto.
  - destruct (String.eqb_spec k' k) as [-> |]; simpl.
    + intros [<- | H]; auto.
    + intros [<- | H]; [auto | destruct (IH H); auto].
Qed.

Lemma In_dict_pop {V : Type} (d : list (string * V)) (k : string)
    (kv : string * V) :
  In kv (dict_pop d k) -> In kv d.
Proof.
  induction d as [|[k' v'] d IH]; simpl; [auto |].
  destruct (String.eqb k' k); simpl; [auto | intros [<- | H]; auto].
Qed.

Lemma lora_is_compatible (c : ModelConfig) (w h b e : Z) :
  profile c = lora_profile -> is_compatible c w h b e = Raise TypeError.
Proof.
  intros H. unfold is_compatible. rewrite H. reflexivity.
Qed.

Lemma lora_is_compatible_from_dict (c : ModelConfig) (feed_dict : feed) :
  profile c = lora_profile -> feed_dict <> [] ->
  is_compatible_from_dict c feed_dict = Raise TypeError.
Proof.
  intros H Hne. destruct feed_dict as [|[k v] rest]; [contradiction |].
  unfold is_compatible_from_dict. simpl. rewrite H. reflexivity.
Qed.

Lemma getitem_str_ok (p : json) (k : string) (v : json) :
  getitem_str p k = Ok v -> has_key p k.
Proof.
  unfold getitem_str, has_key. destruct p; try discriminate.
  destruct (dict_get d k) eqn:E; [| discriminate].
  intros _. exists d. rewrite E. eauto.
Qed.

Lemma is_compatible_needs_keys (self : ModelConfig) (w h b e : Z) (r : bool * Q) :
  is_compatible self w h b e = Ok r ->
  has_key (profile self) "sample" /\ has_key (profile self) "encoder_hidden_states".
Proof.
  unfold is_compatible. intros H.
  destruct (getitem_str (profile self) "sample") as [s| |] eqn:E1;
    try discriminate H. bind_step_in H.
  destruct (getitem_str (profile self) "encoder_hidden_states") as [s'| |] eqn:E2;
    try discriminate H.
  split; eapply getitem_str_ok; eassumption.
Qed.

(** One input of the dictionary form: what it does with the input does
    not depend on the inputs that follow. The outcome [o] is [None] for
    a rejection and the new count of quarters otherwise. *)
Lemma loop_step (self : ModelConfig) (k : string) (v : list Z) (d0 : Z) :
  exists o : result (option Z),
    (forall items : feed,
       is_compatible_from_dict_loop self ((k, v) :: items) d0
       = (s ← o;
          match s with
          | None => Ok (false, quarters d0)
          | Some d1 => is_compatible_from_dict_loop self items d1
          end))
    /\ (forall s, o = Ok s -> has_key (profile self) k).
Proof.
  cbn [is_compatible_from_dict_loop].
  destruct (getitem_str (profile self) k) as [entry| |] eqn:E;
    [| exists (Raise e); split; [reflexivity | discriminate]
     | exists Unmodelled; split; [reflexivity | discriminate]].
  apply getitem_str_ok in E. bind_step.
  destruct (unpack3 entry) as [[[x y] z]| e |];
    [| exists (Raise e); split; [reflexivity | discriminate]
     | exists Unmodelled; split; [reflexivity | discriminate]].
  bind_step.
  repeat match goal with
         | |- context [mbind _ ?c] =>
             destruct c as [?| e |];
             [ bind_step
             | exists (Raise e); split; [reflexivity | discriminate]
             | exists Unmodelled; split; [reflexivity | discriminate] ]
         | |- context [if ?c then _ else _] =>
             destruct c;
             [ exists (Ok None); split; [reflexivity | intros _ _; exact E] | ]
         end.
  eexists (Ok (Some _)). split; [reflexivity | intros _ _; exact E].
Qed.

Lemma from_dict_loop_needs_keys (self : ModelConfig) (feed_dict : feed)
    (d0 : Z) (b : bool) (d : Q) :
  is_compatible_from_dict_loop self feed_dict d0 = Ok (b, d) ->
  if b then forall k v, In (k, v) feed_dict -> has_key (profile self) k
  else exists (pre : feed) (k : string) (v : list Z) (post : feed),
         feed_dict = (pre ++ (k, v) :: post)%list /\
         (forall k' v', In (k', v') (pre ++ [(k, v)])%list ->
                        has_key (profile self) k') /\
         is_compatible_from_dict_loop self pre d0 = Ok (true, d) /\
         is_compatible_from_dict_loop self (pre ++ [(k, v)])%list d0 = Ok (false, d).
Proof.
  revert d0. induction feed_dict as [|[k v] items IH]; intros d0 H.
  - simpl in H. inversion H; subst. intros k v [].
  - destruct (loop_step self k v d0) as (o & Ho & Hk).
    rewrite Ho in H.
    destruct o as [[d1|]| |]; try discriminate H; bind_step_in H.
    + specialize (IH d1 H). specialize (Hk _ eq_refl). destruct b.
      * intros k' v' [Heq | Hin]; [inversion Heq; subst; exact Hk | eauto].
      * destruct IH as (pre & k' & v' & post & -> & Hkeys & Hpre & Hrej).
        exists ((k, v) :: pre), k', v', post. split; [reflexivity |].
        split; [| split].
        -- intros k'' v'' [Heq | Hin]; [inversion Heq; subst; exact Hk | eauto].
        -- rewrite Ho. exact Hpre.
        -- cbn [app]. rewrite Ho. exact Hrej.
    + inversion H; subst. specialize (Hk _ eq_refl).
      exists [], k, v, items. split; [reflexivity |]. split; [| split].
      * intros k' v' [Heq | []]. inversion Heq; subst. exact Hk.
      * reflexivity.
      * cbn [app]. rewrite Ho. reflexivity.
Qed.

Lemma add_lora_entry_stores (self : ModelManager) (fs : FS)
    (base lora_name path : string) (f bm i v u : json)
    (self' : ModelManager) (fs' : FS) :
  add_lora_entry self fs base lora_name path f bm i v u = (self', fs', Ok ()) ->
  exists e, dict_get (available_models self') lora_name = Some [e] /\
            filepath e = path /\ base_model e = Some base /\
            profile (config e) = lora_profile.
Proof.
  unfold add_lora_entry.
  destruct (dict_get (all_models self) (cc self)) as [under|]; [| discriminate].
  intros H. inversion H; subst. unfold available_models. simpl.
  rewrite dict_get_set_eq. simpl. rewrite dict_get_set_eq.
  eexists. repeat split.
Qed.

(** C10 (as amended): an entry made by [add_lora_entry] carries the
    profile [[[], [], []]], so the scalar form raises on it for every
    request and the dictionary form for every non-empty request. In
    general the scalar form returns only if the profile is a mapping with
    the keys sample and encoder_hidden_states, and the dictionary form
    returns only if the profile is a mapping with every queried name it
    has looked up: all of them on an acceptance; on a rejection those up
    to and including the first rejected input, which is the input that
    follows the longest accepted part of the request. *)
Theorem adapter_entry_matcher :
  (forall (self : ModelManager) (fs : FS) (base lora_name path : string)
          (f bm i v u : json) (self' : ModelManager) (fs' : FS),
     add_lora_entry self fs base lora_name path f bm i v u = (self', fs', Ok ()) ->
     exists e, dict_get (available_models self') lora_name = Some [e] /\
               profile (config e) = lora_profile /\
               (forall w h b em, is_compatible (config e) w h b em = Raise TypeError) /\
               (forall feed_dict, feed_dict <> [] ->
                  is_compatible_from_dict (config e) feed_dict = Raise TypeError))
  /\ (forall (self : ModelConfig) (w h b e : Z) (r : bool * Q),
        is_compatible self w h b e = Ok r ->
        has_key (profile self) "sample" /\
        has_key (profile self) "encoder_hidden_states")
  /\ (forall (self : ModelConfig) (feed_dict : feed) (d : Q),
        is_compatible_from_dict self feed_dict = Ok (true, d) ->
        forall k v, In (k, v) feed_dict -> has_key (profile self) k)
  /\ (forall (self : ModelConfig) (feed_dict : feed) (d : Q),
        is_compatible_from_dict self feed_dict = Ok (false, d) ->
        exists (pre : feed) (k : string) (v : list Z) (post : feed),
          feed_dict = (pre ++ (k, v) :: post)%list /\
          (forall k' v', In (k', v') (pre ++ [(k, v)])%list ->
                         has_key (profile self) k') /\
          is_compatible_from_dict self pre = Ok (true, d) /\
          is_compatible_from_dict self (pre ++ [(k, v)])%list = Ok (false, d)).
Proof.
  split; [| split; [| split]].
  - intros self fs base lora_name path f bm i v u self' fs' H.
    destruct (add_lora_entry_stores _ _ _ _ _ _ _ _ _ _ _ _ H)
      as (e & He & _ & _ & Hp).
    exists e. split; [exact He |]. split; [exact Hp |]. split.
    + intros. apply lora_is_compatible, Hp.
    + intros. apply lora_is_compatible_from_dict; assumption.
  - apply is_compatible_needs_keys.
  - intros self feed_dict d H.
    apply (from_dict_loop_needs_keys self feed_dict 0 true d H).
  - intros self feed_dict d H.
    apply (from_dict_loop_needs_keys self feed_dict 0 false d H).
Qed.

(** The theorem at an adapter entry added under the tag cc86, and at
    the scenario's profiles: an accepted request, and a request whose
    second input is rejected. *)
Lemma adapter_entry_matcher_witness :
  (exists e, dict_get (available_models
                         (add_lora_entry manager_cc86 empty_fs "sd15" "style"
                            "style_cc86.trt" (JBool false) (JStr "SD15")
                            (JBool false) (JInt 0) (JInt 4)).1.1) "style" = Some [e] /\
             profile (config e) = lora_profile /\
             (forall w h b em, is_compatible (config e) w h b em = Raise TypeError) /\
             (forall feed_dict, feed_dict <> [] ->
                is_compatible_from_dict (config e) feed_dict = Raise TypeError))
  /\ (has_key (profile scenario_config_full) "sample" /\
      has_key (profile scenario_config_full) "encoder_hidden_states")
  /\ (forall k v, In (k, v) scenario_feed -> has_key (profile scenario_config_full) k)
  /\ (exists (pre : feed) (k : string) (v : list Z) (post : feed),
        late_rejected_feed = (pre ++ (k, v) :: post)%list /\
        (forall k' v', In (k', v') (pre ++ [(k, v)])%list ->
                       has_key (profile scenario_config_full) k') /\
        is_compatible_from_dict scenario_config_full pre = Ok (true, 68 # 4) /\
        is_compatible_from_dict scenario_config_full (pre ++ [(k, v)])%list
        = Ok (false, 68 # 4)).
Proof.
  split; [| split; [| split]].
  - eapply (proj1 adapter_entry_matcher manager_cc86 empty_fs "sd15" "style").
    vm_compute. reflexivity.
  - apply (proj1 (proj2 adapter_entry_matcher) scenario_config_full 512 512 1 77
             (true, 64 # 2)).
    vm_compute. reflexivity.
  - apply (proj1 (proj2 (proj2 adapter_entry_matcher)) scenario_config_full
             scenario_feed (68 # 4)).
    vm_compute. reflexivity.
  - apply (proj2 (proj2 (proj2 adapter_entry_matcher)) scenario_config_full
             late_rejected_feed (68 # 4)).
    vm_compute. reflexivity.
Defined.

(** C10, counterexample: the dictionary form returns a rejection for a
    request that names encoder_hidden_states although the profile has no
    such key, because the first input is already out of range. *)
Lemma matcher_totality_counterexample :
  is_compatible_from_dict scenario_config rejected_feed = Ok (false, quarters 0) /\
  In "encoder_hidden_states" (map fst rejected_feed) /\
  ~ has_key (profile scenario_config) "encoder_hidden_states".
Proof.
  split; [vm_compute; reflexivity |]. split; [simpl; auto |].
  intros (d & Hd & [x Hx]). inversion Hd; subst d. vm_compute in Hx. discriminate Hx.
Qed.

(** ** Persistence *)

Lemma read_entry_entry_json (e : entry) : read_entry (entry_json e) = Ok e.
Proof.
  destruct e as [f [b|] c]; destruct c; reflexivity.
Qed.

Lemma read_entries_map (l : list entry) : read_entries (map entry_json l) = Ok l.
Proof.
  induction l as [|e l IH]; simpl; [reflexivity |].
  rewrite read_entry_entry_json. bind_step.
  rewrite IH. reflexivity.
Qed.

Lemma read_base_models_map (bms : list (string * list entry)) :
  read_base_models
    (map (fun '(base_model, models) => (base_model, JList (map entry_json models))) bms)
  = Ok bms.
Proof.
  induction bms as [|[k l] bms IH]; simpl; [reflexivity |].
  rewrite read_entries_map. bind_step. rewrite IH. reflexivity.
Qed.

Lemma read_ccs_registry (r : registry) :
  match registry_json r with
  | JDict d => read_ccs d = Ok r
  | _ => False
  end.
Proof.
  unfold registry_json. induction r as [|[k bms] r IH]; simpl; [reflexivity |].
  rewrite read_base_models_map. bind_step. rewrite IH. reflexivity.
Qed.

(** C5: reading back what [write_json] wrote gives the registry that was
    written, each entry's config being a [ModelConfig] again, for every
    registry, adapter entries with their base_model included, and for
    every object that reads the same file, whatever registry and tag it
    holds itself. *)
Theorem read_write_json (self reader : ModelManager) (fs : FS) :
  model_file reader = model_file self ->
  read_json reader (write_json self fs) = Ok (all_models self).
Proof.
  intros E. unfold read_json, write_json. simpl. rewrite E, dict_get_set_eq.
  pose proof (read_ccs_registry (all_models self)) as H.
  destruct (registry_json (all_models self)); try contradiction. exact H.
Qed.

(** The theorem at the scenario's registry, read by an object that holds
    no registry and another tag, and at a registry with an adapter
    entry. *)
Lemma read_write_json_witness :
  read_json reader_cc75 (write_json scenario_manager empty_fs)
  = Ok (all_models scenario_manager) /\
  (let self := (add_lora_entry scenario_manager empty_fs "sd15" "style"
                  "style_cc86.trt" (JBool false) (JStr "SD15") (JBool false)
                  (JInt 0) (JInt 4)).1.1 in
   read_json reader_cc75 (write_json self stale_fs) = Ok (all_models self)).
Proof.
  split.
  - apply (read_write_json scenario_manager reader_cc75 empty_fs). reflexivity.
  - cbv zeta. apply (read_write_json _ reader_cc75 stale_fs). reflexivity.
Defined.

(** ** Lookup *)





(** ** File references within one entry list *)

Lemma update_base_models_In (trt : list string)
    (items live : list (string * list entry)) (kv : string * list entry) :
  In kv (update_base_models trt items live).1 -> In kv live \/ In kv items.
Proof.
  revert live. induction items as [|[bm models] items IH]; intros live; simpl.
  - auto.
  - destruct (length (map snd (update_filter trt models [])) =? 0)%nat; simpl.
    + intros H. left. eapply In_dict_pop, H.
    + intros H. destruct (IH _ H) as [H' | H']; [| auto].
      destruct (In_dict_set _ _ _ _ H') as [? | ->]; auto.
Qed.

Lemma update_ccs_stored (trt : list string) (orig items all : registry) :
  (forall x, In x items -> In x orig) ->
  (forall es, stored all es -> stored orig es) ->
  forall es, stored (update_ccs trt items all).1 es -> stored orig es.
Proof.
  revert all. induction items as [|[c bms] items IH]; intros all Hsub Hall; simpl.
  - exact Hall.
  - destruct (update_base_models trt bms bms) as [live r] eqn:E.
    assert (Hall' : forall es, stored (dict_set all c live) es -> stored orig es).
    { intros es (c' & bms' & bm & Hin & Hes).
      destruct (In_dict_set _ _ _ _ Hin) as [Hold | Heq].
      - apply Hall. exists c', bms', bm. auto.
      - inversion Heq; subst c' bms'.
        assert (Hl : In (bm, es) (update_base_models trt bms bms).1)
          by (rewrite E; exact Hes).
        apply update_base_models_In in Hl.
        exists c, bms, bm. split; [apply Hsub; left; reflexivity | tauto]. }
    destruct r; simpl; try exact Hall'.
    apply IH; [intros x Hx; apply Hsub; right; exact Hx | exact Hall'].
Qed.

Lemma update_stored (self : ModelManager) (fs : FS) (es : list entry) :
  stored (all_models (update self fs).1.1) es -> stored (all_models self) es.
Proof.
  unfold update.
  destruct (update_ccs _ (all_models self) (all_models self)) as [all r] eqn:E.
  intros H.
  assert (H' : stored (update_ccs
                 (List.filter (fun trt_file => endswith trt_file ".trt") (listdir_trt fs))
                 (all_models self) (all_models self)).1 es).
  { rewrite E. destruct r; exact H. }
  eapply update_ccs_stored; [| | exact H']; auto.
Qed.

Lemma get_trt_path_name (D : string) (self : ModelManager) (n : string)
    (p s : json) (a b : string) :
  get_trt_path D self n p s = Ok (a, b) -> a = n ++ "_" ++ cc self ++ ".trt".
Proof.
  unfold get_trt_path. destruct p; try discriminate. bind_step.
  destruct (profile_hash_loop _ _); try discriminate. bind_step.
  intros H. inversion H. reflexivity.
Qed.

Lemma add_entry_stored (D : string) (self : ModelManager) (fs : FS) (n : string)
    (p s f bm i r v u l : json) (self' : ModelManager) (fs' : FS) :
  add_entry D self fs n p s f bm i r v u l = (self', fs', Ok ()) ->
  let existing := default [] (dict_get (available_models self) n) in
  let new := Build_entry (n ++ "_" ++ cc self ++ ".trt") None
               (Build_ModelConfig p s f bm i r l v u) in
  stored (all_models self') (existing ++ [new])%list /\
  (existing = [] \/ stored (all_models self) existing) /\
  (forall es, stored (all_models self') es ->
              stored (all_models self) es \/ es = [] \/ es = (existing ++ [new])%list).
Proof.
  unfold add_entry, available_models.
  destruct (get_trt_path D self n p s) as [[a b]| |] eqn:Hp; try discriminate.
  apply get_trt_path_name in Hp. subst a.
  intros H. inversion H; subst self' fs'. clear H. cbn [all_models set_all_models].
  destruct (dict_get (all_models self) (cc self)) as [under|] eqn:Hcc.
  - rewrite Hcc. cbn [default from_option id].
    destruct (dict_get under n) as [models|] eqn:Hn.
    + rewrite Hn. cbn [default from_option id]. split; [| split].
      * exists (cc self). eexists. exists n.
        split; apply dict_get_In, dict_get_set_eq.
      * right. exists (cc self), under, n. split; apply dict_get_In; assumption.
      * intros es (c' & bms' & k & Hin & Hes).
        destruct (In_dict_set _ _ _ _ Hin) as [Hold | Heq].
        -- left. exists c', bms', k. auto.
        -- inversion Heq; subst c' bms'.
           destruct (In_dict_set _ _ _ _ Hes) as [Hold | Heq'].
           ++ left. exists (cc self), under, k.
              split; [apply dict_get_In; assumption | exact Hold].
           ++ inversion Heq'. auto.
    + rewrite dict_get_set_eq. cbn [default from_option id]. split; [| split].
      * exists (cc self). eexists. exists n.
        split; apply dict_get_In, dict_get_set_eq.
      * auto.
      * intros es (c' & bms' & k & Hin & Hes).
        destruct (In_dict_set _ _ _ _ Hin) as [Hold | Heq].
        -- left. exists c', bms', k. auto.
        -- inversion Heq; subst c' bms'.
           destruct (In_dict_set _ _ _ _ Hes) as [Hold | Heq'].
           ++ destruct (In_dict_set _ _ _ _ Hold) as [Hold' | Heq''].
              ** left. exists (cc self), under, k.
                 split; [apply dict_get_In; assumption | exact Hold'].
              ** inversion Heq''. auto.
           ++ inversion Heq'. auto.
  - rewrite dict_get_set_eq. cbn [default from_option id dict_get dict_set].
    rewrite !String.eqb_refl. cbn [default from_option id app].
    split; [| split].
    + exists (cc self). eexists. exists n.
      split; [apply dict_get_In, dict_get_set_eq | left; reflexivity].
    + auto.
    + intros es (c' & bms' & k & Hin & Hes).
      destruct (In_dict_set _ _ _ _ Hin) as [Hold | Heq].
      * destruct (In_dict_set _ _ _ _ Hold) as [Hold' | Heq'].
        -- left. exists c', bms', k. auto.
        -- inversion Heq'; subst. destruct Hes.
      * inversion Heq; subst c' bms'. destruct Hes as [Heq' | []].
        inversion Heq'. auto.
Qed.

Lemma add_lora_entry_stored (self : ModelManager) (fs : FS)
    (base lora_name path : string) (f bm i v u : json) (es : list entry) :
  stored (all_models (add_lora_entry self fs base lora_name path f bm i v u).1.1) es ->
  stored (all_models self) es \/ exists e, es = [e].
Proof.
  unfold add_lora_entry.
  destruct (dict_get (all_models self) (cc self)) as [under|] eqn:Hcc; simpl.
  - intros (c' & bms' & k & Hin & Hes).
    destruct (In_dict_set _ _ _ _ Hin) as [Hold | Heq].
    + left. exists c', bms', k. auto.
    + inversion Heq; subst c' bms'.
      destruct (In_dict_set _ _ _ _ Hes) as [Hold | Heq'].
      * left. exists (cc self), under, k.
        split; [apply dict_get_In; assumption | exact Hold].
      * inversion Heq'. eauto.
  - auto.
Qed.

(** C9 (as amended): [update] and [add_lora_entry] keep every entry list
    free of repeated file references; [add_entry] keeps it so exactly
    when the file name it derives from the model name and the tag is not
    yet in the list it appends to. *)
Theorem registry_no_dup_paths :
  (forall (self : ModelManager) (fs : FS),
     no_dup_paths (all_models self) ->
     no_dup_paths (all_models (update self fs).1.1))
  /\ (forall (self : ModelManager) (fs : FS) (base lora_name path : string)
             (f bm i v u : json),
        no_dup_paths (all_models self) ->
        no_dup_paths
          (all_models (add_lora_entry self fs base lora_name path f bm i v u).1.1))
  /\ (forall (D : string) (self : ModelManager) (fs : FS) (n : string)
             (p s f bm i r v u l : json) (self' : ModelManager) (fs' : FS),
        add_entry D self fs n p s f bm i r v u l = (self', fs', Ok ()) ->
        no_dup_paths (all_models self) ->
        (no_dup_paths (all_models self') <->
         ~ In (n ++ "_" ++ cc self ++ ".trt")
              (map filepath (default [] (dict_get (available_models self) n))))).
Proof.
  split; [| split].
  - intros self fs H es Hes. apply H. eapply update_stored, Hes.
  - intros self fs base lora_name path f bm i v u H es Hes.
    destruct (add_lora_entry_stored _ _ _ _ _ _ _ _ _ _ _ Hes) as [Hold | [e ->]].
    + apply H, Hold.
    + simpl. constructor; [intros [] | constructor].
  - intros D self fs n p s f bm i r v u l self' fs' Hadd H.
    destruct (add_entry_stored _ _ _ _ _ _ _ _ _ _ _ _ _ _ _ Hadd)
      as (Hnew & Hex & Hall).
    set (existing := default [] (dict_get (available_models self) n)) in *.
    assert (Hnd : List.NoDup (map filepath existing)).
    { destruct Hex as [-> | Hex]; [constructor | apply H, Hex]. }
    split.
    + intros H' Hin. specialize (H' _ Hnew).
      rewrite map_app in H'. simpl in H'.
      apply NoDup_remove_2 in H'. rewrite app_nil_r in H'. contradiction.
    + intros Hfresh es Hes.
      destruct (Hall es Hes) as [Hold | [-> | ->]].
      * apply H, Hold.
      * constructor.
      * rewrite map_app. simpl. apply List.NoDup_app; [exact Hnd | |].
        -- constructor; [intros [] | constructor].
        -- intros x Hx [<- | []]. contradiction.
Qed.

Lemma no_dup_paths_nil : no_dup_paths [].
Proof.
  intros es (c & bms & bm & [] & _).
Qed.

Lemma no_dup_paths_check (r : registry) :
  Forall (fun cb => Forall (fun be => List.NoDup (map filepath be.2)) cb.2) r ->
  no_dup_paths r.
Proof.
  intros H es (c & bms & bm & Hc & Hb).
  rewrite List.Forall_forall in H. specialize (H _ Hc). simpl in H.
  rewrite List.Forall_forall in H. apply (H _ Hb).
Qed.

Lemma one_path_NoDup (x : string) : List.NoDup [x].
Proof.
  constructor; [intros [] | constructor].
Qed.

(** The theorem at registries with entries: [update] drops an engine
    that is gone from a list of two, [add_lora_entry] adds an adapter
    next to a base model, [add_entry] appends to the list of a model
    whose engine has another file name. *)
Lemma registry_no_dup_paths_witness :
  no_dup_paths (all_models (set_all_models empty_manager stale_registry)) /\
  no_dup_paths
    (all_models (update (set_all_models empty_manager stale_registry) stale_fs).1.1) /\
  no_dup_paths (all_models scenario_manager) /\
  no_dup_paths
    (all_models (add_lora_entry scenario_manager empty_fs "sd15" "style"
                   "style_cc86.trt" (JBool false) (JStr "SD15") (JBool false)
                   (JInt 0) (JInt 4)).1.1) /\
  no_dup_paths (all_models older_manager) /\
  map filepath
    (default [] (dict_get (available_models
                             (add_scenario_entry older_manager empty_fs).1.1) "sd15"))
  = ["sd15_old_cc86.trt"; "sd15_cc86.trt"] /\
  no_dup_paths (all_models (add_scenario_entry older_manager empty_fs).1.1).
Proof.
  assert (H1 : no_dup_paths (all_models (set_all_models empty_manager stale_registry))).
  { apply no_dup_paths_check.
    constructor; [| constructor]. constructor; [| constructor]. simpl.
    constructor; [| apply one_path_NoDup].
    intros [H | []]. discriminate H. }
  assert (H2 : no_dup_paths (all_models scenario_manager)).
  { apply no_dup_paths_check.
    constructor; [| constructor]. constructor; [| constructor].
    apply one_path_NoDup. }
  assert (H3 : no_dup_paths (all_models older_manager)).
  { apply no_dup_paths_check.
    constructor; [| constructor]. constructor; [| constructor].
    apply one_path_NoDup. }
  split; [exact H1 |]. split; [| split; [exact H2 |]; split; [| split; [exact H3 |]; split]].
  - apply (proj1 registry_no_dup_paths _ stale_fs), H1.
  - apply (proj1 (proj2 registry_no_dup_paths) scenario_manager empty_fs), H2.
  - vm_compute. reflexivity.
  - apply (proj2 (proj2 registry_no_dup_paths) "/Unet-trt" older_manager empty_fs
             "sd15" (profile scenario_config_full) (JBool false) (JBool false)
             (JStr "SD15") (JBool false) (JBool true) (JInt 0) (JInt 4) (JBool false)
             (add_scenario_entry older_manager empty_fs).1.1
             (add_scenario_entry older_manager empty_fs).1.2).
    + vm_compute. reflexivity.
    + exact H3.
    + vm_compute. intros [H | []]. discriminate H.
Defined.

(** C9, counterexample: two calls of [add_entry] with the same model
    name leave two entries with the same file reference in one list. *)
Lemma add_entry_twice_counterexample :
  let first := add_scenario_entry empty_manager empty_fs in
  let second := add_scenario_entry first.1.1 first.1.2 in
  no_dup_paths (all_models empty_manager) /\
  first.2 = Ok () /\ second.2 = Ok () /\
  map filepath (default [] (dict_get (available_models second.1.1) "sd15"))
  = ["sd15_cc86.trt"; "sd15_cc86.trt"] /\
  ~ no_dup_paths (all_models second.1.1).
Proof.
  cbv zeta. split; [exact no_dup_paths_nil |].
  do 3 (split; [vm_compute; reflexivity |]).
  intros H.
  assert (Hs : stored (all_models
                 (add_scenario_entry (add_scenario_entry empty_manager empty_fs).1.1
                    (add_scenario_entry empty_manager empty_fs).1.2).1.1)
                 [scenario_entry "sd15_cc86.trt"; scenario_entry "sd15_cc86.trt"]).
  { exists "cc86". eexists. exists "sd15".
    split; apply dict_get_In; vm_compute; reflexivity. }
  apply H in Hs. simpl in Hs. inversion Hs as [| ? ? Hnin _]. apply Hnin. left. reflexivity.
Qed.

(** ** Reconcile *)

Lemma dict_set_same {V : Type} (d : list (string * V)) (k : string) (v : V) :
  dict_get d k = Some v -> dict_set d k v = d.
Proof.
  induction d as [|[k' v'] d IH]; simpl; [discriminate |].
  destruct (String.eqb_spec k' k) as [-> |].
  - intros H. inversion H. reflexivity.
  - intros H. rewrite (IH H). reflexivity.
Qed.

Lemma dict_get_unique {V : Type} (d : list (string * V)) (k : string) (v : V) :
  List.NoDup (dict_keys d) -> In (k, v) d -> dict_get d k = Some v.
Proof.
  induction d as [|[k' v'] d IH]; simpl; [intros _ [] |].
  intros Hnd [Heq | Hin].
  - inversion Heq; subst. rewrite String.eqb_refl. reflexivity.
  - inversion Hnd as [| ? ? Hnotin Hnd']; subst.
    destruct (String.eqb_spec k' k) as [-> |]; [| auto].
    exfalso. apply Hnotin. change k with (fst (k, v)). apply in_map, Hin.
Qed.

Lemma update_base_models_ok (trt : list string)
    (items live live' : list (string * list entry)) :
  (forall k v, In (k, v) items -> dict_get live k = Some v) ->
  update_base_models trt items live = (live', Ok ()) -> live' = live.
Proof.
  induction items as [|[bm models] items IH]; simpl; intros Hget H.
  - inversion H. reflexivity.
  - destruct (length (map snd (update_filter trt models [])) =? 0)%nat;
      [discriminate H |].
    rewrite (dict_set_same live bm models) in H by (apply Hget; auto).
    apply IH; [intros; apply Hget; auto | exact H].
Qed.

Lemma update_ccs_ok (trt : list string) (items all all' : registry) :
  (forall c bms, In (c, bms) items ->
                 dict_get all c = Some bms /\ List.NoDup (dict_keys bms)) ->
  update_ccs trt items all = (all', Ok ()) -> all' = all.
Proof.
  induction items as [|[c bms] items IH]; simpl; intros Hget H.
  - inversion H. reflexivity.
  - destruct (Hget c bms (or_introl eq_refl)) as [Hc Hnd].
    destruct (update_base_models trt bms bms) as [live r] eqn:E.
    destruct r as [[]| |].
    + apply update_base_models_ok in E;
        [| intros k v Hin; apply dict_get_unique; assumption].
      subst live. rewrite (dict_set_same all c bms Hc) in H.
      apply IH; [intros; apply Hget; auto | exact H].
    + inversion H.
    + inversion H.
Qed.

(** Whenever [update] returns, the registry is what it was before: no
    entry has been dropped. *)
Lemma update_returns_unchanged (self self' : ModelManager) (fs fs' : FS) :
  unique_keys (all_models self) ->
  update self fs = (self', fs', Ok ()) ->
  all_models self' = all_models self.
Proof.
  intros [Hnd Hin] H. unfold update in H.
  destruct (update_ccs _ (all_models self) (all_models self)) as [all r] eqn:E.
  destruct r as [[]| |]; inversion H; subst. simpl.
  eapply update_ccs_ok; [| exact E].
  intros c bms Hc. split; [apply dict_get_unique; assumption | eapply Hin, Hc].
Qed.

(** C2, the code at a failing input: loading a registry file that names
    an engine present on disk and one absent from it, [update] returns
    normally and both entries are still registered and written back. *)
Theorem reconcile_keeps_stale_entry :
  exists self' fs',
    init "model.json" "cc86" stale_fs = (self', fs', Ok ()) /\
    all_models self' = stale_registry /\
    map filepath (default [] (dict_get (available_models self') "sd15"))
    = ["sd15_cc86.trt"; "sd15_old_cc86.trt"] /\
    ~ In "sd15_old_cc86.trt" (listdir_trt stale_fs) /\
    read_json self' fs' = Ok stale_registry.
Proof.
  do 2 eexists. split; [vm_compute; reflexivity |].
  split; [reflexivity |]. split; [reflexivity |].
  split; [| vm_compute; reflexivity].
  simpl. intros [H | [H | []]]; discriminate H.
Qed.

(** When every engine of a base model is absent, [update] removes the
    key and then raises: the iteration over the dictionary it has just
    shrunk fails, nothing is written, and the keys that follow are not
    visited. *)
Lemma reconcile_empty_list_raises :
  exists self',
    init "model.json" "cc86" gone_fs = (self', gone_fs, Raise RuntimeError) /\
    map fst (available_models self') = ["sd15"] /\
    map filepath (default [] (dict_get (available_models self') "sd15"))
    = ["sd15_cc86.trt"; "sd15_old_cc86.trt"].
Proof.
  eexists. split; [vm_compute; reflexivity |]. split; reflexivity.
Qed.

(** ** Alignment *)

Lemma index_cases {A : Type} (l : list A) (i : nat) :
  (exists x, l !! i = Some x /\ index l i = Ok x) \/
  (l !! i = None /\ index l i = Raise IndexError).
Proof.
  unfold index. destruct (l !! i); eauto.
Qed.

Section Alignment.
Context {ndarray : Type}.
Implicit Types (nd refit_node : @node ndarray) (nodes refit_nodes : list (@node ndarray)).
Implicit Types (m : gmap string string).

Lemma name_map_inputs_raises refit_node i (inps : list (@tensor ndarray)) m :
  (name_map_inputs refit_node i inps m).2 = Ok () \/
  (name_map_inputs refit_node i inps m).2 = Raise IndexError.
Proof.
  revert i m. induction inps as [|inp inps IH]; intros i m; simpl; [auto |].
  destruct (is_Constant inp); [| apply IH].
  destruct (index_cases (inputs refit_node) i) as [(x & _ & ->) | [_ ->]];
    [apply IH | auto].
Qed.

Lemma name_map_node_raises nd refit_node m :
  (name_map_node nd refit_node m).2 = Ok () \/
  (name_map_node nd refit_node m).2 = Raise IndexError.
Proof.
  unfold name_map_node.
  destruct (String.eqb (op nd) "Constant").
  - destruct (index_cases (outputs nd) 0) as [(x & _ & ->) | [_ ->]]; [| auto].
    destruct (index_cases (outputs refit_node) 0) as [(y & _ & ->) | [_ ->]]; auto.
  - destruct (String.eqb (op nd) "Conv"); [| apply name_map_inputs_raises].
    destruct (index_cases (inputs nd) 1) as [(x & _ & ->) | [_ ->]]; [| auto].
    destruct (index_cases (inputs nd) 2) as [(y & _ & ->) | [_ ->]]; auto.
Qed.

Lemma name_map_loop_raises refit_nodes n nodes m :
  (name_map_loop refit_nodes n nodes m).2 = Ok () \/
  exists e, (name_map_loop refit_nodes n nodes m).2 = Raise e.
Proof.
  revert n m. induction nodes as [|nd nodes IH]; intros n m; simpl; [auto |].
  destruct (index_cases refit_nodes n) as [(r & _ & ->) | [_ ->]]; [| eauto].
  destruct (negb (String.eqb (op nd) (op r))); [eauto |].
  destruct (name_map_node nd r m) as [m' res] eqn:E.
  pose proof (name_map_node_raises nd r m) as H. rewrite E in H. simpl in H.
  destruct H as [-> | ->]; [apply IH | eauto].
Qed.

Lemma name_map_loop_app refit_nodes n (l1 l2 : list (@node ndarray)) m :
  name_map_loop refit_nodes n (l1 ++ l2) m
  = match name_map_loop refit_nodes n l1 m with
    | (m', Ok _) => name_map_loop refit_nodes (n + length l1) l2 m'
    | stopped => stopped
    end.
Proof.
  revert n m. induction l1 as [|nd l1 IH]; intros n m; simpl.
  - rewrite Nat.add_0_r. reflexivity.
  - destruct (index refit_nodes n) as [r| |]; try reflexivity.
    destruct (negb (String.eqb (op nd) (op r))); [reflexivity |].
    destruct (name_map_node nd r m) as [m' [[]| |]]; try reflexivity.
    rewrite IH. replace (S n + length l1)%nat with (n + S (length l1))%nat by lia.
    reflexivity.
Qed.

Lemma name_map_loop_mismatch refit_nodes nodes (i : nat) nd refit_node :
  nodes !! i = Some nd -> refit_nodes !! i = Some refit_node ->
  op nd <> op refit_node ->
  name_map_loop refit_nodes 0 nodes ∅
  = match name_map_loop refit_nodes 0 (take i nodes) ∅ with
    | (m', Ok _) => (m', Raise AssertionError)
    | stopped => stopped
    end.
Proof.
  intros Hnd Hr Hop.
  rewrite <- (take_drop_middle nodes i nd Hnd) at 1.
  rewrite name_map_loop_app.
  destruct (name_map_loop refit_nodes 0 (take i nodes) ∅) as [m' [[]| |]];
    try reflexivity.
  simpl. rewrite length_take.
  apply lookup_lt_Some in Hnd as Hlt.
  replace (i `min` length nodes)%nat with i by lia.
  unfold index. rewrite Hr.
  destruct (String.eqb_spec (op nd) (op refit_node)); [contradiction | reflexivity].
Qed.

Lemma name_map_loop_aligned refit_nodes n nodes m :
  (forall (i : nat) nd refit_node,
     nodes !! i = Some nd -> refit_nodes !! (n + i)%nat = Some refit_node ->
     op nd = op refit_node) ->
  (name_map_loop refit_nodes n nodes m).2 <> Raise AssertionError.
Proof.
  revert n m. induction nodes as [|nd nodes IH]; intros n m Hop; simpl;
    [discriminate |].
  destruct (index_cases refit_nodes n) as [(r & Hr & ->) | [_ ->]];
    [| discriminate].
  rewrite (Hop 0%nat nd r) by (rewrite ?Nat.add_0_r; auto).
  rewrite String.eqb_refl. simpl.
  destruct (name_map_node nd r m) as [m' res] eqn:E.
  pose proof (name_map_node_raises nd r m) as H. rewrite E in H. simpl in H.
  destruct H as [-> | ->]; [| discriminate].
  apply IH. intros i nd' r' Hi Hr'. apply (Hop (S i) nd' r'); [exact Hi |].
  replace (n + S i)%nat with (S n + i)%nat by lia. exact Hr'.
Qed.
End Alignment.

(** C8: if the nodes at some position of the two sorted graphs have
    different operator kinds, the alignment is left with an exception
    (the assertion failure, unless an earlier node already failed), the
    name map holds what the nodes before that position contributed and
    nothing of the nodes after it, and [refit] raises; if all aligned
    pairs have equal operator kinds, no assertion failure is raised. *)
Theorem alignment_operator_mismatch :
  (forall (ndarray : Type) (nodes refit_nodes : list (@node ndarray)) (i : nat)
          (nd refit_node : @node ndarray),
     nodes !! i = Some nd -> refit_nodes !! i = Some refit_node ->
     op nd <> op refit_node ->
     (exists e, (name_map_loop refit_nodes 0 nodes ∅).2 = Raise e) /\
     (name_map_loop refit_nodes 0 nodes ∅).1
     = (name_map_loop refit_nodes 0 (take i nodes) ∅).1 /\
     ((name_map_loop refit_nodes 0 (take i nodes) ∅).2 = Ok () ->
      (name_map_loop refit_nodes 0 nodes ∅).2 = Raise AssertionError) /\
     (forall is_int64_scalar np_int32 all_weights,
        exists e, refit is_int64_scalar np_int32 all_weights nodes refit_nodes
                  = Raise e))
  /\ (forall (ndarray : Type) (nodes refit_nodes : list (@node ndarray)),
        (forall (i : nat) nd refit_node,
           nodes !! i = Some nd -> refit_nodes !! i = Some refit_node ->
           op nd = op refit_node) ->
        (name_map_loop refit_nodes 0 nodes ∅).2 <> Raise AssertionError).
Proof.
  split.
  - intros ndarray nodes refit_nodes i nd refit_node Hnd Hr Hop.
    pose proof (name_map_loop_mismatch refit_nodes nodes i nd refit_node Hnd Hr Hop)
      as E.
    pose proof (name_map_loop_raises refit_nodes 0 (take i nodes) ∅) as Hpre.
    destruct (name_map_loop refit_nodes 0 (take i nodes) ∅) as [m' res].
    simpl in Hpre.
    assert (Hraise : exists e, (name_map_loop refit_nodes 0 nodes ∅).2 = Raise e).
    { rewrite E. destruct Hpre as [-> | [e ->]]; simpl; eauto. }
    split; [exact Hraise |]. split; [| split].
    + rewrite E. destruct res as [[]| |]; reflexivity.
    + simpl. intros ->. rewrite E. reflexivity.
    + intros f g aw. unfold refit. destruct Hraise as [e He].
      destruct (name_map_loop refit_nodes 0 nodes ∅) as [m'' res'']. simpl in He.
      subst res''. eauto.
  - intros ndarray nodes refit_nodes Hop.
    apply name_map_loop_aligned. exact Hop.
Qed.

(** The theorem at two graphs that differ in the kind of their second
    node, and at a graph aligned with itself. *)
Lemma alignment_operator_mismatch_witness :
  ((exists e, (name_map_loop constant_then_relu 0 two_constants ∅).2 = Raise e) /\
   (name_map_loop constant_then_relu 0 two_constants ∅).1
   = (name_map_loop constant_then_relu 0 (take 1 two_constants) ∅).1 /\
   ((name_map_loop constant_then_relu 0 (take 1 two_constants) ∅).2 = Ok () ->
    (name_map_loop constant_then_relu 0 two_constants ∅).2 = Raise AssertionError) /\
   (forall is_int64_scalar np_int32 all_weights,
      exists e, refit is_int64_scalar np_int32 all_weights two_constants
                  constant_then_relu = Raise e))
  /\ (name_map_loop two_constants 0 two_constants ∅).2 <> Raise AssertionError.
Proof.
  split.
  - apply (proj1 alignment_operator_mismatch Z two_constants constant_then_relu 1%nat
             (const_node "b" 1) relu_node).
    + reflexivity.
    + reflexivity.
    + simpl. discriminate.
  - apply (proj2 alignment_operator_mismatch Z two_constants two_constants).
    intros i nd r H1 H2. rewrite H1 in H2. inversion H2. reflexivity.
Defined.

(** ** The weight-update set *)

Section WeightSet.
Context {ndarray : Type}.
Context (f : ndarray -> bool) (g : ndarray -> ndarray).
Implicit Types (d : gmap string (option ndarray)) (m : gmap string string).
Implicit Types (st : @walk_state ndarray) (n : @node ndarray).

Lemma refit_dict_init_present (aw : list (string * WeightsRole)) d
    (c : string) (x : option ndarray) :
  d !! c = Some x -> c ∈ canonical_names aw ->
  refit_dict_init aw d = Raise AssertionError.
Proof.
  revert d. induction aw as [|[l r] aw IH]; intros d Hd Hin; simpl in *.
  - inversion Hin.
  - destruct (d !! change_trt_layer_name l r) eqn:E; [reflexivity |].
    apply elem_of_cons in Hin as [-> | Hin]; [congruence |].
    apply IH; [| exact Hin].
    rewrite lookup_insert_ne; [exact Hd | congruence].
Qed.

Lemma refit_dict_init_dup (aw : list (string * WeightsRole)) d :
  ~ NoDup (canonical_names aw) -> refit_dict_init aw d = Raise AssertionError.
Proof.
  revert d. induction aw as [|[l r] aw IH]; intros d Hnd; simpl in *.
  - exfalso. apply Hnd. constructor.
  - destruct (d !! change_trt_layer_name l r) eqn:E; [reflexivity |].
    destruct (decide (change_trt_layer_name l r ∈ canonical_names aw)) as [Hin | Hout].
    + eapply refit_dict_init_present; [apply lookup_insert_eq | exact Hin].
    + apply IH. intros Hnd'. apply Hnd. constructor; assumption.
Qed.

Lemma add_to_map_dup (c : string) (v old : ndarray) d :
  d !! c = Some (Some old) -> add_to_map f g c v d = Raise AssertionError.
Proof.
  intros H. unfold add_to_map. rewrite H. reflexivity.
Qed.

Lemma try_add_dup (c : string) (tn : string) (v old : ndarray) (msg : string) st :
  st.1 !! c = Some (Some old) ->
  try_add f g c (gs_Constant tn v) msg st = (st.1, (st.2 ++ [msg])%list).
Proof.
  intros H. unfold try_add. simpl. rewrite (add_to_map_dup c v old _ H). reflexivity.
Qed.

Lemma walk_inputs_app m (l1 l2 : list (@tensor ndarray)) st :
  walk_inputs f g m (l1 ++ l2) st
  = (st' ← walk_inputs f g m l1 st; walk_inputs f g m l2 st').
Proof.
  revert st. induction l1 as [|inp l1 IH]; intros st; simpl; [reflexivity |].
  destruct inp as [c v | c]; [| apply IH].
  destruct (add_to_map _ _ _ _ _); cbn [mbind result_bind]; auto.
Qed.

Lemma walk_nodes_app m (l1 l2 : list (@node ndarray)) st :
  walk_nodes f g m (l1 ++ l2) st
  = (st' ← walk_nodes f g m l1 st; walk_nodes f g m l2 st').
Proof.
  revert st. induction l1 as [|n l1 IH]; intros st; simpl; [reflexivity |].
  destruct (walk_node _ _ _ _ _); cbn [mbind result_bind]; auto.
Qed.

(** In the branches that wrap [add_to_map] in [try], no assertion
    failure leaves the node. *)
Lemma walk_node_caught m n st :
  op n = "Constant" \/ op n = "Conv" ->
  (exists st', walk_node f g m n st = Ok st') \/
  walk_node f g m n st = Raise IndexError.
Proof.
  intros Hop. unfold walk_node.
  destruct (String.eqb_spec (op n) "Constant") as [_ | Hc].
  - destruct (index_cases (outputs n) 0) as [(o & _ & ->) | [_ ->]];
      simpl; eauto.
  - destruct Hop as [Hop | Hop]; [contradiction |].
    rewrite Hop. simpl.
    destruct (index_cases (inputs n) 1) as [(k & _ & ->) | [_ ->]];
      simpl; [| auto].
    destruct (index_cases (inputs n) 2) as [(b & _ & ->) | [_ ->]];
      simpl; eauto.
Qed.

(** A value that is set survives every guarded write, and so does
    every line of the log. *)
Lemma try_add_keeps (c x : string) (t : @tensor ndarray) (msg : string)
    (old : ndarray) st :
  st.1 !! x = Some (Some old) ->
  (try_add f g c t msg st).1 !! x = Some (Some old).
Proof.
  intros H. unfold try_add. destruct t as [tn v | tn]; simpl; [| exact H].
  unfold add_to_map. destruct (st.1 !! c) as [[w |] |] eqn:E; simpl; try exact H.
  rewrite lookup_insert_ne; [exact H | congruence].
Qed.

Lemma try_add_log (c : string) (t : @tensor ndarray) (msg line : string) st :
  In line st.2 -> In line (try_add f g c t msg st).2.
Proof.
  intros H. unfold try_add.
  destruct (_ ← tensor_values t; _); simpl; try exact H;
    apply in_or_app; left; exact H.
Qed.

Lemma try_add_dup_log (c : string) (tn : string) (v old : ndarray) (msg : string) st :
  st.1 !! c = Some (Some old) ->
  In msg (try_add f g c (gs_Constant tn v) msg st).2.
Proof.
  intros H. rewrite (try_add_dup c tn v old msg st H). simpl.
  apply in_or_app. right. left. reflexivity.
Qed.

Lemma index_lookup {A : Type} (l : list A) (i : nat) (x : A) :
  l !! i = Some x -> index l i = Ok x.
Proof.
  unfold index. intros ->. reflexivity.
Qed.

(** A convolution whose kernel has been written already. *)
Lemma walk_node_conv_kernel m n (kc : string) (kv old : ndarray)
    (b : @tensor ndarray) st :
  op n = "Conv" ->
  inputs n !! 1%nat = Some (gs_Constant kc kv) -> inputs n !! 2%nat = Some b ->
  st.1 !! map_name m (name n ++ "_TRTKERNEL") = Some (Some old) ->
  exists st',
    walk_node f g m n st = Ok st' /\
    st'.1 !! map_name m (name n ++ "_TRTKERNEL") = Some (Some old) /\
    In ("Failed to add Conv " ++ map_name m (name n ++ "_TRTKERNEL") ++ newline)%string
       st'.2.
Proof.
  intros Hop Hk Hb Hold. unfold walk_node.
  rewrite Hop, (index_lookup _ _ _ Hk), (index_lookup _ _ _ Hb).
  cbn [String.eqb Ascii.eqb Bool.eqb mbind result_bind is_Constant].
  eexists. split; [reflexivity |].
  rewrite (try_add_dup _ kc kv old _ st Hold).
  destruct (is_Constant b).
  - split.
    + apply try_add_keeps. exact Hold.
    + apply try_add_log. simpl. apply in_or_app. right. left. reflexivity.
  - split; [exact Hold |]. simpl. apply in_or_app. right. left. reflexivity.
Qed.

(** A convolution whose bias has been written already. *)
Lemma walk_node_conv_bias m n (k : @tensor ndarray) (bc : string)
    (bv old : ndarray) st :
  op n = "Conv" ->
  inputs n !! 1%nat = Some k -> inputs n !! 2%nat = Some (gs_Constant bc bv) ->
  st.1 !! map_name m (name n ++ "_TRTBIAS") = Some (Some old) ->
  exists st',
    walk_node f g m n st = Ok st' /\
    st'.1 !! map_name m (name n ++ "_TRTBIAS") = Some (Some old) /\
    In ("Failed to add Conv " ++ map_name m (name n ++ "_TRTBIAS") ++ newline)%string
       st'.2.
Proof.
  intros Hop Hk Hb Hold. unfold walk_node.
  rewrite Hop, (index_lookup _ _ _ Hk), (index_lookup _ _ _ Hb).
  cbn [String.eqb Ascii.eqb Bool.eqb mbind result_bind is_Constant].
  eexists. split; [reflexivity |].
  set (st1 := if is_Constant k then _ else st).
  assert (H1 : st1.1 !! map_name m (name n ++ "_TRTBIAS") = Some (Some old)).
  { unfold st1. destruct (is_Constant k); [apply try_add_keeps |]; exact Hold. }
  split.
  - apply try_add_keeps. exact H1.
  - apply (try_add_dup_log _ bc bv old _ st1 H1).
Qed.
End WeightSet.

(** C7 (as amended): two engine (layer, role) pairs with one canonical
    name make [refit] raise the assertion failure; so does a second
    write of a canonical name by a node that is neither a
    constant-producer nor a convolution, and the failure leaves the walk.
    In a constant-producer or a convolution node the failure of a second
    write is caught: the value written first stays, an error is logged
    and the walk goes on, for the output of a constant-producer and for
    the kernel and the bias of a convolution. *)
Theorem refit_duplicate_names :
  (forall (ndarray : Type) (f : ndarray -> bool) (g : ndarray -> ndarray)
          (all_weights : list (string * WeightsRole))
          (nodes refit_nodes : list (@node ndarray)),
     (name_map_loop refit_nodes 0 nodes ∅).2 = Ok () ->
     ~ NoDup (canonical_names all_weights) ->
     refit f g all_weights nodes refit_nodes = Raise AssertionError)
  /\ (forall (ndarray : Type) (f : ndarray -> bool) (g : ndarray -> ndarray)
             (m : gmap string string) (n : @node ndarray)
             (pre post : list (@tensor ndarray)) (c : string) (v old : ndarray)
             (st st1 : @walk_state ndarray),
        op n <> "Constant" -> op n <> "Conv" ->
        inputs n = (pre ++ gs_Constant c v :: post)%list ->
        walk_inputs f g m pre st = Ok st1 ->
        st1.1 !! map_name m c = Some (Some old) ->
        walk_node f g m n st = Raise AssertionError /\
        forall (before after : list (@node ndarray)) (st0 : @walk_state ndarray),
          walk_nodes f g m before st0 = Ok st ->
          walk_nodes f g m (before ++ n :: after) st0 = Raise AssertionError)
  /\ (forall (ndarray : Type) (f : ndarray -> bool) (g : ndarray -> ndarray)
             (m : gmap string string) (n : @node ndarray) (st : @walk_state ndarray),
        op n = "Constant" \/ op n = "Conv" ->
        walk_node f g m n st <> Raise AssertionError)
  /\ (forall (ndarray : Type) (f : ndarray -> bool) (g : ndarray -> ndarray)
             (m : gmap string string) (n : @node ndarray) (c : string)
             (v old : ndarray) (rest : list (@tensor ndarray))
             (st : @walk_state ndarray),
        op n = "Constant" ->
        outputs n = gs_Constant c v :: rest ->
        st.1 !! map_name m c = Some (Some old) ->
        walk_node f g m n st
        = Ok (st.1,
              (st.2 ++ [("Failed to add Constant " ++ map_name m c ++ newline)%string])%list))
  /\ (forall (ndarray : Type) (f : ndarray -> bool) (g : ndarray -> ndarray)
             (m : gmap string string) (n : @node ndarray) (kc : string)
             (kv old : ndarray) (b : @tensor ndarray) (st : @walk_state ndarray),
        op n = "Conv" ->
        inputs n !! 1%nat = Some (gs_Constant kc kv) -> inputs n !! 2%nat = Some b ->
        st.1 !! map_name m (name n ++ "_TRTKERNEL") = Some (Some old) ->
        exists st',
          walk_node f g m n st = Ok st' /\
          st'.1 !! map_name m (name n ++ "_TRTKERNEL") = Some (Some old) /\
          In ("Failed to add Conv " ++ map_name m (name n ++ "_TRTKERNEL")
              ++ newline)%string st'.2)
  /\ (forall (ndarray : Type) (f : ndarray -> bool) (g : ndarray -> ndarray)
             (m : gmap string string) (n : @node ndarray) (k : @tensor ndarray)
             (bc : string) (bv old : ndarray) (st : @walk_state ndarray),
        op n = "Conv" ->
        inputs n !! 1%nat = Some k -> inputs n !! 2%nat = Some (gs_Constant bc bv) ->
        st.1 !! map_name m (name n ++ "_TRTBIAS") = Some (Some old) ->
        exists st',
          walk_node f g m n st = Ok st' /\
          st'.1 !! map_name m (name n ++ "_TRTBIAS") = Some (Some old) /\
          In ("Failed to add Conv " ++ map_name m (name n ++ "_TRTBIAS")
              ++ newline)%string st'.2).
Proof.
  split; [| split; [| split; [| split; [| split]]]].
  - intros ndarray f g aw nodes refit_nodes Hal Hdup. unfold refit.
    destruct (name_map_loop refit_nodes 0 nodes ∅) as [m res]. simpl in Hal.
    subst res. rewrite (refit_dict_init_dup aw ∅ Hdup). reflexivity.
  - intros ndarray f g m n pre post c v old st st1 Hc Hv Hin Hpre Hold.
    assert (Hn : walk_node f g m n st = Raise AssertionError).
    { unfold walk_node.
      destruct (String.eqb_spec (op n) "Constant"); [contradiction |].
      destruct (String.eqb_spec (op n) "Conv"); [contradiction |].
      rewrite Hin, walk_inputs_app, Hpre. simpl.
      rewrite (add_to_map_dup f g _ v old _ Hold). reflexivity. }
    split; [exact Hn |].
    intros before after st0 Hb.
    rewrite walk_nodes_app, Hb. simpl. rewrite Hn. reflexivity.
  - intros ndarray f g m n st Hop.
    destruct (walk_node_caught f g m n st Hop) as [[st' ->] | ->]; discriminate.
  - intros ndarray f g m n c v old rest st Hop Hout Hold.
    unfold walk_node. rewrite Hop, Hout. simpl.
    rewrite (try_add_dup f g _ c v old _ st Hold). reflexivity.
  - intros ndarray f g m n kc kv old b st. apply walk_node_conv_kernel.
  - intros ndarray f g m n k bc bv old st. apply walk_node_conv_bias.
Qed.

(** The theorem at an engine whose pairs (conv, KERNEL) and
    (conv_TRTKERNEL, CONSTANT) share a canonical name, and at nodes that
    write w a second time. *)
Lemma refit_duplicate_names_witness :
  refit (fun _ : Z => false) (fun x : Z => x)
    [("conv", KERNEL); ("conv_TRTKERNEL", CONSTANT)] two_constants two_constants
  = Raise AssertionError
  /\ (walk_node (fun _ : Z => false) (fun x : Z => x) ∅ add_node unset_w
      = Raise AssertionError /\
      forall (before after : list (@node Z)) (st0 : @walk_state Z),
        walk_nodes (fun _ : Z => false) (fun x : Z => x) ∅ before st0 = Ok unset_w ->
        walk_nodes (fun _ : Z => false) (fun x : Z => x) ∅ (before ++ add_node :: after) st0
        = Raise AssertionError)
  /\ walk_node (fun _ : Z => false) (fun x : Z => x) ∅ (const_node "w" 2) wrote_w
     <> Raise AssertionError
  /\ walk_node (fun _ : Z => false) (fun x : Z => x) ∅ (const_node "w" 2) wrote_w
     = Ok (wrote_w.1,
           (wrote_w.2 ++ [("Failed to add Constant " ++ map_name ∅ "w" ++ newline)%string])%list)
  /\ (exists st',
        walk_node (fun _ : Z => false) (fun x : Z => x) ∅ (conv_node 2) wrote_kernel
        = Ok st' /\
        st'.1 !! map_name ∅ (name (conv_node 2) ++ "_TRTKERNEL") = Some (Some 1) /\
        In ("Failed to add Conv " ++ map_name ∅ (name (conv_node 2) ++ "_TRTKERNEL")
            ++ newline)%string st'.2)
  /\ (exists st',
        walk_node (fun _ : Z => false) (fun x : Z => x) ∅ (conv_bias_node 2) wrote_bias
        = Ok st' /\
        st'.1 !! map_name ∅ (name (conv_bias_node 2) ++ "_TRTBIAS") = Some (Some 1) /\
        In ("Failed to add Conv " ++ map_name ∅ (name (conv_bias_node 2) ++ "_TRTBIAS")
            ++ newline)%string st'.2).
Proof.
  split; [| split; [| split; [| split; [| split]]]].
  - apply (proj1 refit_duplicate_names Z).
    + vm_compute. reflexivity.
    + intros H. apply NoDup_cons in H as [H _]. apply H. vm_compute. left.
  - apply (proj1 (proj2 refit_duplicate_names) Z _ _ ∅ add_node
             [gs_Constant "w" 1] [] "w" 2 1 unset_w wrote_w).
    + simpl. discriminate.
    + simpl. discriminate.
    + reflexivity.
    + vm_compute. reflexivity.
    + vm_compute. reflexivity.
  - apply (proj1 (proj2 (proj2 refit_duplicate_names)) Z).
    left. reflexivity.
  - apply (proj1 (proj2 (proj2 (proj2 refit_duplicate_names))) Z _ _ ∅
             (const_node "w" 2) "w" 2 1 [] wrote_w).
    + reflexivity.
    + reflexivity.
    + vm_compute. reflexivity.
  - apply (proj1 (proj2 (proj2 (proj2 (proj2 refit_duplicate_names)))) Z _ _ ∅
             (conv_node 2) "kernel" 2 1 (gs_Variable "bias") wrote_kernel).
    + reflexivity.
    + reflexivity.
    + reflexivity.
    + vm_compute. reflexivity.
  - apply (proj2 (proj2 (proj2 (proj2 (proj2 refit_duplicate_names)))) Z _ _ ∅
             (conv_bias_node 2) (gs_Variable "kernel") "bias" 2 1 wrote_bias).
    + reflexivity.
    + reflexivity.
    + reflexivity.
    + vm_compute. reflexivity.
Defined.

(** C7, counterexample: two constants of the refit graph resolve to the
    canonical name w, and two convolution kernels to conv_TRTKERNEL;
    [refit] does not raise, it keeps the first value and logs the
    failure of the second write. *)
Lemma duplicate_write_counterexample :
  (exists d log,
     refit (fun _ : Z => false) (fun x : Z => x) [("w", CONSTANT)]
       [const_node "w" 1; const_node "w" 1] [const_node "w" 1; const_node "w" 2]
     = Ok (d, log) /\
     d !! "w" = Some (Some 1) /\
     log = [("Failed to add Constant w" ++ newline)%string])
  /\ (exists d log,
        refit (fun _ : Z => false) (fun x : Z => x) [("conv", KERNEL)]
          [conv_node 1; conv_node 1] [conv_node 1; conv_node 2]
        = Ok (d, log) /\
        d !! "conv_TRTKERNEL" = Some (Some 1) /\
        log = [("Failed to add Conv conv_TRTKERNEL" ++ newline)%string]).
Proof.
  split; do 2 eexists; (split; [vm_compute; reflexivity |]);
    split; vm_compute; reflexivity.
Qed.

(** * Further properties *)

(** ** The matcher *)

Lemma gt_int_dim (shape : json) (i : nat) (n z : Z) :
  dim_of shape i = Ok z -> gt_int (getitem_int shape i) n = Ok (n <? z).
Proof.
  unfold gt_int, dim_of. destruct (getitem_int shape i) as [j| |]; cbn; try discriminate.
  destruct (as_int j); cbn; try discriminate. intros H. inversion H. reflexivity.
Qed.

Lemma lt_int_dim (shape : json) (i : nat) (n z : Z) :
  dim_of shape i = Ok z -> lt_int (getitem_int shape i) n = Ok (z <? n).
Proof.
  unfold lt_int, dim_of. destruct (getitem_int shape i) as [j| |]; cbn; try discriminate.
  destruct (as_int j); cbn; try discriminate. intros H. inversion H. reflexivity.
Qed.

Lemma abs_diff_dim (shape : json) (i : nat) (n z : Z) :
  dim_of shape i = Ok z -> abs_diff (getitem_int shape i) n = Ok (Z.abs (z - n)).
Proof.
  unfold abs_diff, dim_of. destruct (getitem_int shape i) as [j| |]; cbn; try discriminate.
  destruct (as_int j); cbn; try discriminate. intros H. inversion H. reflexivity.
Qed.

(** The scalar form on a profile whose compared dimensions are known. *)
Lemma is_compatible_resolved (self : ModelConfig) (w h b e : Z) (r : scalar_bounds) :
  reads_bounds self r ->
  is_compatible self w h b e
  = if within r w h b e
    then
      m ← float_of_int (Z.abs (max_height r - h / 8) + Z.abs (max_width r - w / 8));
      i ← float_of_int (Z.abs (opt_batch r - b * 2) + Z.abs (opt_height r - h / 8)
                        + Z.abs (opt_width r - w / 8));
      if 2 * float_max <=? round_to 53 (2 * i + m) then Unmodelled
      else Ok (true, halves (round_to 53 (2 * i + m)))
    else Ok (false, 0%Q).
Proof.
  unfold reads_bounds, profile_dim, is_compatible.
  intros (H1 & H2 & H3 & H4 & H5 & H6 & H7 & H8 & H9 & H10 & H11).
  destruct (getitem_str (profile self) "sample") as [sample| |];
    try discriminate H1. bind_step.
  destruct (getitem_str (profile self) "encoder_hidden_states") as [emb| |];
    try discriminate H10. bind_step.
  destruct (unpack3 sample) as [[[_min _opt] _max]| |]; try discriminate H1. bind_step.
  destruct (unpack3 emb) as [[[_min_em _opt_em] _max_em]| |]; try discriminate H10.
  bind_step.
  rewrite (gt_int_dim _ _ _ _ H1), (lt_int_dim _ _ _ _ H3),
    (gt_int_dim _ _ _ _ H4), (lt_int_dim _ _ _ _ H6),
    (gt_int_dim _ _ _ _ H7), (lt_int_dim _ _ _ _ H9),
    (gt_int_dim _ _ _ _ H10), (lt_int_dim _ _ _ _ H11).
  rewrite (abs_diff_dim _ _ _ _ H2), (abs_diff_dim _ _ _ _ H5),
    (abs_diff_dim _ _ _ _ H8), (abs_diff_dim _ _ _ _ H6), (abs_diff_dim _ _ _ _ H9).
  unfold within, por. cbn [mbind result_bind].
  rewrite !Z.leb_antisym.
  repeat match goal with
         | |- context [(?x <? ?y)] =>
             destruct (x <? y); cbn [mbind result_bind negb andb]
         end; reflexivity.
Qed.


Lemma is_compatible_within (self : ModelConfig) (r : scalar_bounds)
    (w h b e : Z) :
  reads_bounds self r ->
  min_batch r <= b * 2 <= max_batch r /\
  min_height r <= h / 8 <= max_height r /\
  min_width r <= w / 8 <= max_width r /\
  min_embedding r <= e <= max_embedding r ->
  scalar_halves r w h b e < 2 ^ 53 ->
  is_compatible self w h b e = Ok (true, halves (scalar_halves r w h b e)).
Proof.
  intros Hr H Hs. rewrite (is_compatible_resolved self w h b e r Hr). unfold within.
  repeat (rewrite (proj2 (Z.leb_le _ _)) by lia). cbn [andb].
  unfold scalar_halves in *.
  rewrite !float_of_int_exact by lia. bind_step.
  rewrite round_to_small by lia.
  pose proof float_max_large.
  assert (2 ^ 53 < 2 ^ 54) by (apply Z.pow_lt_mono_r; lia).
  rewrite (proj2 (Z.leb_gt _ _)) by lia. reflexivity.
Qed.




(** Above 2^53 the distance is the rounded sum: with opt 0 and max
    9007199254740993 for the width, the width 9007199254740993 gives
    9007199254740992, where the exact sum is 9007199254740993. *)
Lemma rounded_scalar_distance :
  let p := JDict [("sample",
                   JList [shape_json [0; 0; 0; 0]; shape_json [0; 0; 0; 0];
                          shape_json [0; 0; 0; 9007199254740993]]);
                  ("encoder_hidden_states",
                   JList [shape_json [0; 0; 0]; shape_json [0; 0; 0];
                          shape_json [0; 0; 0]])] in
  exists d, is_compatible (config_of_profile p) (9007199254740993 * 8) 0 0 0
            = Ok (true, d) /\ (d == 9007199254740992)%Q.
Proof.
  cbv zeta. eexists. split; [vm_compute; reflexivity | reflexivity].
Qed.

Lemma tensor_sum_ok (l : list Z) (s : Z) : tensor_sum l = Ok s -> s = tsum l.
Proof.
  unfold tensor_sum. destruct (_ <=? _); [| discriminate].
  intros H. inversion H. reflexivity.
Qed.

Lemma quarters_nonneg (n : Z) : 0 <= n -> (0 <= quarters n)%Q.
Proof.
  intros H. unfold quarters, Qle. simpl. lia.
Qed.

Lemma from_dict_loop_nonneg (self : ModelConfig) (feed_dict : feed)
    (d0 : Z) (v : bool) (d : Q) :
  0 <= d0 ->
  is_compatible_from_dict_loop self feed_dict d0 = Ok (v, d) -> (0 <= d)%Q.
Proof.
  revert d0. induction feed_dict as [|[k s] items IH]; intros d0 H0 H.
  - simpl in H. inversion H; subst. apply quarters_nonneg, H0.
  - cbn [is_compatible_from_dict_loop] in H.
    destruct (getitem_str (profile self) k) as [entry| |]; try discriminate H.
    bind_step_in H.
    destruct (unpack3 entry) as [[[x y] z]| |]; try discriminate H. bind_step_in H.
    destruct (Tensor (JList _)) as [v_tensor| |]; try discriminate H. bind_step_in H.
    destruct (Tensor z); try discriminate H. bind_step_in H.
    destruct (tsub _ v_tensor) as [r_min| |]; try discriminate H. bind_step_in H.
    destruct (Tensor y); try discriminate H. bind_step_in H.
    destruct (tsub _ v_tensor) as [d_opt| |]; try discriminate H. bind_step_in H.
    destruct (Tensor x); try discriminate H. bind_step_in H.
    destruct (tsub v_tensor _) as [r_max| |]; try discriminate H. bind_step_in H.
    destruct (any_neg r_min) eqn:E1;
      [inversion H; subst; apply quarters_nonneg, H0 |].
    destruct (any_neg r_max) eqn:E2;
      [inversion H; subst; apply quarters_nonneg, H0 |].
    cbn [orb] in H.
    destruct (tensor_sum (tabs d_opt)) as [s_opt| |] eqn:So; try discriminate H.
    bind_step_in H.
    destruct (tensor_sum r_max) as [s_max| |] eqn:Sx; try discriminate H.
    bind_step_in H.
    destruct (tensor_sum r_min) as [s_min| |] eqn:Sn; try discriminate H.
    bind_step_in H.
    apply tensor_sum_ok in So, Sx, Sn. subst s_opt s_max s_min.
    refine (IH _ _ H).
    pose proof (proj1 (any_neg_false _ E1)) as N1.
    pose proof (proj1 (any_neg_false _ E2)) as N2.
    pose proof (tsum_tabs_nonneg d_opt) as N3.
    assert (P : 0 < 24) by lia.
    assert (Ni : 0 <= round_to 24 (2 * tsum r_max + tsum r_min))
      by (apply round_to_nonneg; [exact P | lia]).
    assert (Nt : 0 <= round_to 24 (4 * tsum (tabs d_opt)
                                   + round_to 24 (2 * tsum r_max + tsum r_min)))
      by (apply round_to_nonneg; [exact P | lia]).
    apply round_to_nonneg; [exact P | lia].
Qed.

Lemma is_compatible_rejected (self : ModelConfig) (w h b e : Z) (d : Q) :
  is_compatible self w h b e = Ok (false, d) -> d = 0%Q.
Proof.
  unfold is_compatible. intros H.
  destruct (getitem_str (profile self) "sample") as [sample| |];
    try discriminate H. bind_step_in H.
  destruct (getitem_str (profile self) "encoder_hidden_states") as [emb| |];
    try discriminate H. bind_step_in H.
  destruct (unpack3 sample) as [[[_min _opt] _max]| |]; try discriminate H.
  bind_step_in H.
  destruct (unpack3 emb) as [[[_min_em _opt_em] _max_em]| |]; try discriminate H.
  bind_step_in H.
  match type of H with
  | context [mbind _ ?c] => destruct c as [[|]| |]
  end; try discriminate H; bind_step_in H.
  - inversion H. reflexivity.
  - repeat match type of H with
           | context [abs_diff ?x ?n] =>
               destruct (abs_diff x n); try discriminate H; bind_step_in H
           end.
    repeat match type of H with
           | context [float_of_int ?n] =>
               destruct (float_of_int n); try discriminate H; bind_step_in H
           end.
    destruct (2 * float_max <=? _); discriminate H.
Qed.

(** X2: no distance the matcher returns is negative, whether the
    request is accepted or rejected, in the scalar form and in the
    dictionary form. *)
Theorem distance_nonneg :
  (forall (self : ModelConfig) (w h b e : Z) (v : bool) (d : Q),
     is_compatible self w h b e = Ok (v, d) -> (0 <= d)%Q)
  /\ (forall (self : ModelConfig) (feed_dict : feed) (v : bool) (d : Q),
        is_compatible_from_dict self feed_dict = Ok (v, d) -> (0 <= d)%Q).
Proof.
  split.
  - intros self w h b e [|] d H.
    + destruct (is_compatible_accepted self w h b e d H)
        as (o0 & o2 & o3 & m2 & m3 & _ & _ & _ & _ & _ & _ & _ & ->).
      assert (P : 0 < 53) by lia.
      assert (Ni : 0 <= round_to 53 (Z.abs (o0 - b * 2) + Z.abs (o2 - h / 8)
                                     + Z.abs (o3 - w / 8)))
        by (apply round_to_nonneg; [exact P | lia]).
      assert (Nm : 0 <= round_to 53 (Z.abs (m2 - h / 8) + Z.abs (m3 - w / 8)))
        by (apply round_to_nonneg; [exact P | lia]).
      apply Qle_trans with (halves 0); [unfold halves, Qle; simpl; lia |].
      apply halves_le. apply round_to_nonneg; [exact P | lia].
    + rewrite (is_compatible_rejected self w h b e d H). apply Qle_refl.
  - intros self feed_dict v d H.
    apply (from_dict_loop_nonneg self feed_dict 0 v d); [lia | exact H].
Qed.

(** The theorem at the scenario's profile. *)
Lemma distance_nonneg_witness :
  (0 <= 64 # 2)%Q /\ (0 <= 68 # 4)%Q.
Proof.
  split.
  - apply (proj1 distance_nonneg scenario_config_full 512 512 1 77 true).
    vm_compute. reflexivity.
  - apply (proj2 distance_nonneg scenario_config_full scenario_feed true).
    vm_compute. reflexivity.
Defined.

Lemma flat_ints_dim_of (j : json) (l : list Z) (i : nat) (z : Z) :
  flat_ints j = Ok l -> l !! i = Some z -> dim_of j i = Ok z.
Proof.
  unfold flat_ints, dim_of. destruct j as [| | | |js|]; try discriminate.
  destruct (int_list js) as [l'|] eqn:E; [| discriminate].
  intros H. inversion H; subst l'. clear H. revert l i E.
  induction js as [|x js IH]; intros l i E Hi; simpl in E.
  - inversion E; subst. destruct i; discriminate Hi.
  - destruct x; try discriminate E.
    destruct (int_list js) as [l'|]; [| discriminate E].
    inversion E; subst l. destruct i as [|i]; simpl in *.
    + inversion Hi. reflexivity.
    + apply (IH l' i eq_refl Hi).
Qed.

Lemma shape_profile_dims (self : ModelConfig) (k : string) (mn op mx : list Z)
    (i : nat) :
  shape_profile self k = Ok (mn, op, mx) ->
  (forall z, mn !! i = Some z -> profile_dim self k Min i = Ok z) /\
  (forall z, op !! i = Some z -> profile_dim self k Opt i = Ok z) /\
  (forall z, mx !! i = Some z -> profile_dim self k Max i = Ok z).
Proof.
  unfold shape_profile, profile_dim. intros H.
  destruct (getitem_str (profile self) k) as [entry| |]; try discriminate H.
  bind_step.
  destruct (unpack3 entry) as [[[a b] c]| |]; try discriminate H. bind_step.
  destruct (flat_ints c) as [tc| |] eqn:Ec; try discriminate H. bind_step.
  destruct (flat_ints b) as [tb| |] eqn:Eb; try discriminate H. bind_step.
  destruct (flat_ints a) as [ta| |] eqn:Ea; try discriminate H. bind_step.
  inversion H; subst ta tb tc.
  repeat split; intros z Hz; eapply flat_ints_dim_of; eassumption.
Qed.

Lemma no_violation_bounds (mn mx v : list Z) (i : nat) (x a b : Z) :
  ~ dim_violation mn mx v ->
  v !! i = Some x -> mn !! i = Some a -> mx !! i = Some b -> a <= x <= b.
Proof.
  intros Hnv Hx Ha Hb. split.
  - destruct (Z.le_gt_cases a x) as [H | H]; [exact H |].
    exfalso. apply Hnv. exists i, x, a. split; [exact Hx | right; split; [exact Ha | lia]].
  - destruct (Z.le_gt_cases x b) as [H | H]; [exact H |].
    exfalso. apply Hnv. exists i, x, b. split; [exact Hx | left; split; [exact Hb | lia]].
Qed.

Lemma spread_In (self : ModelConfig) (feed_dict : feed) (k : string) (v : list Z)
    (mn op mx : list Z) :
  In (k, v) feed_dict -> shape_profile self k = Ok (mn, op, mx) ->
  spread_dims mn op mx v <= spread self feed_dict.
Proof.
  intros Hin Hp. induction feed_dict as [|[k' v'] rest IH]; [destruct Hin |].
  simpl. pose proof (spread_nonneg self rest).
  destruct Hin as [Heq | Hin].
  - inversion Heq; subst. rewrite Hp. lia.
  - specialize (IH Hin).
    destruct (shape_profile self k') as [[[a b] c]| |]; try lia.
    pose proof (spread_dims_nonneg a b c v'). lia.
Qed.

Lemma accepted_input_in_range (self : ModelConfig) (feed_dict : feed) (d : Q)
    (k : string) (v : list Z) :
  well_ranked self feed_dict ->
  in_float32_range self feed_dict ->
  is_compatible_from_dict self feed_dict = Ok (true, d) ->
  In (k, v) feed_dict ->
  exists mn op mx,
    shape_profile self k = Ok (mn, op, mx) /\
    length mn = length v /\ length op = length v /\ length mx = length v /\
    ~ dim_violation mn mx v /\ spread_dims mn op mx v <= 2 ^ 20.
Proof.
  intros Hwf Hr H Hin.
  destruct (from_dict_accepted self feed_dict d Hwf Hr H) as [Hout _].
  unfold well_ranked in Hwf. rewrite List.Forall_forall in Hwf.
  specialize (Hwf _ Hin). unfold same_rank in Hwf. simpl in Hwf.
  destruct (shape_profile self k) as [[[mn op] mx]| |] eqn:Hp; try contradiction.
  destruct Hwf as (H1 & H2 & H3).
  exists mn, op, mx. repeat split; try assumption.
  - intros Hv. apply Hout. unfold out_of_range. rewrite List.Exists_exists.
    exists (k, v). split; [exact Hin |]. simpl. rewrite Hp. exact Hv.
  - pose proof (spread_In self feed_dict k v mn op mx Hin Hp).
    destruct Hr as [_ Hr]. lia.
Qed.

(** X3: within the range in which float32 is exact, the dictionary form
    is the stricter of the two: if it accepts a request of the profile's
    rank with a sample tensor of shape [B, C, H, W] and an embedding
    tensor of shape [B', E, ...], the scalar form accepts every scalar
    request that derives batch B, height H, width W and embedding
    length E. *)
Theorem from_dict_accepts_is_compatible_accepts (self : ModelConfig)
    (feed_dict : feed) (d : Q) (B C H W B' E : Z) (tl : list Z) (w h b e : Z) :
  well_ranked self feed_dict ->
  in_float32_range self feed_dict ->
  is_compatible_from_dict self feed_dict = Ok (true, d) ->
  In ("sample", [B; C; H; W]) feed_dict ->
  In ("encoder_hidden_states", B' :: E :: tl) feed_dict ->
  b * 2 = B -> h / 8 = H -> w / 8 = W -> e = E ->
  exists d', is_compatible self w h b e = Ok (true, d').
Proof.
  intros Hwf Hrg Hacc Hs He Hb Hh Hw He'.
  destruct (accepted_input_in_range self feed_dict d _ _ Hwf Hrg Hacc Hs)
    as (mn & op & mx & Hp & L1 & L2 & L3 & Hnv & Hsp).
  destruct (accepted_input_in_range self feed_dict d _ _ Hwf Hrg Hacc He)
    as (en & eo & ex & Hq & M1 & M2 & M3 & Hne & _).
  destruct mn as [|n0 [|n1 [|n2 [|n3 [|]]]]]; try discriminate L1.
  destruct op as [|o0 [|o1 [|o2 [|o3 [|]]]]]; try discriminate L2.
  destruct mx as [|x0 [|x1 [|x2 [|x3 [|]]]]]; try discriminate L3.
  destruct en as [|en0 [|en1 en]]; try discriminate M1.
  destruct ex as [|ex0 [|ex1 ex]]; try discriminate M3.
  set (r := {| min_batch := n0; opt_batch := o0; max_batch := x0;
               min_height := n2; opt_height := o2; max_height := x2;
               min_width := n3; opt_width := o3; max_width := x3;
               min_embedding := en1; max_embedding := ex1 |}).
  assert (Hr : reads_bounds self r).
  { unfold reads_bounds, r. simpl.
    repeat split;
      first [ apply (proj1 (shape_profile_dims _ _ _ _ _ _ Hp)); reflexivity
            | apply (proj1 (proj2 (shape_profile_dims _ _ _ _ _ _ Hp))); reflexivity
            | apply (proj2 (proj2 (shape_profile_dims _ _ _ _ _ _ Hp))); reflexivity
            | apply (proj1 (shape_profile_dims _ _ _ _ _ _ Hq)); reflexivity
            | apply (proj2 (proj2 (shape_profile_dims _ _ _ _ _ _ Hq))); reflexivity ]. }
  exists (halves (scalar_halves r w h b e)).
  pose proof (no_violation_bounds _ _ _ 0%nat B n0 x0 Hnv eq_refl eq_refl eq_refl).
  pose proof (no_violation_bounds _ _ _ 2%nat H n2 x2 Hnv eq_refl eq_refl eq_refl).
  pose proof (no_violation_bounds _ _ _ 3%nat W n3 x3 Hnv eq_refl eq_refl eq_refl).
  pose proof (no_violation_bounds _ _ _ 1%nat E en1 ex1 Hne eq_refl eq_refl eq_refl).
  apply (is_compatible_within self r w h b e Hr).
  - unfold r. simpl. lia.
  - unfold scalar_halves, r. cbn [opt_batch opt_height opt_width max_height max_width].
    unfold spread_dims in Hsp. cbn [zip_with_Z tabs map tsum fold_right] in Hsp.
    assert (P20 : 2 ^ 20 = 1048576) by reflexivity.
    assert (P53 : 2 ^ 53 = 9007199254740992) by reflexivity.
    subst B H W. lia.
Qed.

(** The theorem at the scenario's profile. *)
Lemma from_dict_accepts_is_compatible_accepts_witness :
  exists d', is_compatible scenario_config_full 512 512 1 77 = Ok (true, d').
Proof.
  eapply (from_dict_accepts_is_compatible_accepts scenario_config_full
            [("sample", [2; 4; 64; 64]); ("encoder_hidden_states", [2; 77; 768])]
            _ 2 4 64 64 2 77 [768] 512 512 1 77).
  - repeat constructor.
  - split; [repeat constructor; vm_compute; discriminate | vm_compute; discriminate].
  - vm_compute. reflexivity.
  - left. reflexivity.
  - right. left. reflexivity.
  - reflexivity.
  - reflexivity.
  - reflexivity.
  - reflexivity.
Defined.

(** Outside the range the dictionary form accepts what the scalar form
    rejects: with max height 16777216 the height 16777217 is, as a
    float32, within the bound. *)
Lemma rounded_request_scalar_rejects :
  let p := JDict [("sample",
                   JList [shape_json [1; 4; 64; 64]; shape_json [2; 4; 64; 64];
                          shape_json [4; 4; 16777216; 96]]);
                  ("encoder_hidden_states",
                   JList [shape_json [2; 77; 768]; shape_json [2; 77; 768];
                          shape_json [8; 154; 768]])] in
  let self := config_of_profile p in
  (exists d, is_compatible_from_dict self
               [("sample", [2; 4; 16777217; 64]);
                ("encoder_hidden_states", [2; 77; 768])] = Ok (true, d)) /\
  is_compatible self 512 (16777217 * 8) 1 77 = Ok (false, 0%Q).
Proof.
  cbv zeta. split; [eexists; vm_compute; reflexivity | vm_compute; reflexivity].
Qed.

(** ** The registry *)

Lemma dict_set_nonempty {V : Type} (d : list (string * V)) (k : string) (v : V) :
  dict_set d k v <> [].
Proof.
  destruct d as [|[k' v'] d]; simpl; [discriminate |].
  destruct (String.eqb k' k); discriminate.
Qed.

Lemma update_filter_empty (trt : list string) (models : list entry)
    (acc : list (string * entry)) :
  update_filter trt models acc = [] <->
  acc = [] /\ existsb (fun e => existsb (String.eqb (filepath e)) trt) models = false.
Proof.
  revert acc. induction models as [|e models IH]; intros acc; simpl.
  - tauto.
  - destruct (existsb (String.eqb (filepath e)) trt); simpl.
    + rewrite IH. split; [intros [H _]; destruct (dict_set_nonempty _ _ _ H) | intros [_ H]; discriminate].
    + apply IH.
Qed.

Lemma update_filter_length (fs : FS) (models : list entry) :
  (length (map snd (update_filter (trt_engines fs) models [])) =? 0)%nat
  = negb (has_engine fs models).
Proof.
  unfold has_engine, on_disk.
  destruct (existsb _ models) eqn:E; simpl.
  - destruct (update_filter (trt_engines fs) models []) eqn:F; [| reflexivity].
    apply update_filter_empty in F. destruct F as [_ F]. congruence.
  - assert (F : update_filter (trt_engines fs) models [] = [])
      by (apply update_filter_empty; auto).
    rewrite F. reflexivity.
Qed.

Lemma update_base_models_outcome (fs : FS)
    (items live : list (string * list entry)) :
  (update_base_models (trt_engines fs) items live).2
  = if forallb (fun kv => has_engine fs kv.2) items then Ok () else Raise RuntimeError.
Proof.
  revert live. induction items as [|[bm models] items IH]; intros live; simpl.
  - reflexivity.
  - rewrite update_filter_length. destruct (has_engine fs models); simpl; auto.
Qed.

Lemma update_ccs_outcome (fs : FS) (items all : registry) :
  (update_ccs (trt_engines fs) items all).2
  = if forallb (fun cb => forallb (fun kv => has_engine fs kv.2) cb.2) items
    then Ok () else Raise RuntimeError.
Proof.
  revert all. induction items as [|[c bms] items IH]; intros all; simpl.
  - reflexivity.
  - pose proof (update_base_models_outcome fs bms bms) as H.
    destruct (update_base_models (trt_engines fs) bms bms) as [live r].
    simpl in H. subst r.
    destruct (forallb (fun kv => has_engine fs kv.2) bms); simpl; auto.
Qed.

Lemma all_have_engine (fs : FS) (r : registry) :
  forallb (fun cb => forallb (fun kv => has_engine fs kv.2) cb.2) r = true
  <-> forall es, stored r es -> has_engine fs es = true.
Proof.
  rewrite forallb_forall. split.
  - intros H es (c & bms & bm & Hc & Hb).
    specialize (H _ Hc). simpl in H. rewrite forallb_forall in H.
    apply (H _ Hb).
  - intros H [c bms] Hc. simpl. rewrite forallb_forall. intros [bm es] Hb.
    apply H. exists c, bms, bm. auto.
Qed.

Lemma update_returns (self : ModelManager) (fs : FS) :
  (forall es, stored (all_models self) es -> has_engine fs es = true) ->
  exists self', update self fs = (self', write_json self' fs, Ok ()).
Proof.
  intros Hall. unfold update. fold (trt_engines fs).
  pose proof (update_ccs_outcome fs (all_models self) (all_models self)) as H.
  destruct (update_ccs (trt_engines fs) (all_models self) (all_models self))
    as [all r].
  simpl in H. subst r.
  rewrite (proj2 (all_have_engine fs (all_models self)) Hall). eauto.
Qed.

(** X4: [update] returns exactly when every registered entry list has
    an entry whose file is among the [.trt] names of the directory; it
    then writes the registry file. Otherwise (a list that is empty, or
    whose engines are all absent) it raises [RuntimeError] and the
    registry file is left as it was. *)
Theorem update_outcome (self : ModelManager) (fs : FS) :
  ((forall es, stored (all_models self) es -> has_engine fs es = true) ->
   exists self', update self fs = (self', write_json self' fs, Ok ()))
  /\ ((exists es, stored (all_models self) es /\ has_engine fs es = false) ->
      exists self', update self fs = (self', fs, Raise RuntimeError)).
Proof.
  split; [apply update_returns |].
  intros (es & Hs & He). unfold update. fold (trt_engines fs).
  pose proof (update_ccs_outcome fs (all_models self) (all_models self)) as H.
  destruct (update_ccs (trt_engines fs) (all_models self) (all_models self))
    as [all r].
  simpl in H. subst r.
  destruct (forallb _ (all_models self)) eqn:E; [| eauto].
  rewrite (proj1 (all_have_engine fs (all_models self)) E es Hs) in He.
  discriminate He.
Qed.

(** The theorem at a registry whose one list has an engine on disk, and
    at one with a base model whose engine is absent. *)
Lemma update_outcome_witness :
  (exists self', update (set_all_models empty_manager stale_registry) stale_fs
                 = (self', write_json self' stale_fs, Ok ()))
  /\ (exists self', update (set_all_models empty_manager gone_registry) gone_fs
                    = (self', gone_fs, Raise RuntimeError)).
Proof.
  split.
  - apply (proj1 (update_outcome (set_all_models empty_manager stale_registry) stale_fs)).
    intros es (c & bms & bm & [Hc | []] & Hb). inversion Hc; subst.
    destruct Hb as [Hb | []]. inversion Hb; subst. reflexivity.
  - apply (proj2 (update_outcome (set_all_models empty_manager gone_registry) gone_fs)).
    exists [scenario_entry "gone_cc86.trt"]. split; [| reflexivity].
    exists "cc86". eexists. exists "gone". split; apply dict_get_In; reflexivity.
Defined.

Lemma dict_set_set {V : Type} (d : list (string * V)) (k : string) (v v' : V) :
  dict_set (dict_set d k v) k v' = dict_set d k v'.
Proof.
  induction d as [|[k0 v0] d IH]; simpl.
  - rewrite String.eqb_refl. reflexivity.
  - destruct (String.eqb k0 k) eqn:E; simpl; rewrite E; [reflexivity |].
    rewrite IH. reflexivity.
Qed.

(** X5: when [update] returns, running it again changes nothing: it
    returns again, with the same registry and the same file. *)
Theorem update_idempotent (self self' : ModelManager) (fs fs' : FS) :
  unique_keys (all_models self) ->
  update self fs = (self', fs', Ok ()) ->
  update self' fs' = (self', fs', Ok ()).
Proof.
  intros Hu H.
  pose proof (update_returns_unchanged self self' fs fs' Hu H) as Hall.
  unfold update in H.
  destruct (update_ccs _ (all_models self) (all_models self)) as [all r] eqn:E.
  destruct r as [[]| |]; inversion H; subst self' fs'. clear H.
  simpl in Hall. subst all.
  unfold update. cbn [all_models set_all_models write_json listdir_trt].
  rewrite E. unfold set_all_models, write_json. simpl.
  rewrite dict_set_set. reflexivity.
Qed.

Lemma stale_registry_unique : unique_keys stale_registry.
Proof.
  split.
  - repeat constructor. simpl. tauto.
  - intros c bms [H | []]. inversion H; subst. repeat constructor. simpl. tauto.
Qed.

(** The theorem at a registry whose list has an engine on disk. *)
Lemma update_idempotent_witness :
  let first := update (set_all_models empty_manager stale_registry) stale_fs in
  update first.1.1 first.1.2 = (first.1.1, first.1.2, Ok ()).
Proof.
  apply (update_idempotent (set_all_models empty_manager stale_registry) _ stale_fs).
  - exact stale_registry_unique.
  - vm_compute. reflexivity.
Defined.

Lemma written_file_reads_back (self : ModelManager) (fs : FS) :
  read_json self (write_json self fs) = Ok (all_models self).
Proof.
  unfold read_json, write_json. simpl. rewrite dict_get_set_eq.
  pose proof (read_ccs_registry (all_models self)) as H.
  destruct (registry_json (all_models self)); try contradiction. exact H.
Qed.

Lemma update_file (self self' : ModelManager) (fs fs' : FS) (out : result ()) :
  update self fs = (self', fs', out) ->
  (out = Ok () -> fs' = write_json self' fs) /\ (out <> Ok () -> fs' = fs).
Proof.
  unfold update.
  destruct (update_ccs _ (all_models self) (all_models self)) as [all r].
  destruct r as [[]| |]; intros E; inversion E; subst; split; intros H;
    try reflexivity; try discriminate H; contradiction.
Qed.

Lemma add_entry_file (D : string) (self self' : ModelManager) (fs fs' : FS)
    (n : string) (p s f bm i r v u l : json) (out : result ()) :
  add_entry D self fs n p s f bm i r v u l = (self', fs', out) ->
  (out = Ok () -> fs' = write_json self' fs) /\
  (out <> Ok () -> fs' = fs /\ self' = self).
Proof.
  unfold add_entry.
  destruct (get_trt_path D self n p s) as [[a b]| |]; intros E; inversion E; subst;
    split; intros H; try reflexivity; try discriminate H; try contradiction; auto.
Qed.

Lemma add_lora_entry_file (self self' : ModelManager) (fs fs' : FS)
    (base lora_name path : string) (f bm i v u : json) (out : result ()) :
  add_lora_entry self fs base lora_name path f bm i v u = (self', fs', out) ->
  (out = Ok () -> fs' = write_json self' fs) /\
  (out <> Ok () -> fs' = fs /\ self' = self).
Proof.
  unfold add_lora_entry.
  destruct (dict_get (all_models self) (cc self)); intros E; inversion E; subst;
    split; intros H; try reflexivity; try discriminate H; try contradiction; auto.
Qed.

(** X6: after [update], [add_entry] or [add_lora_entry] has returned,
    the registry file holds the registry in memory: reading it gives
    [all_models] back. When one of them raises, the file is as it was,
    and for the two additions so is the registry in memory. *)
Theorem registry_file_in_sync :
  (forall (self self' : ModelManager) (fs fs' : FS) (out : result ()),
     update self fs = (self', fs', out) ->
     (out = Ok () -> read_json self' fs' = Ok (all_models self')) /\
     (out <> Ok () -> fs' = fs))
  /\ (forall (D : string) (self self' : ModelManager) (fs fs' : FS) (n : string)
             (p s f bm i r v u l : json) (out : result ()),
        add_entry D self fs n p s f bm i r v u l = (self', fs', out) ->
        (out = Ok () -> read_json self' fs' = Ok (all_models self')) /\
        (out <> Ok () -> fs' = fs /\ self' = self))
  /\ (forall (self self' : ModelManager) (fs fs' : FS)
             (base lora_name path : string) (f bm i v u : json) (out : result ()),
        add_lora_entry self fs base lora_name path f bm i v u = (self', fs', out) ->
        (out = Ok () -> read_json self' fs' = Ok (all_models self')) /\
        (out <> Ok () -> fs' = fs /\ self' = self)).
Proof.
  split; [| split].
  - intros self self' fs fs' out H.
    destruct (update_file _ _ _ _ _ H) as [F1 F2].
    split; [| exact F2].
    intros Hok. rewrite (F1 Hok). apply written_file_reads_back.
  - intros D self self' fs fs' n p s f bm i r v u l out H.
    destruct (add_entry_file _ _ _ _ _ _ _ _ _ _ _ _ _ _ _ _ H) as [F1 F2].
    split; [| exact F2].
    intros Hok. rewrite (F1 Hok). apply written_file_reads_back.
  - intros self self' fs fs' base lora_name path f bm i v u out H.
    destruct (add_lora_entry_file _ _ _ _ _ _ _ _ _ _ _ _ _ H) as [F1 F2].
    split; [| exact F2].
    intros Hok. rewrite (F1 Hok). apply written_file_reads_back.
Qed.

(** The theorem at an update that raises, an addition that returns and
    an adapter addition under a tag that is not registered. *)
Lemma registry_file_in_sync_witness :
  (update (set_all_models empty_manager gone_registry) gone_fs).1.2 = gone_fs
  /\ read_json (add_scenario_entry empty_manager empty_fs).1.1
       (add_scenario_entry empty_manager empty_fs).1.2
     = Ok (all_models (add_scenario_entry empty_manager empty_fs).1.1)
  /\ ((add_lora_entry empty_manager empty_fs "sd15" "style" "style_cc86.trt"
         (JBool false) (JStr "SD15") (JBool false) (JInt 0) (JInt 4)).1.2 = empty_fs
      /\ (add_lora_entry empty_manager empty_fs "sd15" "style" "style_cc86.trt"
            (JBool false) (JStr "SD15") (JBool false) (JInt 0) (JInt 4)).1.1
         = empty_manager).
Proof.
  split; [| split].
  - refine (proj2 (proj1 registry_file_in_sync
                     (set_all_models empty_manager gone_registry)
                     (update (set_all_models empty_manager gone_registry) gone_fs).1.1
                     gone_fs
                     (update (set_all_models empty_manager gone_registry) gone_fs).1.2
                     (Raise RuntimeError) _) _);
      [vm_compute; reflexivity | discriminate].
  - refine (proj1 (proj1 (proj2 registry_file_in_sync) "/Unet-trt" empty_manager
                     (add_scenario_entry empty_manager empty_fs).1.1 empty_fs
                     (add_scenario_entry empty_manager empty_fs).1.2
                     "sd15" (profile scenario_config_full)
                     (JBool false) (JBool false) (JStr "SD15") (JBool false)
                     (JBool true) (JInt 0) (JInt 4) (JBool false) (Ok ()) _) _);
      [vm_compute; reflexivity | reflexivity].
  - refine (proj2 (proj2 (proj2 registry_file_in_sync) empty_manager _ empty_fs _
                     "sd15" "style" "style_cc86.trt" (JBool false) (JStr "SD15")
                     (JBool false) (JInt 0) (JInt 4) (Raise KeyError) _) _);
      [vm_compute; reflexivity | discriminate].
Defined.

Lemma dict_get_set_ne {V : Type} (d : list (string * V)) (k k' : string) (v : V) :
  k <> k' -> dict_get (dict_set d k v) k' = dict_get d k'.
Proof.
  intros Hne. induction d as [|[k0 v0] d IH]; simpl.
  - destruct (String.eqb_spec k k'); [contradiction | reflexivity].
  - destruct (String.eqb_spec k0 k) as [-> |]; simpl.
    + destruct (String.eqb_spec k k'); [contradiction | reflexivity].
    + destruct (String.eqb_spec k0 k'); [reflexivity | exact IH].
Qed.

(** X7: after [add_entry] has returned, the list under the model name
    (and the current tag) is the list that was there, empty if there was
    none, followed by the new entry; the lists of the other base models
    and everything under the other tags are as before. *)
Theorem add_entry_lookup (D : string) (self self' : ModelManager) (fs fs' : FS)
    (n : string) (p s f bm i r v u l : json) :
  add_entry D self fs n p s f bm i r v u l = (self', fs', Ok ()) ->
  dict_get (available_models self') n
  = Some (default [] (dict_get (available_models self) n)
          ++ [Build_entry (n ++ "_" ++ cc self ++ ".trt") None
                (Build_ModelConfig p s f bm i r l v u)])%list
  /\ (forall n', n' <> n ->
        dict_get (available_models self') n' = dict_get (available_models self) n')
  /\ (forall c, c <> cc self ->
        dict_get (all_models self') c = dict_get (all_models self) c).
Proof.
  unfold add_entry, available_models.
  destruct (get_trt_path D self n p s) as [[a b]| |] eqn:Hp; try discriminate.
  apply get_trt_path_name in Hp. subst a.
  intros H. inversion H; subst self' fs'. clear H.
  cbn [all_models set_all_models cc].
  destruct (dict_get (all_models self) (cc self)) as [under|] eqn:Hcc.
  - rewrite Hcc. cbn [default from_option id].
    rewrite dict_get_set_eq. cbn [default from_option id].
    destruct (dict_get under n) as [models|] eqn:Hn.
    + rewrite Hn. cbn [default from_option id]. rewrite dict_get_set_eq.
      split; [reflexivity |]. split.
      * intros n' Hne. apply dict_get_set_ne. congruence.
      * intros c Hc. apply dict_get_set_ne. congruence.
    + rewrite !dict_get_set_eq. cbn [default from_option id].
      split; [reflexivity |]. split.
      * intros n' Hne. rewrite !dict_get_set_ne by congruence. reflexivity.
      * intros c Hc. apply dict_get_set_ne. congruence.
  - rewrite !dict_get_set_eq. cbn [default from_option id dict_get dict_set].
    rewrite !String.eqb_refl. cbn [default from_option id dict_get].
    rewrite !String.eqb_refl.
    split; [reflexivity |]. split.
    + intros n' Hne. destruct (String.eqb_spec n n'); [congruence | reflexivity].
    + intros c Hc. rewrite !dict_get_set_ne by congruence. reflexivity.
Qed.

(** The theorem at a second addition of the model sd15. *)
Lemma add_entry_lookup_witness :
  let first := add_scenario_entry empty_manager empty_fs in
  let second := add_scenario_entry first.1.1 first.1.2 in
  dict_get (available_models second.1.1) "sd15"
  = Some (default [] (dict_get (available_models first.1.1) "sd15")
          ++ [Build_entry ("sd15" ++ "_" ++ cc first.1.1 ++ ".trt") None
                (Build_ModelConfig (profile scenario_config_full) (JBool false)
                   (JBool false) (JStr "SD15") (JBool false) (JBool true)
                   (JBool false) (JInt 0) (JInt 4))])%list
  /\ (forall n', n' <> "sd15" ->
        dict_get (available_models second.1.1) n'
        = dict_get (available_models first.1.1) n')
  /\ (forall c, c <> cc first.1.1 ->
        dict_get (all_models second.1.1) c = dict_get (all_models first.1.1) c).
Proof.
  cbv zeta.
  apply (add_entry_lookup "/Unet-trt" _ _ (add_scenario_entry empty_manager empty_fs).1.2
           (add_scenario_entry (add_scenario_entry empty_manager empty_fs).1.1
              (add_scenario_entry empty_manager empty_fs).1.2).1.2).
  vm_compute. reflexivity.
Defined.

(** X8: [add_lora_entry] raises [KeyError], changing nothing, when the
    current tag has no base models yet; otherwise it returns, and the
    list under the adapter name is the new entry alone, whatever was
    registered under that name before, the other names being untouched. *)
Theorem add_lora_entry_outcome (self : ModelManager) (fs : FS)
    (base lora_name path : string) (f bm i v u : json) :
  (dict_get (all_models self) (cc self) = None ->
   add_lora_entry self fs base lora_name path f bm i v u = (self, fs, Raise KeyError))
  /\ (forall under, dict_get (all_models self) (cc self) = Some under ->
      exists self',
        add_lora_entry self fs base lora_name path f bm i v u
        = (self', write_json self' fs, Ok ()) /\
        dict_get (available_models self') lora_name
        = Some [Build_entry path (Some base)
                  (Build_ModelConfig lora_profile (JBool false) f bm i
                     (JBool true) (JBool true) v u)] /\
        forall n', n' <> lora_name ->
          dict_get (available_models self') n' = dict_get under n').
Proof.
  unfold add_lora_entry, available_models. split.
  - intros ->. reflexivity.
  - intros under ->. eexists. split; [reflexivity |].
    cbn [all_models set_all_models cc]. rewrite dict_get_set_eq.
    cbn [default from_option id]. split; [apply dict_get_set_eq |].
    intros n' Hne. apply dict_get_set_ne. congruence.
Qed.

(** The theorem at an empty registry, and at a registry that has an
    engine under the name the adapter is given. *)
Lemma add_lora_entry_outcome_witness :
  add_lora_entry empty_manager empty_fs "sd15" "sd15" "style_cc86.trt"
    (JBool false) (JStr "SD15") (JBool false) (JInt 0) (JInt 4)
  = (empty_manager, empty_fs, Raise KeyError)
  /\ exists self',
       add_lora_entry scenario_manager empty_fs "sd15" "sd15" "style_cc86.trt"
         (JBool false) (JStr "SD15") (JBool false) (JInt 0) (JInt 4)
       = (self', write_json self' empty_fs, Ok ()) /\
       dict_get (available_models self') "sd15"
       = Some [Build_entry "style_cc86.trt" (Some "sd15")
                 (Build_ModelConfig lora_profile (JBool false) (JBool false)
                    (JStr "SD15") (JBool false) (JBool true) (JBool true)
                    (JInt 0) (JInt 4))] /\
       forall n', n' <> "sd15" ->
         dict_get (available_models self') n'
         = dict_get [("sd15", [scenario_entry "sd15_cc86.trt"])] n'.
Proof.
  split.
  - apply (proj1 (add_lora_entry_outcome empty_manager empty_fs "sd15" "sd15"
                    "style_cc86.trt" (JBool false) (JStr "SD15") (JBool false)
                    (JInt 0) (JInt 4))).
    reflexivity.
  - apply (proj2 (add_lora_entry_outcome scenario_manager empty_fs "sd15" "sd15"
                    "style_cc86.trt" (JBool false) (JStr "SD15") (JBool false)
                    (JInt 0) (JInt 4))).
    reflexivity.
Defined.

(** X9: a manager started on the file another manager wrote, with the
    same tag, has that manager's registry, and leaves the file as it is,
    provided every registered list has an engine on disk. Started
    without a file, it has the empty registry and writes the empty
    document. *)
Theorem init_restart :
  (forall (self : ModelManager) (fs : FS),
     unique_keys (all_models self) ->
     (forall es, stored (all_models self) es -> has_engine fs es = true) ->
     init (model_file self) (cc self) (write_json self fs)
     = (self, write_json self fs, Ok ()))
  /\ (forall (model_file cc : string) (fs : FS),
        dict_get (files fs) model_file = None ->
        init model_file cc fs
        = ({| all_models := []; model_file := model_file; cc := cc |},
           {| files := dict_set (files fs) model_file (JDict []);
              listdir_trt := listdir_trt fs |}, Ok ())).
Proof.
  split.
  - intros self fs Hu Hall. unfold init.
    assert (Hf : dict_get (files (write_json self fs)) (model_file self)
                 = Some (registry_json (all_models self)))
      by (unfold write_json; simpl; apply dict_get_set_eq).
    rewrite Hf.
    change (read_json {| all_models := []; model_file := model_file self;
                         cc := cc self |} (write_json self fs))
      with (read_json self (write_json self fs)).
    rewrite written_file_reads_back.
    assert (Hs : set_all_models {| all_models := []; model_file := model_file self;
                                   cc := cc self |} (all_models self) = self)
      by (destruct self; reflexivity).
    rewrite Hs.
    destruct (update_returns self (write_json self fs) Hall) as [self' H'].
    pose proof (update_returns_unchanged self self' _ _ Hu H') as Heq.
    assert (self' = self).
    { unfold update in H'.
      destruct (update_ccs _ (all_models self) (all_models self)) as [all r].
      destruct r as [[]| |]; inversion H'. subst self'. simpl in Heq. subst all.
      destruct self; reflexivity. }
    subst self'. rewrite H'. f_equal. f_equal.
    unfold write_json. simpl. rewrite dict_set_set. reflexivity.
  - intros mf c fs Hnone. unfold init. rewrite Hnone. reflexivity.
Qed.

Lemma scenario_manager_unique : unique_keys (all_models scenario_manager).
Proof.
  split.
  - repeat constructor. simpl. tauto.
  - intros c bms [H | []]. inversion H; subst. repeat constructor. simpl. tauto.
Qed.

(** The theorem at the manager with the scenario's entry, its engine on
    disk, and at a start without a file. *)
Lemma init_restart_witness :
  init "model.json" "cc86" (write_json scenario_manager stale_fs)
  = (scenario_manager, write_json scenario_manager stale_fs, Ok ())
  /\ init "model.json" "cc86" empty_fs
     = (empty_manager,
        {| files := dict_set (files empty_fs) "model.json" (JDict []);
           listdir_trt := listdir_trt empty_fs |}, Ok ()).
Proof.
  split.
  - apply (proj1 init_restart scenario_manager stale_fs scenario_manager_unique).
    intros es (c & bms & bm & [Hc | []] & Hb). inversion Hc; subst.
    destruct Hb as [Hb | []]. inversion Hb; subst. reflexivity.
  - apply (proj2 init_restart "model.json" "cc86" empty_fs). reflexivity.
Defined.

(** ** File names *)

Lemma string_length_append (s t : string) :
  String.length (s ++ t) = (String.length s + String.length t)%nat.
Proof.
  induction s as [|c s IH]; simpl; [reflexivity | rewrite IH; reflexivity].
Qed.

Lemma string_append_cancel_r (s1 s2 t : string) :
  (s1 ++ t)%string = (s2 ++ t)%string -> s1 = s2.
Proof.
  revert s2. induction s1 as [|c s1 IH]; intros [|c' s2] H.
  - reflexivity.
  - apply (f_equal String.length) in H.
    rewrite !string_length_append in H. simpl in H. lia.
  - apply (f_equal String.length) in H.
    rewrite !string_length_append in H. simpl in H. lia.
  - change (String c (s1 ++ t) = String c' (s2 ++ t))%string in H.
    inversion H. f_equal. apply IH. assumption.
Qed.

Lemma string_append_assoc (s t u : string) :
  ((s ++ t) ++ u)%string = (s ++ t ++ u)%string.
Proof.
  induction s as [|c s IH]; [reflexivity |].
  change (String c ((s ++ t) ++ u) = String c (s ++ t ++ u))%string.
  rewrite IH. reflexivity.
Qed.

Lemma substring_all (t : string) : substring 0 (String.length t) t = t.
Proof.
  induction t as [|c t IH]; simpl; [reflexivity | rewrite IH; reflexivity].
Qed.

Lemma substring_append_suffix (s t : string) :
  substring (String.length s) (String.length t) (s ++ t) = t.
Proof.
  induction s as [|c s IH]; simpl; [apply substring_all | exact IH].
Qed.

Lemma endswith_append (s t : string) : endswith (s ++ t) t = true.
Proof.
  unfold endswith. rewrite string_length_append.
  replace (String.length s + String.length t - String.length t)%nat
    with (String.length s) by lia.
  rewrite substring_append_suffix, String.eqb_refl, andb_true_r.
  apply Nat.leb_le. lia.
Qed.

(** X10: under one tag, the engine file name determines the model name,
    and so does the ONNX file name; an engine file name ends in [.trt],
    so that [update] counts the entry as present as soon as the
    directory lists its file. *)
Theorem file_names_injective :
  (forall (D : string) (self : ModelManager) (n1 n2 : string) (p1 p2 s1 s2 : json)
          (a b1 b2 : string),
     get_trt_path D self n1 p1 s1 = Ok (a, b1) ->
     get_trt_path D self n2 p2 s2 = Ok (a, b2) -> n1 = n2)
  /\ (forall (D : string) (n1 n2 : string),
        (get_onnx_path D n1).1 = (get_onnx_path D n2).1 -> n1 = n2)
  /\ (forall (D : string) (self : ModelManager) (n : string) (p s : json)
             (a b : string) (fs : FS) (e : entry),
        get_trt_path D self n p s = Ok (a, b) ->
        filepath e = a -> In a (listdir_trt fs) -> on_disk fs e = true).
Proof.
  split; [| split].
  - intros D self n1 n2 p1 p2 s1 s2 a b1 b2 H1 H2.
    apply get_trt_path_name in H1. apply get_trt_path_name in H2.
    rewrite H1 in H2.
    apply (string_append_cancel_r n1 n2 ("_" ++ cc self ++ ".trt")). exact H2.
  - intros D n1 n2 H. unfold get_onnx_path in H. simpl in H.
    apply (string_append_cancel_r n1 n2 ".onnx"). exact H.
  - intros D self n p s a b fs e H Hf Hin.
    apply get_trt_path_name in H.
    unfold on_disk, trt_engines. rewrite existsb_exists. exists a. split.
    + apply filter_In. split; [exact Hin |].
      subst a.
      rewrite <- !string_append_assoc. apply endswith_append.
    + rewrite Hf. apply String.eqb_refl.
Qed.

(** The theorem at the model sd15 under the tag cc86. *)
Lemma file_names_injective_witness :
  "sd15" = "sd15" /\ "sd15" = "sd15" /\
  on_disk stale_fs (scenario_entry "sd15_cc86.trt") = true.
Proof.
  split; [| split].
  - apply (proj1 file_names_injective "/Unet-trt" empty_manager "sd15" "sd15"
             (profile scenario_config_full) (profile scenario_config_full)
             (JBool false) (JBool true) "sd15_cc86.trt"
             "/Unet-trt/sd15_cc86.trt" "/Unet-trt/sd15_cc86.trt");
      vm_compute; reflexivity.
  - apply (proj1 (proj2 file_names_injective) "/Unet-onnx" "sd15" "sd15").
    reflexivity.
  - apply (proj2 (proj2 file_names_injective) "/Unet-trt" empty_manager "sd15"
             (profile scenario_config_full) (JBool false) "sd15_cc86.trt"
             "/Unet-trt/sd15_cc86.trt" stale_fs).
    + vm_compute. reflexivity.
    + reflexivity.
    + simpl. auto.
Defined.

Lemma dim_hash_loop_shapes (shapes : list (list Z)) (range : list nat) :
  dim_hash_loop (JList (map shape_json shapes)) range
  = if forallb (fun i => (i <? length shapes)%nat) range
    then Ok () else Raise IndexError.
Proof.
  induction range as [|i range IH]; simpl; [reflexivity |].
  rewrite nth_error_map.
  destruct (nth_error shapes i) as [sh|] eqn:E; simpl.
  - assert (Hlt : (i < length shapes)%nat) by (apply nth_error_Some; congruence).
    rewrite (proj2 (Nat.ltb_lt _ _) Hlt). simpl. bind_step. exact IH.
  - apply nth_error_None in E.
    rewrite (proj2 (Nat.ltb_ge _ _) E). reflexivity.
Qed.

Lemma forallb_seq_lt (n m : nat) :
  forallb (fun i => (i <? m)%nat) (seq 0 n) = (n <=? m)%nat.
Proof.
  destruct (Nat.leb_spec n m) as [H | H].
  - apply forallb_forall. intros i Hi. apply in_seq in Hi. apply Nat.ltb_lt. lia.
  - destruct (forallb _ (seq 0 n)) eqn:E; [| reflexivity].
    rewrite forallb_forall in E. specialize (E m).
    rewrite Nat.ltb_irrefl in E.
    assert (F : false = true) by (apply E, in_seq; lia). discriminate F.
Qed.

Lemma profile_hash_loop_shapes (items : list (string * list (list Z))) (n : nat) :
  profile_hash_loop (map (fun kv => (kv.1, JList (map shape_json kv.2))) items) n
  = if forallb (fun kv => (n <=? length kv.2)%nat) items
    then Ok () else Raise IndexError.
Proof.
  induction items as [|[k shapes] items IH]; simpl; [reflexivity |].
  rewrite dim_hash_loop_shapes, forallb_seq_lt.
  destruct (n <=? length shapes)%nat; simpl; [bind_step; exact IH | reflexivity].
Qed.

(** X11: for a profile that gives each input a list of shapes,
    [get_trt_path] (and so [add_entry]) asks for at least one shape per
    input when [static_shape] is true and for at least three when it is
    not; with fewer it raises [IndexError], with these it returns the
    name model_cc.trt, whatever the shapes are. *)
Theorem get_trt_path_shapes (D : string) (self : ModelManager) (n : string)
    (items : list (string * list (list Z))) (static_shape : json) :
  let n_profiles := if truthy static_shape then 1%nat else 3%nat in
  get_trt_path D self n (profile_json items) static_shape
  = if forallb (fun kv => (n_profiles <=? length kv.2)%nat) items
    then Ok (n ++ "_" ++ cc self ++ ".trt",
             os_path_join D (n ++ "_" ++ cc self ++ ".trt"))
    else Raise IndexError.
Proof.
  unfold get_trt_path, profile_json. bind_step.
  rewrite profile_hash_loop_shapes.
  destruct (forallb _ items); reflexivity.
Qed.

(** ** The weight-update set, from the engine's names to the refitter *)

Section WeightSetKeys.
Context {ndarray : Type}.
Context (f : ndarray -> bool) (g : ndarray -> ndarray).
Implicit Types (d : gmap string (option ndarray)) (m : gmap string string).
Implicit Types (st : @walk_state ndarray) (n : @node ndarray).

Lemma keeps_weights_refl d : keeps_weights d d.
Proof.
  intros k. destruct (d !! k) as [[x|]|] eqn:E; eauto.
Qed.

Lemma keeps_weights_trans d1 d2 d3 :
  keeps_weights d1 d2 -> keeps_weights d2 d3 -> keeps_weights d1 d3.
Proof.
  intros H12 H23 k. specialize (H12 k). specialize (H23 k).
  destruct (d1 !! k) as [[x|]|].
  - rewrite H12 in H23. exact H23.
  - destruct H12 as [y Hy]. rewrite Hy in H23. destruct y; [rewrite H23 |]; eauto.
  - rewrite H12 in H23. exact H23.
Qed.

Lemma walk_extends_refl st : walk_extends st st.
Proof.
  split; [apply keeps_weights_refl | exists []; rewrite app_nil_r; reflexivity].
Qed.

Lemma walk_extends_trans st1 st2 st3 :
  walk_extends st1 st2 -> walk_extends st2 st3 -> walk_extends st1 st3.
Proof.
  intros [K12 [l12 E12]] [K23 [l23 E23]]. split.
  - eapply keeps_weights_trans; eassumption.
  - exists (l12 ++ l23)%list. rewrite E23, E12, app_assoc. reflexivity.
Qed.

Lemma add_to_map_keeps (c : string) (v : ndarray) d d' :
  add_to_map f g c v d = Ok d' -> keeps_weights d d'.
Proof.
  unfold add_to_map. destruct (d !! c) as [[x|]|] eqn:E; intros H; inversion H; subst.
  - intros k. destruct (decide (k = c)) as [-> | Hne].
    + rewrite E, lookup_insert_eq. eauto.
    + rewrite lookup_insert_ne by congruence.
      destruct (d !! k) as [[y|]|]; eauto.
  - apply keeps_weights_refl.
Qed.

Lemma try_add_extends (c : string) (t : @tensor ndarray) (msg : string) st :
  walk_extends st (try_add f g c t msg st).
Proof.
  unfold try_add. destruct t as [tn v | tn]; simpl.
  - destruct (add_to_map f g c v st.1) as [d'| |] eqn:E; simpl.
    + split; [eapply add_to_map_keeps; exact E | exists []; simpl; rewrite app_nil_r; reflexivity].
    + split; [apply keeps_weights_refl | eauto].
    + split; [apply keeps_weights_refl | eauto].
  - split; [apply keeps_weights_refl | eauto].
Qed.

Lemma walk_inputs_extends m (inps : list (@tensor ndarray)) st st' :
  walk_inputs f g m inps st = Ok st' -> walk_extends st st'.
Proof.
  revert st. induction inps as [|inp inps IH]; intros st H; simpl in H.
  - inversion H. apply walk_extends_refl.
  - destruct inp as [c v | c]; [| apply IH; exact H].
    destruct (add_to_map f g _ v st.1) as [d'| |] eqn:E; bind_step_in H;
      try discriminate.
    eapply walk_extends_trans; [| apply IH; exact H].
    split; [eapply add_to_map_keeps; exact E | exists []; simpl; rewrite app_nil_r; reflexivity].
Qed.

Lemma walk_node_extends m n st st' :
  walk_node f g m n st = Ok st' -> walk_extends st st'.
Proof.
  unfold walk_node. destruct (String.eqb (op n) "Constant").
  - destruct (index (outputs n) 0) as [o| |]; bind_step; try discriminate.
    intros H. inversion H. apply try_add_extends.
  - destruct (String.eqb (op n) "Conv"); [| apply walk_inputs_extends].
    destruct (index (inputs n) 1) as [k| |]; bind_step; try discriminate.
    destruct (index (inputs n) 2) as [b| |]; bind_step; try discriminate.
    intros H. inversion H.
    eapply walk_extends_trans.
    + instantiate (1 := if is_Constant k then _ else st).
      destruct (is_Constant k); [apply try_add_extends | apply walk_extends_refl].
    + destruct (is_Constant b); [apply try_add_extends | apply walk_extends_refl].
Qed.

Lemma walk_nodes_extends m (ns : list (@node ndarray)) st st' :
  walk_nodes f g m ns st = Ok st' -> walk_extends st st'.
Proof.
  revert st. induction ns as [|n ns IH]; intros st H; simpl in H.
  - inversion H. apply walk_extends_refl.
  - destruct (walk_node f g m n st) as [st1| |] eqn:E; bind_step_in H;
      try discriminate.
    eapply walk_extends_trans; [eapply walk_node_extends; exact E | apply IH; exact H].
Qed.

Lemma refit_dict_init_lookup (aw : list (string * WeightsRole)) d d' :
  refit_dict_init aw d = Ok d' ->
  forall k : string,
    d' !! k = if bool_decide (k ∈ canonical_names aw) then Some None else d !! k.
Proof.
  revert d. induction aw as [|[l r] aw IH]; intros d H k; simpl in H.
  - inversion H. subst. rewrite bool_decide_eq_false_2; [reflexivity |].
    simpl. apply not_elem_of_nil.
  - destruct (d !! change_trt_layer_name l r) eqn:E; [discriminate |].
    rewrite (IH _ H k). simpl.
    destruct (decide (k = change_trt_layer_name l r)) as [-> | Hne].
    + rewrite (bool_decide_eq_true_2 (_ ∈ _ :: _)) by (apply elem_of_cons; left; reflexivity).
      rewrite lookup_insert_eq. destruct (bool_decide _); reflexivity.
    + rewrite lookup_insert_ne by congruence.
      destruct (decide (k ∈ canonical_names aw)) as [Hin | Hout].
      * rewrite !bool_decide_eq_true_2; [reflexivity | | exact Hin].
        apply elem_of_cons. right. exact Hin.
      * rewrite !bool_decide_eq_false_2; [reflexivity | | exact Hout].
        intros Hin. apply elem_of_cons in Hin as [? | ?]; contradiction.
Qed.

Lemma refit_keys (aw : list (string * WeightsRole))
    (nodes refit_nodes : list (@node ndarray)) d (log : list string) :
  refit f g aw nodes refit_nodes = Ok (d, log) ->
  NoDup (canonical_names aw) /\
  forall k : string, is_Some (d !! k) <-> k ∈ canonical_names aw.
Proof.
  unfold refit. destruct (name_map_loop refit_nodes 0 nodes ∅) as [m [[]| |]];
    try discriminate.
  destruct (refit_dict_init aw ∅) as [d0| |] eqn:E; bind_step; try discriminate.
  intros H. split.
  - destruct (decide (NoDup (canonical_names aw))) as [Hnd | Hnd]; [exact Hnd |].
    rewrite (refit_dict_init_dup aw ∅ Hnd) in E. discriminate.
  - intros k. apply walk_nodes_extends in H as [K _]. simpl in K. specialize (K k).
    rewrite (refit_dict_init_lookup aw ∅ d0 E k) in K.
    destruct (decide (k ∈ canonical_names aw)) as [Hin | Hout].
    + rewrite bool_decide_eq_true_2 in K by exact Hin. tauto.
    + rewrite bool_decide_eq_false_2, lookup_empty in K by exact Hout.
      rewrite K. split; [intros [? ?]; discriminate | contradiction].
Qed.
End WeightSetKeys.

(** X12: when [refit] completes the weight-update set, its names are
    the canonical names of the engine's (layer, role) pairs, each once:
    the graphs add no name to it and take none away. *)
Theorem refit_dict_keys (ndarray : Type) (f : ndarray -> bool) (g : ndarray -> ndarray)
    (all_weights : list (string * WeightsRole)) (nodes refit_nodes : list (@node ndarray))
    (d : gmap string (option ndarray)) (log : list string) :
  refit f g all_weights nodes refit_nodes = Ok (d, log) ->
  NoDup (canonical_names all_weights) /\
  forall k : string, is_Some (d !! k) <-> k ∈ canonical_names all_weights.
Proof.
  apply refit_keys.
Qed.

(** The theorem at an engine with the one weight w and a refit graph
    that gives it twice. *)
Lemma refit_dict_keys_witness :
  NoDup (canonical_names [("w", CONSTANT)]) /\
  forall k : string,
    is_Some (({["w" := Some 1]} : gmap string (option Z)) !! k)
    <-> k ∈ canonical_names [("w", CONSTANT)].
Proof.
  apply (refit_dict_keys Z (fun _ => false) (fun x => x) [("w", CONSTANT)]
           [const_node "w" 1; const_node "w" 1] [const_node "w" 1; const_node "w" 2]
           {["w" := Some 1]} [("Failed to add Constant w" ++ newline)%string]).
  vm_compute. reflexivity.
Defined.

(** X13: the walk over the refit graph writes a name once: a value the
    set holds is still there, unchanged, when the walk ends, whatever
    the later nodes give for that name; and no logged error is dropped. *)
Theorem walk_writes_once (ndarray : Type) (f : ndarray -> bool) (g : ndarray -> ndarray)
    (m : gmap string string) (refit_nodes : list (@node ndarray))
    (st st' : @walk_state ndarray) :
  walk_nodes f g m refit_nodes st = Ok st' ->
  (forall (k : string) (x : ndarray),
     st.1 !! k = Some (Some x) -> st'.1 !! k = Some (Some x))
  /\ exists l : list string, st'.2 = (st.2 ++ l)%list.
Proof.
  intros H. apply walk_nodes_extends in H as [K L]. split; [| exact L].
  intros k x Hk. specialize (K k). rewrite Hk in K. exact K.
Qed.

(** The theorem at a walk that meets the constant w a second time. *)
Lemma walk_writes_once_witness :
  (forall (k : string) (x : Z),
     wrote_w.1 !! k = Some (Some x) -> wrote_w.1 !! k = Some (Some x))
  /\ exists l : list string,
       [("Failed to add Constant w" ++ newline)%string] = (wrote_w.2 ++ l)%list.
Proof.
  apply (walk_writes_once Z (fun _ => false) (fun x => x) ∅ [const_node "w" 2]
           wrote_w (wrote_w.1, [("Failed to add Constant w" ++ newline)%string])).
  vm_compute. reflexivity.
Defined.

(** ** Handing the set to the refitter *)

Section ApplyLoops.
Context {ndarray : Type}.
Implicit Types (aw : list (string * WeightsRole)).
Implicit Types (calls : list (@set_weights_call ndarray)).

Lemma set_weights_loop_calls (d : gmap string (option ndarray)) aw calls calls'
    (o : option exn) :
  set_weights_loop d aw calls = (calls', o) ->
  forall (l : string) (r : WeightsRole) (v : ndarray),
    In (l, r, v) calls' ->
    In (l, r, v) calls \/
    (String.prefix "onnx::Trilu" l = false /\
     d !! change_trt_layer_name l r = Some (Some v) /\ In (l, r) aw).
Proof.
  revert calls. induction aw as [|[l0 r0] aw IH]; intros calls H l r v Hin;
    simpl in H.
  - inversion H. subst. left. exact Hin.
  - destruct (String.prefix "onnx::Trilu" l0) eqn:Hp.
    + destruct (IH _ H l r v Hin) as [? | (? & ? & ?)]; [left | right]; simpl; auto.
    + destruct (d !! change_trt_layer_name l0 r0) as [[v0|]|] eqn:Hd.
      * destruct (IH _ H l r v Hin) as [Hc | (? & ? & ?)]; [| right; simpl; auto].
        apply in_app_or in Hc as [Hc | [Hc | []]]; [left; exact Hc |].
        inversion Hc. subst. right. simpl. auto.
      * destruct (IH _ H l r v Hin) as [? | (? & ? & ?)]; [left | right]; simpl; auto.
      * inversion H. subst. left. exact Hin.
Qed.

Lemma set_weights_loop_end (d : gmap string (option ndarray)) aw calls :
  (forall l r, In (l, r) aw -> is_Some (d !! change_trt_layer_name l r)) ->
  (set_weights_loop d aw calls).2 = None.
Proof.
  revert calls. induction aw as [|[l0 r0] aw IH]; intros calls Hk; simpl;
    [reflexivity |].
  assert (Hk' : forall l r, In (l, r) aw -> is_Some (d !! change_trt_layer_name l r))
    by (intros; apply Hk; right; assumption).
  destruct (String.prefix "onnx::Trilu" l0); [apply IH; exact Hk' |].
  destruct (Hk l0 r0 (or_introl eq_refl)) as [[v|] ->]; apply IH; exact Hk'.
Qed.

Lemma set_weights_loop_dump (d : gmap string ndarray) aw calls :
  set_weights_loop (Some <$> d) aw calls
  = if lacks_weight d aw
    then ((set_weights_loop (Some <$> d) aw calls).1, Some KeyError)
    else (set_weights_loop_dict d aw calls, None).
Proof.
  revert calls. induction aw as [|[l0 r0] aw IH]; intros calls; simpl;
    [reflexivity |].
  unfold lacks_weight in *. simpl.
  destruct (String.prefix "onnx::Trilu" l0); simpl; [apply IH |].
  rewrite lookup_fmap.
  destruct (d !! change_trt_layer_name l0 r0) as [v|] eqn:Hd; simpl.
  - apply IH.
  - reflexivity.
Qed.
End ApplyLoops.

(** X14: after [refit] has completed the set, handing it to the
    refitter never fails on a name: the method returns, or leaves the
    process with status 0 when the engine refuses the weights. Every
    weight it sets is the value the set holds for a (layer, role) pair
    of the engine, and no layer whose name starts with onnx::Trilu is
    set. *)
Theorem refit_then_apply (ndarray : Type) (f : ndarray -> bool) (g : ndarray -> ndarray)
    (refit_cuda_engine : list (@set_weights_call ndarray) -> bool)
    (all_weights : list (string * WeightsRole)) (nodes refit_nodes : list (@node ndarray))
    (d : gmap string (option ndarray)) (log : list string) :
  refit f g all_weights nodes refit_nodes = Ok (d, log) ->
  let done := refit_apply refit_cuda_engine d all_weights in
  (done.2 = Returned \/ done.2 = Exited 0)
  /\ forall (l : string) (r : WeightsRole) (v : ndarray),
       In (l, r, v) done.1 ->
       String.prefix "onnx::Trilu" l = false /\
       d !! change_trt_layer_name l r = Some (Some v) /\ In (l, r) all_weights.
Proof.
  intros H. apply refit_keys in H as [_ Hk].
  assert (Hend : (set_weights_loop d all_weights []).2 = None).
  { apply set_weights_loop_end. intros l r Hin. apply Hk.
    unfold canonical_names. apply list_elem_of_In, in_map_iff.
    exists (l, r). split; [reflexivity | exact Hin]. }
  unfold refit_apply.
  destruct (set_weights_loop d all_weights []) as [calls o] eqn:E.
  simpl in Hend. subst o. simpl. split.
  - unfold commit. destruct (refit_cuda_engine calls); auto.
  - intros l r v Hin.
    destruct (set_weights_loop_calls d all_weights [] calls None E l r v Hin)
      as [[] | ?]; assumption.
Qed.

(** The theorem at an engine with the weights w and onnx::Trilu_7 and a
    refit graph that gives both. *)
Lemma refit_then_apply_witness :
  let d : gmap string (option Z) := {["w" := Some 2; "onnx::Trilu_7" := Some 1]} in
  let done := refit_apply (fun _ => false) d [("w", CONSTANT); ("onnx::Trilu_7", CONSTANT)] in
  (done.2 = Returned \/ done.2 = Exited 0)
  /\ forall (l : string) (r : WeightsRole) (v : Z),
       In (l, r, v) done.1 ->
       String.prefix "onnx::Trilu" l = false /\
       d !! change_trt_layer_name l r = Some (Some v) /\
       In (l, r) [("w", CONSTANT); ("onnx::Trilu_7", CONSTANT)].
Proof.
  apply (refit_then_apply Z (fun _ => false) (fun x => x) (fun _ => false)
           [("w", CONSTANT); ("onnx::Trilu_7", CONSTANT)]
           [const_node "w" 1; const_node "onnx::Trilu_7" 1]
           [const_node "w" 2; const_node "onnx::Trilu_7" 1]
           {["w" := Some 2; "onnx::Trilu_7" := Some 1]} []).
  vm_compute. reflexivity.
Defined.

(** X15: [refit_from_dump] and [refit_from_dict] on the same weights:
    if the weights have a value for every (layer, role) pair of the
    engine that is not passed over, the two methods make the same calls
    and end the same way; if a value is missing, [refit_from_dump]
    raises [KeyError] and the engine is not committed, where
    [refit_from_dict] raises nothing. *)
Theorem refit_from_dump_from_dict (ndarray : Type)
    (refit_cuda_engine : list (@set_weights_call ndarray) -> bool)
    (d : gmap string ndarray) (all_weights : list (string * WeightsRole)) :
  if lacks_weight d all_weights
  then (refit_from_dump refit_cuda_engine (Some <$> d) all_weights).2 = Raised KeyError
       /\ forall e : exn,
            (refit_from_dict refit_cuda_engine d all_weights).2 <> Raised e
  else refit_from_dump refit_cuda_engine (Some <$> d) all_weights
       = refit_from_dict refit_cuda_engine d all_weights.
Proof.
  unfold refit_from_dump, refit_from_dict.
  rewrite set_weights_loop_dump.
  destruct (lacks_weight d all_weights); [| reflexivity].
  split; [reflexivity |].
  intros e. unfold commit. simpl.
  destruct (refit_cuda_engine _); discriminate.
Qed.

(** ** A graph aligned with itself *)

Section SelfAlignment.
Context {ndarray : Type}.
Implicit Types (nd : @node ndarray) (nodes : list (@node ndarray)).
Implicit Types (m : gmap string string).

Lemma identity_insert m (k : string) :
  (forall k' v, m !! k' = Some v -> v = k') ->
  forall k' v, <[k := k]> m !! k' = Some v -> v = k'.
Proof.
  intros Hm k' v. destruct (decide (k = k')) as [-> | Hne].
  - rewrite lookup_insert_eq. congruence.
  - rewrite lookup_insert_ne by exact Hne. apply Hm.
Qed.

Lemma name_map_inputs_self nd (i : nat) (inps : list (@tensor ndarray)) m :
  (forall (j : nat) inp, inps !! j = Some inp -> inputs nd !! (i + j)%nat = Some inp) ->
  (forall k v, m !! k = Some v -> v = k) ->
  forall k v, (name_map_inputs nd i inps m).1 !! k = Some v -> v = k.
Proof.
  revert i m. induction inps as [|inp inps IH]; intros i m Hpos Hm; simpl;
    [exact Hm |].
  assert (Hpos' : forall (j : nat) inp', inps !! j = Some inp' ->
                    inputs nd !! (S i + j)%nat = Some inp').
  { intros j inp' Hj. replace (S i + j)%nat with (i + S j)%nat by lia.
    apply Hpos. exact Hj. }
  destruct (is_Constant inp); [| apply IH; assumption].
  pose proof (Hpos 0%nat inp eq_refl) as H0. rewrite Nat.add_0_r in H0.
  unfold index. rewrite H0.
  apply IH; [exact Hpos' | apply identity_insert; exact Hm].
Qed.

Lemma name_map_node_self nd m :
  (forall k v, m !! k = Some v -> v = k) ->
  forall k v, (name_map_node nd nd m).1 !! k = Some v -> v = k.
Proof.
  intros Hm. unfold name_map_node.
  destruct (String.eqb (op nd) "Constant").
  - destruct (index (outputs nd) 0) as [o| |]; simpl; try exact Hm.
    apply identity_insert. exact Hm.
  - destruct (String.eqb (op nd) "Conv").
    + destruct (index (inputs nd) 1) as [k1| |]; simpl; try exact Hm.
      assert (H1 : forall k v,
                (if is_Constant k1
                 then <[(name nd ++ "_TRTKERNEL")%string
                        := (name nd ++ "_TRTKERNEL")%string]> m
                 else m) !! k = Some v -> v = k).
      { destruct (is_Constant k1); [apply identity_insert |]; exact Hm. }
      destruct (index (inputs nd) 2) as [b| |]; simpl; try exact H1.
      destruct (is_Constant b); [apply identity_insert |]; exact H1.
    + apply name_map_inputs_self; [intros j inp Hj; exact Hj | exact Hm].
Qed.

Lemma name_map_loop_self nodes (n : nat) (rest : list (@node ndarray)) m :
  (forall (j : nat) nd, rest !! j = Some nd -> nodes !! (n + j)%nat = Some nd) ->
  (forall k v, m !! k = Some v -> v = k) ->
  forall k v, (name_map_loop nodes n rest m).1 !! k = Some v -> v = k.
Proof.
  revert n m. induction rest as [|nd rest IH]; intros n m Hpos Hm; simpl;
    [exact Hm |].
  pose proof (Hpos 0%nat nd eq_refl) as H0. rewrite Nat.add_0_r in H0.
  unfold index. rewrite H0.
  destruct (negb (String.eqb (op nd) (op nd))); [exact Hm |].
  pose proof (name_map_node_self nd m Hm) as Hn.
  destruct (name_map_node nd nd m) as [m' [[]| |]]; simpl in Hn; try exact Hn.
  apply IH; [| exact Hn].
  intros j nd' Hj. replace (S n + j)%nat with (n + S j)%nat by lia.
  apply Hpos. exact Hj.
Qed.

Lemma map_name_identity m :
  (forall k v, m !! k = Some v -> v = k) -> forall k, map_name m k = k.
Proof.
  intros Hm k. unfold map_name. destruct (m !! k) eqn:E; [apply Hm; exact E | reflexivity].
Qed.

Context (f : ndarray -> bool) (g : ndarray -> ndarray).

Lemma walk_inputs_names m m' (inps : list (@tensor ndarray)) st :
  (forall k, map_name m k = map_name m' k) ->
  walk_inputs f g m inps st = walk_inputs f g m' inps st.
Proof.
  intros Hm. revert st. induction inps as [|inp inps IH]; intros st; simpl;
    [reflexivity |].
  destruct inp as [c v | c]; [| apply IH].
  rewrite Hm. destruct (add_to_map _ _ _ _ _); bind_step; auto.
Qed.

Lemma walk_node_names m m' nd st :
  (forall k, map_name m k = map_name m' k) ->
  walk_node f g m nd st = walk_node f g m' nd st.
Proof.
  intros Hm. unfold walk_node. rewrite !Hm.
  destruct (String.eqb (op nd) "Constant").
  - destruct (index (outputs nd) 0); bind_step; try reflexivity.
    rewrite Hm. reflexivity.
  - destruct (String.eqb (op nd) "Conv"); [reflexivity |].
    apply walk_inputs_names. exact Hm.
Qed.

Lemma walk_nodes_names m m' nodes st :
  (forall k, map_name m k = map_name m' k) ->
  walk_nodes f g m nodes st = walk_nodes f g m' nodes st.
Proof.
  intros Hm. revert st. induction nodes as [|nd nodes IH]; intros st; simpl;
    [reflexivity |].
  rewrite (walk_node_names m m' nd st Hm).
  destruct (walk_node _ _ _ _ _); bind_step; auto.
Qed.
End SelfAlignment.

(** X16: aligning a graph with itself maps every name to itself,
    whether the alignment runs to its end or is left by an exception;
    the walk over the graph is then the walk with no name map at all. *)
Theorem self_alignment (ndarray : Type) (f : ndarray -> bool) (g : ndarray -> ndarray)
    (nodes : list (@node ndarray)) :
  let name_map := (name_map_loop nodes 0 nodes ∅).1 in
  (forall k : string, map_name name_map k = k)
  /\ forall (refit_nodes : list (@node ndarray)) (st : @walk_state ndarray),
       walk_nodes f g name_map refit_nodes st = walk_nodes f g ∅ refit_nodes st.
Proof.
  assert (Hid : forall k : string, map_name (name_map_loop nodes 0 nodes ∅).1 k = k).
  { apply map_name_identity. apply name_map_loop_self.
    - intros j nd Hj. exact Hj.
    - intros k v Hk. rewrite lookup_empty in Hk. discriminate. }
  split; [exact Hid |].
  intros refit_nodes st. apply walk_nodes_names.
  intros k. rewrite Hid. unfold map_name. rewrite lookup_empty. reflexivity.
Qed.

(** ** Canonical names *)

Lemma list_ascii_of_string_append (s t : string) :
  list_ascii_of_string (s ++ t)
  = (list_ascii_of_string s ++ list_ascii_of_string t)%list.
Proof.
  induction s as [|c s IH]; [reflexivity |].
  change (c :: list_ascii_of_string (s ++ t)
          = c :: (list_ascii_of_string s ++ list_ascii_of_string t)%list).
  rewrite IH. reflexivity.
Qed.

Lemma kernel_name_not_bias_name (a b : string) :
  (a ++ "_TRTKERNEL")%string <> (b ++ "_TRTBIAS")%string.
Proof.
  intros H. apply (f_equal list_ascii_of_string) in H.
  rewrite !list_ascii_of_string_append in H.
  change (list_ascii_of_string "_TRTKERNEL")
    with (list_ascii_of_string "_TRTKERNE" ++ ["L"%char])%list in H.
  change (list_ascii_of_string "_TRTBIAS")
    with (list_ascii_of_string "_TRTBIA" ++ ["S"%char])%list in H.
  rewrite !app_assoc in H. apply app_inj_tail in H as [_ H]. discriminate H.
Qed.

(** X17: [change_trt_layer_name] keeps the layers of one role apart,
    and a kernel never shares its name with a bias; but the name does
    not tell the role: a layer whose own name ends in _TRTKERNEL, under
    a role other than kernel and bias, has the name of the kernel of
    the layer without that ending. *)
Theorem change_trt_layer_name_collisions :
  (forall (role : WeightsRole) (a b : string),
     change_trt_layer_name a role = change_trt_layer_name b role -> a = b)
  /\ (forall a b : string,
        change_trt_layer_name a KERNEL <> change_trt_layer_name b BIAS)
  /\ (forall (role : WeightsRole) (a : string),
        role <> KERNEL -> role <> BIAS ->
        change_trt_layer_name (a ++ "_TRTKERNEL") role = change_trt_layer_name a KERNEL).
Proof.
  split; [| split].
  - intros role a b H. destruct role; simpl in H; try exact H.
    + apply (string_append_cancel_r a b "_TRTKERNEL"). exact H.
    + apply (string_append_cancel_r a b "_TRTBIAS"). exact H.
  - intros a b. simpl. apply kernel_name_not_bias_name.
  - intros role a Hk Hb. destruct role; try contradiction; reflexivity.
Qed.

(** The theorem at the layers conv and conv_TRTKERNEL. *)
Lemma change_trt_layer_name_collisions_witness :
  "conv" = "conv"
  /\ change_trt_layer_name "conv" KERNEL <> change_trt_layer_name "conv" BIAS
  /\ change_trt_layer_name ("conv" ++ "_TRTKERNEL") CONSTANT
     = change_trt_layer_name "conv" KERNEL.
Proof.
  split; [| split].
  - apply (proj1 change_trt_layer_name_collisions KERNEL "conv" "conv"). reflexivity.
  - apply (proj1 (proj2 change_trt_layer_name_collisions) "conv" "conv").
  - apply (proj2 (proj2 change_trt_layer_name_collisions) CONSTANT "conv");
      discriminate.
Defined.

(** ** The dtype tables *)

(** X18: [torch_to_numpy_dtype_dict] is the inverse of
    [numpy_to_torch_dtype_dict], for every numpy version: no two numpy
    types of the table share a torch type, so the inversion loses no
    entry. *)
Theorem dtype_tables_inverse (full_version : string) (k : np_dtype) (v : torch_dtype) :
  item_get (torch_to_numpy_dtype_dict full_version) v = Some k
  <-> item_get (numpy_to_torch_dtype_dict full_version) k = Some v.
Proof.
  unfold torch_to_numpy_dtype_dict, numpy_to_torch_dtype_dict.
  destruct (String.leb "1.24.0" full_version); destruct k, v; vm_compute;
    split; congruence.
Qed.

(** ** Buffers and inference *)

Section Buffers.
Context {context : Type}.
Context (get_binding_shape : context -> nat -> list Z).
Context (set_binding_shape : context -> nat -> list Z -> context).
Context (full_version : string).
Implicit Types (self : @Engine context) (bs : list binding_info).
Implicit Types (shape_dict : option (list (string * list Z))).



Lemma allocate_buffers_loop_tensors shape_dict (idx : nat) bs self self' :
  allocate_buffers_loop get_binding_shape set_binding_shape full_version
    shape_dict idx bs self = (self', Ok ()) ->
  forall name : string,
    is_Some (dict_get (tensors self) name) \/ In name (map binding_name bs) ->
    is_Some (dict_get (tensors self') name).
Proof.
  revert idx self. induction bs as [|b bs IH]; intros idx self H name Hn;
    simpl in H.
  - inversion H. subst. destruct Hn as [Hn | []]. exact Hn.
  - destruct (allocate_buffer get_binding_shape set_binding_shape full_version
                shape_dict idx b self) as [self1 [[]| |]] eqn:E; try discriminate.
    apply (IH _ _ H name).
    unfold allocate_buffer in E.
    destruct (item_get _ _) as [t|]; [| discriminate].
    destruct (torch_empty _ t) as [buf| |]; try discriminate.
    inversion E. subst self1. cbn [tensors].
    destruct (String.eqb_spec (binding_name b) name) as [-> | Hne].
    + left. rewrite dict_get_set_eq. eauto.
    + rewrite dict_get_set_ne by exact Hne.
      destruct Hn as [Hn | [Hn | Hn]]; [left; exact Hn | contradiction | right; exact Hn].
Qed.

Lemma copy_inputs_no_key_error (copy_ : buffer -> list Z -> bool)
    (ts : list (string * buffer)) (feed_dict : list (string * list Z)) :
  (forall name buf, In (name, buf) feed_dict -> is_Some (dict_get ts name)) ->
  copy_inputs copy_ ts feed_dict <> Raise KeyError.
Proof.
  induction feed_dict as [|[name buf] rest IH]; intros Hk; simpl; [discriminate |].
  destruct (Hk name buf (or_introl eq_refl)) as [t ->].
  destruct (copy_ t buf); [| discriminate].
  apply IH. intros n b Hin. apply (Hk n b). right. exact Hin.
Qed.

Lemma copy_inputs_accepted (copy_ : buffer -> list Z -> bool)
    (ts : list (string * buffer)) (feed_dict : list (string * list Z)) :
  (forall name buf, In (name, buf) feed_dict -> is_Some (dict_get ts name)) ->
  (forall t buf, copy_ t buf = true) ->
  copy_inputs copy_ ts feed_dict = Ok ().
Proof.
  induction feed_dict as [|[name buf] rest IH]; intros Hk Hc; simpl; [reflexivity |].
  destruct (Hk name buf (or_introl eq_refl)) as [t ->].
  rewrite Hc. apply IH; [| exact Hc].
  intros n b Hin. apply (Hk n b). right. exact Hin.
Qed.
End Buffers.



(** With a numpy before 1.24 a boolean binding, whose numpy type is
    [np.bool_], has no entry in the table. *)
Lemma old_numpy_bool_binding :
  item_get (numpy_to_torch_dtype_dict "1.23.5") np_bool_ = None /\
  item_get (numpy_to_torch_dtype_dict "1.26.4") np_bool_ = Some torch_bool.
Proof.
  split; reflexivity.
Qed.

(** X20: after [allocate_buffers] has returned, every binding of the
    engine has a buffer, so [infer] raises no [KeyError] for a feed that
    names bindings only; if moreover the copies are accepted, [infer]
    raises [ValueError] when the execution reports an error, and returns
    the engine's buffers when it does not. *)
Theorem infer_after_allocate (context : Type)
    (get_binding_shape : context -> nat -> list Z)
    (set_binding_shape : context -> nat -> list Z -> context)
    (execute_async_v3 : context -> list (string * buffer) -> bool)
    (full_version : string) (copy_ : buffer -> list Z -> bool)
    (self self' : @Engine context) (shape_dict : option (list (string * list Z)))
    (feed_dict : list (string * list Z)) :
  allocate_buffers get_binding_shape set_binding_shape full_version self shape_dict
  = (self', Ok ()) ->
  (forall name buf, In (name, buf) feed_dict ->
                    In name (map binding_name (engine_bindings self))) ->
  infer execute_async_v3 copy_ self' feed_dict <> Raise KeyError
  /\ ((forall t buf, copy_ t buf = true) ->
      infer execute_async_v3 copy_ self' feed_dict
      = if execute_async_v3 (engine_context self') (tensors self')
        then Ok (tensors self') else Raise ValueError).
Proof.
  intros Ha Hfeed.
  assert (Hk : forall name buf, In (name, buf) feed_dict ->
                                is_Some (dict_get (tensors self') name)).
  { intros name buf Hin.
    apply (allocate_buffers_loop_tensors get_binding_shape set_binding_shape
             full_version shape_dict 0 (engine_bindings self) self self' Ha).
    right. apply (Hfeed name buf Hin). }
  split.
  - unfold infer.
    pose proof (copy_inputs_no_key_error copy_ (tensors self') feed_dict Hk) as Hc.
    destruct (copy_inputs copy_ (tensors self') feed_dict) as [[]| |]; bind_step;
      [| intros H; apply Hc; inversion H; reflexivity | discriminate].
    destruct (negb _); discriminate.
  - intros Hcopy. unfold infer.
    rewrite (copy_inputs_accepted copy_ (tensors self') feed_dict Hk Hcopy).
    bind_step. destruct (execute_async_v3 _ _); reflexivity.
Qed.

(** The theorem at the sample engine, fed its input. *)
Lemma infer_after_allocate_witness :
  let self' := (allocate_buffers sample_binding_shape (fun ctx _ _ => ctx) "1.26.4"
                  sample_engine (Some [("sample", [2; 4; 64; 64])])).1 in
  infer (fun _ _ => true) (fun _ _ => true) self' [("sample", [2; 4; 64; 64])]
  <> Raise KeyError
  /\ ((forall (t : buffer) (buf : list Z), (fun _ _ => true) t buf = true) ->
      infer (fun _ _ => true) (fun _ _ => true) self' [("sample", [2; 4; 64; 64])]
      = if (fun _ _ => true) (engine_context self') (tensors self')
        then Ok (tensors self') else Raise ValueError).
Proof.
  apply (infer_after_allocate unit sample_binding_shape (fun ctx _ _ => ctx)
           (fun _ _ => true) "1.26.4" (fun _ _ => true) sample_engine _
           (Some [("sample", [2; 4; 64; 64])]) [("sample", [2; 4; 64; 64])]).
  - vm_compute. reflexivity.
  - intros name buf [H | []]. inversion H. left. reflexivity.
Defined.

(** ** The optimization profiles of a build *)

Lemma build_profile_lists (items : list (string * list json)) (p : Profile) :
  if forallb (fun kv => (length kv.2 =? 3)%nat) items
  then exists p', build_profile (map (fun kv => (kv.1, JList kv.2)) items) p = Ok p'
  else build_profile (map (fun kv => (kv.1, JList kv.2)) items) p = Raise AssertionError.
Proof.
  revert p. induction items as [|[name dims] items IH]; intros p; simpl; [eauto |].
  bind_step.
  destruct (length dims =? 3)%nat eqn:E; simpl; [| reflexivity].
  apply Nat.eqb_eq in E.
  destruct dims as [|a [|b [|c [|]]]]; try discriminate E.
  simpl. bind_step. apply IH.
Qed.

Lemma build_profiles_loop_lists (l : list (list (string * list json)))
    (p : list Profile) :
  if forallb (forallb (fun kv => (length kv.2 =? 3)%nat)) l
  then exists ps, build_profiles_loop (input_profile_json l) p = Ok ps
                  /\ length ps = (length p + length l)%nat
  else build_profiles_loop (input_profile_json l) p = Raise AssertionError.
Proof.
  revert p. induction l as [|i_p l IH]; intros p; simpl.
  - exists p. split; [reflexivity | lia].
  - pose proof (build_profile_lists i_p []) as Hp.
    destruct (forallb (fun kv => (length kv.2 =? 3)%nat) i_p); simpl.
    + destruct Hp as [p' ->]. bind_step.
      specialize (IH (p ++ [p'])%list).
      destruct (forallb _ l).
      * destruct IH as (ps & -> & Hlen). exists ps. split; [reflexivity |].
        rewrite Hlen, length_app. simpl. lia.
      * exact IH.
    + rewrite Hp. reflexivity.
Qed.

(** X21: the first step of [build]: with no input profile it hands on
    one empty profile; with input profiles whose dimensions are lists it
    hands on one profile for each of them when every input has exactly
    three entries (min, opt, max), and raises the assertion failure when
    some input has not. *)
Theorem build_profiles_outcome :
  build_profiles None = Ok [[]]
  /\ forall l : list (list (string * list json)),
       if forallb (forallb (fun kv => (length kv.2 =? 3)%nat)) l
       then exists ps, build_profiles (Some (input_profile_json l)) = Ok ps
                       /\ length ps = length l
       else build_profiles (Some (input_profile_json l)) = Raise AssertionError.
Proof.
  split; [reflexivity |].
  intros l. apply (build_profiles_loop_lists l []).
Qed.

(** ** Registry files of other writers *)

Lemma read_entries_app (pre : list entry) (rest : list json) :
  read_entries (map entry_json pre ++ rest)
  = (es ← read_entries rest; Ok (pre ++ es)%list).
Proof.
  induction pre as [|e pre IH]; simpl.
  - destruct (read_entries rest); reflexivity.
  - rewrite read_entry_entry_json. bind_step. rewrite IH.
    destruct (read_entries rest); reflexivity.
Qed.

Lemma ModelConfig_kwargs_unknown (cfg : list (string * json)) (k : string) :
  In k (dict_keys cfg) -> ~ In k field_names ->
  ModelConfig_kwargs cfg = Raise TypeError.
Proof.
  intros Hin Hout. unfold ModelConfig_kwargs.
  replace (forallb _ (dict_keys cfg)) with false; [reflexivity |].
  symmetry. apply not_true_is_false. intros Hall.
  rewrite forallb_forall in Hall. specialize (Hall k Hin).
  apply existsb_exists in Hall as (x & Hx & Heq).
  apply String.eqb_eq in Heq. subst x. contradiction.
Qed.

Lemma ModelConfig_kwargs_missing (cfg : list (string * json)) (k : string) :
  In k field_names -> k <> "unet_hidden_dim" -> dict_get cfg k = None ->
  ModelConfig_kwargs cfg = Raise TypeError.
Proof.
  intros Hin Hne Hk. unfold ModelConfig_kwargs.
  destruct (forallb _ _); [| reflexivity].
  simpl in Hin.
  destruct Hin as [<- | [<- | [<- | [<- | [<- | [<- | [<- | [<- | [<- | []]]]]]]]]];
    try contradiction; rewrite ?Hk;
    repeat match goal with
           | |- context [match dict_get cfg ?s with _ => _ end] =>
               destruct (dict_get cfg s)
           end; try reflexivity; discriminate.
Qed.

Lemma ModelConfig_kwargs_legacy (o : ModelConfig) :
  ModelConfig_kwargs (legacy_config o) = Ok (with_default_hidden_dim o).
Proof.
  reflexivity.
Qed.

Lemma read_json_file_with_entry (model_file cc base : string) (listing : list string)
    (pre : list entry) (e : json) (post : list json) :
  read_json {| all_models := []; model_file := model_file; cc := cc |}
    (file_with_entry model_file cc base listing pre e post)
  = (e' ← read_entry e; rest ← read_entries post;
     Ok [(cc, [(base, (pre ++ e' :: rest)%list)])]).
Proof.
  unfold read_json, file_with_entry. simpl. rewrite String.eqb_refl. simpl.
  rewrite read_entries_app. simpl.
  destruct (read_entry e) as [e'| |]; bind_step; try reflexivity.
  destruct (read_entries post) as [rest| |]; reflexivity.
Qed.

(** X22: a registry file is read with the fields of [ModelConfig]: an
    entry whose config has a key that is no field, or lacks a field
    other than unet_hidden_dim, makes [read_json] raise [TypeError], and
    the construction of the manager with it, which leaves the file as it
    is; an entry whose config lacks unet_hidden_dim only is read with
    the value 4 for it. *)
Theorem read_json_config_fields (model_file cc base path : string)
    (listing : list string) (pre : list entry) :
  let self := {| all_models := []; model_file := model_file; cc := cc |} in
  (forall (cfg : list (string * json)) (k : string) (post : list json),
     (In k (dict_keys cfg) /\ ~ In k field_names) \/
     (In k field_names /\ k <> "unet_hidden_dim" /\ dict_get cfg k = None) ->
     let fs := file_with_entry model_file cc base listing pre (raw_entry path cfg) post in
     read_json self fs = Raise TypeError /\
     init model_file cc fs = (self, fs, Raise TypeError))
  /\ (forall (o : ModelConfig) (post : list entry),
        read_json self
          (file_with_entry model_file cc base listing pre
             (raw_entry path (legacy_config o)) (map entry_json post))
        = Ok [(cc, [(base,
                     (pre ++ Build_entry path None (with_default_hidden_dim o)
                          :: post)%list)])]).
Proof.
  intros self. split.
  - intros cfg k post Hk fs.
    assert (Hcfg : ModelConfig_kwargs cfg = Raise TypeError).
    { destruct Hk as [[Hin Hout] | (Hin & Hne & Hnone)].
      - apply (ModelConfig_kwargs_unknown cfg k Hin Hout).
      - apply (ModelConfig_kwargs_missing cfg k Hin Hne Hnone). }
    assert (Hread : read_json self fs = Raise TypeError).
    { unfold self, fs. rewrite read_json_file_with_entry.
      unfold read_entry, raw_entry. simpl. rewrite Hcfg. reflexivity. }
    split; [exact Hread |].
    unfold init. fold self. rewrite Hread.
    unfold fs, file_with_entry. simpl. rewrite String.eqb_refl. reflexivity.
  - intros o post. unfold self. rewrite read_json_file_with_entry.
    unfold read_entry, raw_entry. simpl getitem_str. bind_step.
    rewrite ModelConfig_kwargs_legacy. bind_step. simpl.
    rewrite read_entries_map. reflexivity.
Qed.

(** The theorem at a file whose entry has the key extra in its config. *)
Lemma read_json_config_fields_witness :
  let self := {| all_models := []; model_file := "model.json"; cc := "cc86" |} in
  let fs := file_with_entry "model.json" "cc86" "sd15" [] []
              (raw_entry "sd15_cc86.trt" [("extra", JNull)]) [] in
  read_json self fs = Raise TypeError /\
  init "model.json" "cc86" fs = (self, fs, Raise TypeError).
Proof.
  apply (proj1 (read_json_config_fields "model.json" "cc86" "sd15" "sd15_cc86.trt" [] [])
           [("extra", JNull)] "extra" []).
  left. split; [left; reflexivity |].
  intros H. simpl in H. intuition discriminate.
Defined.
